(** * parseBatchTable: transcoding a 3D Tiles 1.0 batch table

    A shallow embedding of [Source/Scene/parseBatchTable.js] and the
    properties of its functions: [transcodeComponentType],
    [transcodePropertyType], [partitionProperties],
    [transcodeBinaryProperties], [initializeHierarchy] and the entry
    point [parseBatchTable].

    The JavaScript is embedded with its values, a store of objects
    addressed by location (the program writes into an object its caller
    owns), and a state-and-exception monad. *)

From Stdlib Require Import ZArith NArith List String Ascii Bool Lia.
From stdpp Require Import base decidable option list strings.

Local Open Scope string_scope.
Local Open Scope Z_scope.

(** ** Values *)

Abbreviation loc := nat (only parsing).

(** Numbers. The embedding covers the integers a double holds exactly
    (magnitude at most 2^53) and NaN; arithmetic that would leave that
    range is reported as [Unmodelled] rather than rounded. *)
Inductive number :=
| Int (z : Z)
| NaN.

Inductive value :=
| VUndefined
| VNull
| VBool (b : bool)
| VNum (n : number)
| VStr (s : string)
| VObj (l : loc).

Arguments VObj l%_nat.

#[global] Instance number_eq_dec : EqDecision number.
Proof. solve_decision. Defined.

#[global] Instance value_eq_dec : EqDecision value.
Proof. solve_decision. Defined.

(** ** Objects and the store *)

(** What kind of object a location holds: an ordinary object, an Array,
    a Uint8Array over a buffer, or an ArrayBuffer with its bytes. *)
Inductive obj_class :=
| ClsObject
| ClsArray
| ClsUint8Array (buffer : loc) (byteOffset : Z) (length : Z)
| ClsArrayBuffer (bytes : list Byte.byte).
Arguments ClsUint8Array buffer%_nat byteOffset%_Z length%_Z.

(** [own] lists the own enumerable data properties in enumeration order
    (what [for ... in] visits first); [inherited] lists the enumerable data
    properties reached through the prototype chain, nearest first. The chain
    of a stored object ends in [Object.prototype]. An Array keeps its
    elements as own properties named by their index; the elements of a
    Uint8Array are not listed. *)
Record object := {
  obj_class_of : obj_class;
  own : list (string * value);
  inherited : list (string * value)
}.

Record state := {
  heap : list object;
  warnings : list (string * string)
}.

(** ** Outcomes and the monad *)

(** [DeveloperError] is what the argument checks of [Core/Check.js] throw
    (the spec's [InvalidArgument]); [TypeError] is the language's own. *)
Inductive error :=
| TypeError
| DeveloperError (name : string).

(** [Unmodelled]: the run left the fragment of JavaScript embedded here. *)
Inductive outcome (A : Type) :=
| Ret (a : A)
| Throw (e : error)
| Unmodelled.
Arguments Ret {A} a.
Arguments Throw {A} e.
Arguments Unmodelled {A}.

Definition M (A : Type) : Type := state -> outcome A * state.

Definition ret {A} (a : A) : M A := fun s => (Ret a, s).
Definition throw {A} (e : error) : M A := fun s => (Throw e, s).
Definition unmodelled {A} : M A := fun s => (Unmodelled, s).

Definition bind {A B} (m : M A) (f : A -> M B) : M B :=
  fun s =>
    match m s with
    | (Ret a, s') => f a s'
    | (Throw e, s') => (Throw e, s')
    | (Unmodelled, s') => (Unmodelled, s')
    end.

Notation "'let*' x ':=' m 'in' k" := (bind m (fun x => k))
  (at level 10, x pattern, m at level 100, k at level 200).
Notation "'do' m 'then' k" := (bind m (fun _ => k))
  (at level 10, m at level 100, k at level 200).

(** A step that reads the store and leaves the state as it is. *)
Definition read {A} (f : list object -> outcome A) : M A :=
  fun s => (f (heap s), s).

Definition get_heap : M (list object) := fun s => (Ret (heap s), s).

Definition set_heap (h : list object) : M unit :=
  fun s => (Ret tt, {| heap := h; warnings := warnings s |}).

(** ** Property keys *)

Definition digit_of (c : ascii) : option N :=
  let n := N_of_ascii c in
  if ((48 <=? n) && (n <=? 57))%N then Some (n - 48)%N else None.

Fixpoint parse_digits (s : string) (acc : N) : option N :=
  match s with
  | EmptyString => Some acc
  | String c s' =>
      match digit_of c with
      | Some d => parse_digits s' (10 * acc + d)%N
      | None => None
      end
  end.

(** An array index is the canonical decimal form of an integer below
    2^32 - 1; such keys are enumerated first, in ascending order. *)
Definition array_index (k : string) : option N :=
  match k with
  | EmptyString => None
  | String "0" EmptyString => Some 0%N
  | String "0" _ => None
  | _ =>
      match parse_digits k 0 with
      | Some n => if (n <? 2 ^ 32 - 1)%N then Some n else None
      | None => None
      end
  end.

Section Assoc.
Context {A : Type}.

Fixpoint assoc (k : string) (l : list (string * A)) : option A :=
  match l with
  | [] => None
  | (k', a) :: l' => if decide (k = k') then Some a else assoc k l'
  end.

Definition keys (l : list (string * A)) : list string := map fst l.

Fixpoint replace_value (k : string) (a : A) (l : list (string * A))
  : list (string * A) :=
  match l with
  | [] => []
  | (k', a') :: l' =>
      if decide (k = k') then (k', a) :: l'
      else (k', a') :: replace_value k a l'
  end.

(** Where a new index key goes: before the first key that is not an index
    or is a larger one. *)
Fixpoint insert_index (n : N) (k : string) (a : A) (l : list (string * A))
  : list (string * A) :=
  match l with
  | [] => [(k, a)]
  | (k', a') :: l' =>
      match array_index k' with
      | Some n' =>
          if (n <? n')%N then (k, a) :: l
          else (k', a') :: insert_index n k a l'
      | None => (k, a) :: l
      end
  end.

(** Defining or overwriting an own data property: an existing key keeps
    its place, a new index key is sorted in, any other new key goes last. *)
Definition own_insert (k : string) (a : A) (l : list (string * A))
  : list (string * A) :=
  match assoc k l with
  | Some _ => replace_value k a l
  | None =>
      match array_index k with
      | Some n => insert_index n k a l
      | None => l ++ [(k, a)]
      end
  end.
End Assoc.

(** ** The language operations the program uses *)

(** Modelled from the spec: [Core/defined.js] is not among the sources. It
    is the test behind the spec's "absent" and "present": a value is defined
    when it is neither undefined nor null. *)
Definition defined (v : value) : bool :=
  match v with
  | VUndefined | VNull => false
  | _ => true
  end.

(** The [typeof] operator (no value of the embedding is a function). *)
Definition typeof (v : value) : string :=
  match v with
  | VUndefined => "undefined"
  | VNull => "object"
  | VBool _ => "boolean"
  | VNum _ => "number"
  | VStr _ => "string"
  | VObj _ => "object"
  end.

(** The accessors a class of object brings with it. *)
Definition class_get (c : obj_class) (k : string) : option value :=
  match c with
  | ClsUint8Array buffer byteOffset length =>
      if decide (k = "buffer") then Some (VObj buffer)
      else if decide (k = "byteOffset") then Some (VNum (Int byteOffset))
      else if decide (k = "byteLength") then Some (VNum (Int length))
      else if decide (k = "length") then Some (VNum (Int length))
      else None
  | _ => None
  end.

Definition object_get (o : object) (k : string) : value :=
  match assoc k (own o) with
  | Some v => v
  | None =>
      match assoc k (inherited o) with
      | Some v => v
      | None => default VUndefined (class_get (obj_class_of o) k)
      end
  end.

(** Reading [v.k] or [v[k]]. The names this program reads
    ([HIERARCHY], [extras], [extensions], [3DTILES_batch_table_hierarchy],
    [componentType], [type], [byteOffset], [buffer] and the own keys a
    [for ... in] hands it) are none of them members of a built-in prototype,
    so a read that finds no data property and no accessor of the class is
    undefined. Reading from undefined or null throws. *)
Definition get_in (h : list object) (v : value) (k : string) : outcome value :=
  match v with
  | VUndefined | VNull => Throw TypeError
  | VBool _ | VNum _ | VStr _ => Ret VUndefined
  | VObj l =>
      match h !! l with
      | Some o => Ret (object_get o k)
      | None => Unmodelled
      end
  end.

Definition get (v : value) (k : string) : M value :=
  read (fun h => get_in h v k).

Definition with_own (o : object) (l : list (string * value)) : object :=
  {| obj_class_of := obj_class_of o; own := l; inherited := inherited o |}.

(** Keys whose assignment is more than defining a data property. *)
Definition exotic_key (c : obj_class) (k : string) : bool :=
  bool_decide (k = "__proto__")
  || match c with
     | ClsObject | ClsArrayBuffer _ => false
     | ClsArray | ClsUint8Array _ _ _ =>
         bool_decide (k = "length") || bool_decide (is_Some (array_index k))
     end.

(** The assignment [v[k] = x] in strict code (the file is a module):
    on a primitive it throws, on an object it defines or overwrites the own
    property. *)
Definition put (v : value) (k : string) (x : value) : M unit :=
  match v with
  | VUndefined | VNull | VBool _ | VNum _ | VStr _ => throw TypeError
  | VObj l =>
      let* h := get_heap in
      match h !! l with
      | Some o =>
          if exotic_key (obj_class_of o) k then unmodelled
          else set_heap (<[l := with_own o (own_insert k x (own o))]> h)
      | None => unmodelled
      end
  end.

(** [{}]: a new empty object at the next free location. *)
Definition new_object : M value :=
  let* h := get_heap in
  do set_heap (h ++ [{| obj_class_of := ClsObject; own := []; inherited := [] |}])
  then ret (VObj (List.length h)).

(** [Array.isArray(v)]. *)
Definition isArray (v : value) : M bool :=
  read (fun h =>
    match v with
    | VObj l =>
        match h !! l with
        | Some o =>
            Ret (match obj_class_of o with ClsArray => true | _ => false end)
        | None => Unmodelled
        end
    | _ => Ret false
    end).

(** ** Enumeration: [for ... in] and [hasOwnProperty] *)

(** Each key once, at its first place. *)
Fixpoint first_visits (seen l : list string) : list string :=
  match l with
  | [] => []
  | k :: l' =>
      if decide (k ∈ seen) then first_visits seen l'
      else k :: first_visits (k :: seen) l'
  end.

(** The keys [for ... in] visits on a stored object: the own keys, then the
    inherited ones no own property hides (the [length] of an Array hides an
    inherited [length] without being enumerable itself). The indices of a
    non-empty Uint8Array are not listed in [own], so that case is left out. *)
Definition enumerable_keys (o : object) : option (list string) :=
  match obj_class_of o with
  | ClsUint8Array _ _ n =>
      if decide (n = 0) then
        Some (first_visits [] (keys (own o) ++ keys (inherited o)))
      else None
  | ClsArray =>
      Some (first_visits []
              (keys (own o) ++
               filter (fun k => k ≠ "length") (keys (inherited o))))
  | _ => Some (first_visits [] (keys (own o) ++ keys (inherited o)))
  end.

(** The keys of [for (k in v)], taken when the loop starts: the loops of
    this program add no property to the object they run over. Over undefined,
    null, a boolean or a number the loop has nothing to visit; the indices of
    a string are left out. *)
Definition for_in_keys (v : value) : M (list string) :=
  read (fun h =>
    match v with
    | VUndefined | VNull | VBool _ | VNum _ => Ret []
    | VStr _ => Unmodelled
    | VObj l =>
        match h !! l with
        | Some o =>
            match enumerable_keys o with
            | Some ks => Ret ks
            | None => Unmodelled
            end
        | None => Unmodelled
        end
    end).

(** The loop itself: the body runs once per key, threading what it
    accumulates; [continue] is the body returning its accumulator. *)
Fixpoint for_each {K S : Type} (ks : list K) (body : K -> S -> M S) (acc : S)
  : M S :=
  match ks with
  | [] => ret acc
  | k :: ks' =>
      let* acc' := body k acc in
      for_each ks' body acc'
  end.

(** Does [o.hasOwnProperty] still resolve to the built-in? A data property
    of that name, own or inherited, is found first, and it is not callable. *)
Definition hides_hasOwnProperty (o : object) : bool :=
  bool_decide (is_Some (assoc "hasOwnProperty" (own o ++ inherited o))).

(** The built-in's answer: an Array also owns [length]; whether a
    Uint8Array owns an index depends on elements not listed here. *)
Definition owns (o : object) (k : string) : option bool :=
  match obj_class_of o with
  | ClsArray =>
      Some (bool_decide (k = "length") || bool_decide (k ∈ keys (own o)))
  | ClsUint8Array _ _ _ =>
      match array_index k with
      | Some _ => None
      | None => Some (bool_decide (k ∈ keys (own o)))
      end
  | _ => Some (bool_decide (k ∈ keys (own o)))
  end.

(** The call [v.hasOwnProperty(k)]. *)
Definition hasOwnProperty (v : value) (k : string) : M bool :=
  read (fun h =>
    match v with
    | VUndefined | VNull => Throw TypeError
    | VBool _ | VNum _ => Ret false
    | VStr _ => Unmodelled
    | VObj l =>
        match h !! l with
        | Some o =>
            if hides_hasOwnProperty o then Throw TypeError
            else
              match owns o k with
              | Some b => Ret b
              | None => Unmodelled
              end
        | None => Unmodelled
        end
    end).

(** ** Objects the program builds for itself

    An object literal the program fills in is kept as a value of the
    embedding rather than in the store: nothing else refers to it while it is
    built. It has its own properties and a prototype, [Object.prototype] to
    begin with. *)

Inductive js_kind := KObject | KNull | KPrimitive.

Class JsKind (A : Type) := kind_of : A -> js_kind.

#[global] Instance value_kind : JsKind value :=
  fun v =>
    match v with
    | VObj _ => KObject
    | VNull => KNull
    | _ => KPrimitive
    end.

Inductive proto (A : Type) :=
| ProtoObject
| ProtoNull
| ProtoIs (a : A).
Arguments ProtoObject {A}.
Arguments ProtoNull {A}.
Arguments ProtoIs {A} a.

Record dict (A : Type) := {
  d_own : list (string * A);
  d_proto : proto A
}.
Arguments d_own {A} d.
Arguments d_proto {A} d.

Definition empty_dict {A} : dict A := {| d_own := []; d_proto := ProtoObject |}.

Definition dict_define {A} (d : dict A) (k : string) (a : A) : dict A :=
  {| d_own := own_insert k a (d_own d); d_proto := d_proto d |}.

(** The assignment [d[k] = a]. For every key but one it defines or
    overwrites the own property. The key [__proto__] reaches the setter of
    [Object.prototype] instead, which replaces the prototype when [a] is an
    object or null and does nothing otherwise; no own property appears. With
    a null prototype there is no setter and the key is an ordinary one. A
    second such assignment, through a prototype already replaced, is left
    out: a [for ... in] hands the program each key once. *)
Definition dict_set {A} `{JsKind A} (d : dict A) (k : string) (a : A)
  : M (dict A) :=
  if decide (k = "__proto__") then
    match d_proto d with
    | ProtoObject =>
        match kind_of a with
        | KObject => ret {| d_own := d_own d; d_proto := ProtoIs a |}
        | KNull => ret {| d_own := d_own d; d_proto := ProtoNull |}
        | KPrimitive => ret d
        end
    | ProtoNull => ret (dict_define d k a)
    | ProtoIs _ => unmodelled
    end
  else ret (dict_define d k a).

(** The keys [for ... in] visits on such an object: its own, then those of
    its prototype. *)
Definition dict_for_in_keys (d : dict value) : M (list string) :=
  match d_proto d with
  | ProtoObject | ProtoNull => ret (first_visits [] (keys (d_own d)))
  | ProtoIs p =>
      let* ks := for_in_keys p in
      ret (first_visits [] (keys (d_own d) ++ ks))
  end.

(** The call [d.hasOwnProperty(k)] on such an object. *)
Definition dict_hasOwnProperty (d : dict value) (k : string) : M bool :=
  read (fun h =>
    let answer := Ret (bool_decide (k ∈ keys (d_own d))) in
    if bool_decide (is_Some (assoc "hasOwnProperty" (d_own d))) then
      Throw TypeError
    else
      match d_proto d with
      | ProtoObject => answer
      | ProtoNull => Throw TypeError
      | ProtoIs (VObj l) =>
          match h !! l with
          | Some o =>
              if hides_hasOwnProperty o then Throw TypeError else answer
          | None => Unmodelled
          end
      | ProtoIs _ => Unmodelled
      end).

(** Reading [d[k]]. *)
Definition dict_get (d : dict value) (k : string) : M value :=
  match assoc k (d_own d) with
  | Some v => ret v
  | None =>
      match d_proto d with
      | ProtoObject | ProtoNull => ret VUndefined
      | ProtoIs p => get p k
      end
  end.

(** ** partitionProperties *)

Record partition := {
  binaryProperties : dict value;
  jsonProperties : dict value;
  extras : value;
  extensions : value
}.

(** Modelled from the spec: [Core/deprecationWarning.js], which
    [parseBatchTable._deprecationWarning] is unless a test replaces it, is not
    among the sources. The spec has the function "emit a one-time
    compatibility warning" and leaves the once to "the external diagnostic
    collaborator": here every warning asked for is recorded. *)
Definition deprecationWarning (identifier message : string) : M unit :=
  fun s =>
    (Ret tt,
     {| heap := heap s; warnings := warnings s ++ [(identifier, message)] |}).

Definition hierarchy_warning : string * string :=
  ("batchTableHierarchyExtension",
   "The batch table HIERARCHY property has been moved to an extension. Use extensions.3DTILES_batch_table_hierarchy instead.").

Definition partition_step (batchTable : value) (propertyId : string)
    (acc : dict value * dict value) : M (dict value * dict value) :=
  let '(jsonProperties, binaryProperties) := acc in
  let* isOwn := hasOwnProperty batchTable propertyId in
  if negb isOwn
     || bool_decide (propertyId = "HIERARCHY")
     || bool_decide (propertyId = "extensions")
     || bool_decide (propertyId = "extras")
  then ret acc
  else
    let* property := get batchTable propertyId in
    let* isArr := isArray property in
    if isArr then
      let* jsonProperties := dict_set jsonProperties propertyId property in
      ret (jsonProperties, binaryProperties)
    else
      let* binaryProperties := dict_set binaryProperties propertyId property in
      ret (jsonProperties, binaryProperties).

(** The [for ... in] loop of [partitionProperties], from two empty
    objects: the JSON properties and the binary ones. *)
Definition partition_loop (batchTable : value) : M (dict value * dict value) :=
  let* propertyIds := for_in_keys batchTable in
  for_each propertyIds (partition_step batchTable) (empty_dict, empty_dict).

Definition partitionProperties (batchTable : value) : M partition :=
  let* legacyHierarchy := get batchTable "HIERARCHY" in
  let* extras := get batchTable "extras" in
  let* extensions := get batchTable "extensions" in
  let* extensions :=
    if defined legacyHierarchy then
      do deprecationWarning (fst hierarchy_warning) (snd hierarchy_warning)
      then
      let* extensions :=
        if defined extensions then ret extensions else new_object in
      do put extensions "3DTILES_batch_table_hierarchy" legacyHierarchy
      then ret extensions
    else ret extensions in
  let* acc := partition_loop batchTable in
  ret {| binaryProperties := snd acc;
         jsonProperties := fst acc;
         extras := extras;
         extensions := extensions |}.

(** ** The type mapper *)

(** The [switch] compares with [===], case by case: only the string itself
    matches a case, and falling out of the [switch] returns undefined. *)
Definition transcodeComponentType (componentType : value) : value :=
  if decide (componentType = VStr "BYTE") then VStr "INT8"
  else if decide (componentType = VStr "UNSIGNED_BYTE") then VStr "UINT8"
  else if decide (componentType = VStr "SHORT") then VStr "INT16"
  else if decide (componentType = VStr "UNSIGNED_SHORT") then VStr "UINT16"
  else if decide (componentType = VStr "INT") then VStr "INT32"
  else if decide (componentType = VStr "UNSIGNED_INT") then VStr "UINT32"
  else if decide (componentType = VStr "FLOAT") then VStr "FLOAT32"
  else if decide (componentType = VStr "DOUBLE") then VStr "FLOAT64"
  else VUndefined.

(** The table of the spec: "BYTE→INT8, UNSIGNED_BYTE→UINT8, SHORT→INT16,
    UNSIGNED_SHORT→UINT16, INT→INT32, UNSIGNED_INT→UINT32, FLOAT→FLOAT32,
    DOUBLE→FLOAT64". *)
Definition legacy_component_types : list (string * string) :=
  [("BYTE", "INT8"); ("UNSIGNED_BYTE", "UINT8"); ("SHORT", "INT16");
   ("UNSIGNED_SHORT", "UINT16"); ("INT", "INT32"); ("UNSIGNED_INT", "UINT32");
   ("FLOAT", "FLOAT32"); ("DOUBLE", "FLOAT64")].

(** An object literal of [transcodePropertyType]; a field the literal does
    not write is absent. *)
Record TypeDescriptor := {
  td_type : value;
  td_componentType : option value;
  td_componentCount : option number
}.

#[global] Instance TypeDescriptor_kind : JsKind TypeDescriptor :=
  fun _ => KObject.

(** ** Strings as the language has them

    A string of the embedding holds the UTF-8 bytes of the JavaScript
    string, whose characters are UTF-16 code units. [code_units] lists them:
    a sequence of one, two or three bytes is one unit, a sequence of four is
    a surrogate pair. It is exact on well-formed UTF-8; a byte that fits no
    sequence is read as U+FFFD, the way a decoder replaces it. *)
Definition units_of (codePoint : N) : list N :=
  if (codePoint <? 65536)%N then [codePoint]
  else [(55296 + (codePoint - 65536) / 1024)%N;
        (56320 + (codePoint - 65536) mod 1024)%N].

(** A first byte: the units it stands for by itself, or how many bytes
    follow it and the bits it brings. *)
Definition lead (n : N) : list N * option (nat * N) :=
  if (n <? 128)%N then ([n], None)
  else if (n <? 192)%N then ([65533%N], None)
  else if (n <? 224)%N then ([], Some (1%nat, (n - 192)%N))
  else if (n <? 240)%N then ([], Some (2%nat, (n - 224)%N))
  else if (n <? 248)%N then ([], Some (3%nat, (n - 240)%N))
  else ([65533%N], None).

Fixpoint code_units_from (pending : option (nat * N)) (s : string)
  : list N :=
  match s with
  | EmptyString =>
      match pending with
      | Some _ => [65533%N]
      | None => []
      end
  | String c s' =>
      let n := N_of_ascii c in
      match pending with
      | Some (k, bits) =>
          if ((128 <=? n) && (n <? 192))%N then
            let bits' := (bits * 64 + (n - 128))%N in
            match k with
            | O | S O => units_of bits' ++ code_units_from None s'
            | S k' => code_units_from (Some (k', bits')) s'
            end
          else
            65533%N :: fst (lead n) ++ code_units_from (snd (lead n)) s'
      | None => fst (lead n) ++ code_units_from (snd (lead n)) s'
      end
  end.

Definition code_units (s : string) : list N := code_units_from None s.

(** The value of a code unit that is a decimal digit. *)
Definition digit_value (u : N) : number :=
  if ((48 <=? u) && (u <=? 57))%N then Int (Z.of_N (u - 48)) else NaN.

(** [v.charAt(i)]: on a string, the string of the one code unit at [i], or
    the empty string; any other value has no callable [charAt]. The string
    returned is given by its code units: half a surrogate pair is no UTF-8
    string. *)
Definition charAt (v : value) (i : nat) : M (list N) :=
  match v with
  | VStr s =>
      ret (match code_units s !! i with
           | Some u => [u]
           | None => []
           end)
  | _ => throw TypeError
  end.

(** [parseInt] on what [charAt] returns, a string of at most one code
    unit: a decimal digit is its value, anything else is not a number. *)
Definition parseInt (units : list N) : M number :=
  match units with
  | [] => ret NaN
  | [u] => ret (digit_value u)
  | _ => unmodelled
  end.

Definition transcodePropertyType (property : value) : M TypeDescriptor :=
  let* legacyComponentType := get property "componentType" in
  let componentType := transcodeComponentType legacyComponentType in
  let* propertyType := get property "type" in
  if decide (propertyType = VStr "SCALAR") then
    ret {| td_type := componentType;
           td_componentType := None;
           td_componentCount := None |}
  else
    let* digit := charAt propertyType 3 in
    let* componentCount := parseInt digit in
    ret {| td_type := VStr "ARRAY";
           td_componentType := Some componentType;
           td_componentCount := Some componentCount |}.

(** ** Addition *)

Definition safe (z : Z) : bool := Z.abs z <=? 2 ^ 53.

(** [ToNumber] of the primitives that are not strings. *)
Definition to_number (v : value) : option number :=
  match v with
  | VUndefined => Some NaN
  | VNull => Some (Int 0)
  | VBool b => Some (Int (if b then 1 else 0))
  | VNum n => Some n
  | VStr _ | VObj _ => None
  end.

(** [a + b]. With a string or an object operand [+] concatenates, and a sum
    beyond 2^53 is rounded: both are left out. *)
Definition js_add (a b : value) : M value :=
  match to_number a, to_number b with
  | Some (Int x), Some (Int y) =>
      if safe x && safe y && safe (x + y) then ret (VNum (Int (x + y)))
      else unmodelled
  | Some _, Some _ => ret (VNum NaN)
  | _, _ => unmodelled
  end.

(** ** transcodeBinaryProperties *)

(** The literal [{bufferView: bufferViewCount}]. *)
Record BufferViewRef := { bufferView : nat }.

#[global] Instance BufferViewRef_kind : JsKind BufferViewRef :=
  fun _ => KObject.

(** Modelled from the spec: [Scene/MetadataSchema.js] is not among the
    sources. The spec has the schema as [{classes: {<class id>: ClassSchema}}]
    with a ClassSchema "a mapping from property identifier to
    TargetTypeDescriptor": the constructed schema keeps, per class
    identifier of its JSON, that class's property descriptors. *)
Record MetadataClass := { class_properties : dict TypeDescriptor }.
Record MetadataSchema := { schema_classes : list (string * MetadataClass) }.

(** The literal [{classes: {_batchTable: {properties: classProperties}}}]. *)
Record ClassJson := { properties : dict TypeDescriptor }.
Record SchemaJson := { classes : list (string * ClassJson) }.

Definition new_MetadataSchema (schemaJson : SchemaJson) : MetadataSchema :=
  {| schema_classes :=
       map (fun c => (fst c, {| class_properties := properties (snd c) |}))
           (classes schemaJson) |}.

(** The literal [{class: "_batchTable", count: featureCount, properties:
    featureTableProperties}]. *)
Record FeatureTableJson := {
  ftj_class : string;
  ftj_count : value;
  ftj_properties : dict BufferViewRef
}.

(** A slot of [bufferViewsU8]: the key is a number, a new key is kept in
    ascending order as index keys are. *)
Fixpoint slot_insert {V} (n : nat) (v : V) (l : list (nat * V))
  : list (nat * V) :=
  match l with
  | [] => [(n, v)]
  | (n', v') :: l' =>
      if decide (n = n') then (n, v) :: l'
      else if decide (n < n')%nat then (n, v) :: l
      else (n', v') :: slot_insert n v l'
  end.

Fixpoint slot_lookup {V} (n : nat) (l : list (nat * V)) : option V :=
  match l with
  | [] => None
  | (n', v) :: l' => if decide (n = n') then Some v else slot_lookup n l'
  end.

Section Transcoder.
(** [Scene/getBinaryAccessor.js] is not among the sources: the accessor it
    returns for a property, and the view the accessor's
    [createArrayBufferView(buffer, byteOffset, length)] constructs, are
    parameters. Both may read the store and may throw; neither writes. *)
Context {View : Type}.

Record BinaryAccessor := {
  createArrayBufferView :
    list object -> value -> value -> value -> outcome View
}.

Variable getBinaryAccessor : list object -> value -> outcome BinaryAccessor.

Record transcoding := {
  acc_classProperties : dict TypeDescriptor;
  acc_featureTableProperties : dict BufferViewRef;
  acc_bufferViewsU8 : list (nat * View);
  acc_bufferViewCount : nat
}.

Record transcoded := {
  featureTableJson : FeatureTableJson;
  bufferViewsU8 : list (nat * View);
  transcodedSchema : MetadataSchema;
  transcodedClass : option MetadataClass
}.

Definition transcode_step (featureCount : value)
    (binaryProperties : dict value) (binaryBody : value)
    (propertyId : string) (acc : transcoding) : M transcoding :=
  let* isOwn := dict_hasOwnProperty binaryProperties propertyId in
  if negb isOwn then ret acc
  else
    let* property := dict_get binaryProperties propertyId in
    let* binaryAccessor := read (fun h => getBinaryAccessor h property) in
    let* featureTableProperties :=
      dict_set (acc_featureTableProperties acc) propertyId
               {| bufferView := acc_bufferViewCount acc |} in
    let* propertyType := transcodePropertyType property in
    let* classProperties :=
      dict_set (acc_classProperties acc) propertyId propertyType in
    let* buffer := get binaryBody "buffer" in
    let* bodyOffset := get binaryBody "byteOffset" in
    let* propertyOffset := get property "byteOffset" in
    let* byteOffset := js_add bodyOffset propertyOffset in
    let* view :=
      read (fun h =>
              createArrayBufferView binaryAccessor h buffer byteOffset
                                    featureCount) in
    ret {| acc_classProperties := classProperties;
           acc_featureTableProperties := featureTableProperties;
           acc_bufferViewsU8 :=
             slot_insert (acc_bufferViewCount acc) view
                         (acc_bufferViewsU8 acc);
           acc_bufferViewCount := S (acc_bufferViewCount acc) |}.

(** What one turn of that loop computes for its property, apart from the
    slot and the key it files the results under. *)
Definition transcode_property (featureCount binaryBody property : value)
  : M (TypeDescriptor * View) :=
  let* binaryAccessor := read (fun h => getBinaryAccessor h property) in
  let* propertyType := transcodePropertyType property in
  let* buffer := get binaryBody "buffer" in
  let* bodyOffset := get binaryBody "byteOffset" in
  let* propertyOffset := get property "byteOffset" in
  let* byteOffset := js_add bodyOffset propertyOffset in
  let* view :=
    read (fun h =>
            createArrayBufferView binaryAccessor h buffer byteOffset
                                  featureCount) in
  ret (propertyType, view).

(** The binary properties the loop can work on: distinct own keys, none
    of them [__proto__], an enumeration that the model covers, the built-in
    [hasOwnProperty], and for every own property a turn that succeeds. *)
Definition transcodable (fc : value) (d : dict value) (body : value)
    (s : state) : Prop :=
  NoDup (keys (d_own d)) /\
  ("__proto__" ∉ keys (d_own d)) /\
  (exists ks, dict_for_in_keys d s = (Ret ks, s)) /\
  (forall k,
     dict_hasOwnProperty d k s =
     (Ret (bool_decide (k ∈ keys (d_own d))), s)) /\
  (forall k p, (k, p) ∈ d_own d ->
     exists r, transcode_property fc body p s = (Ret r, s)).

Definition transcodeBinaryProperties (featureCount : value)
    (binaryProperties : dict value) (binaryBody : value) : M transcoded :=
  let* propertyIds := dict_for_in_keys binaryProperties in
  let* acc :=
    for_each propertyIds
      (transcode_step featureCount binaryProperties binaryBody)
      {| acc_classProperties := empty_dict;
         acc_featureTableProperties := empty_dict;
         acc_bufferViewsU8 := [];
         acc_bufferViewCount := 0 |} in
  let schemaJson :=
    {| classes :=
         [("_batchTable", {| properties := acc_classProperties acc |})] |} in
  let transcodedSchema := new_MetadataSchema schemaJson in
  let featureTableJson :=
    {| ftj_class := "_batchTable";
       ftj_count := featureCount;
       ftj_properties := acc_featureTableProperties acc |} in
  ret {| featureTableJson := featureTableJson;
         bufferViewsU8 := acc_bufferViewsU8 acc;
         transcodedSchema := transcodedSchema;
         transcodedClass :=
           assoc "_batchTable" (schema_classes transcodedSchema) |}.

(** ** initializeHierarchy *)

(** Modelled from the spec: [Scene/BatchTableHierarchy.js] is not among the
    sources; the hierarchy is "constructed from the extension payload and
    the shared binary buffer" and keeps the two. *)
Record BatchTableHierarchy := {
  bth_extension : value;
  bth_binaryBody : value
}.

(** [None] is the function's [undefined]. *)
Definition initializeHierarchy (extensions binaryBody : value)
  : M (option BatchTableHierarchy) :=
  if negb (defined extensions) then ret None
  else
    let* hierarchy := get extensions "3DTILES_batch_table_hierarchy" in
    if negb (defined hierarchy) then ret None
    else ret (Some {| bth_extension := hierarchy;
                      bth_binaryBody := binaryBody |}).

(** ** parseBatchTable *)

Record options := {
  count : value;
  batchTable : value;
  binaryBody : value
}.

(** Modelled from the spec: [Core/Check.js] is not among the sources. The
    spec has a violated precondition fail with an [InvalidArgument] error;
    [Check.typeOf.number(name, test)] and [Check.typeOf.object(name, test)]
    are taken to test what they are called after, the [typeof] of [test]. The
    three calls stand between debug pragmas: they are the code of a debug
    build. *)
Definition Check_typeOf (expected name : string) (test : value) : M unit :=
  if decide (typeof test = expected) then ret tt
  else throw (DeveloperError name).

(** Modelled from the spec: [Scene/JsonMetadataTable.js],
    [Scene/FeatureTable.js] and [Scene/FeatureMetadata.js] are not among
    the sources; the bundle of the spec's data model keeps what each
    constructor is given. *)
Record JsonMetadataTable := {
  jmt_count : value;
  jmt_properties : dict value
}.

Record FeatureTable := {
  ft_featureTable : FeatureTableJson;
  ft_class : option MetadataClass;
  ft_bufferViews : list (nat * View);
  ft_jsonMetadataTable : JsonMetadataTable;
  ft_batchTableHierarchy : option BatchTableHierarchy
}.

Record FeatureMetadata := {
  fm_schema : MetadataSchema;
  fm_featureTables : list (string * FeatureTable);
  fm_extensions : value;
  fm_extras : value
}.

Definition parseBatchTable (opts : options) : M FeatureMetadata :=
  do Check_typeOf "number" "options.count" (count opts) then
  do Check_typeOf "object" "options.batchTable" (batchTable opts) then
  do Check_typeOf "object" "options.binaryBody" (binaryBody opts) then
  let featureCount := count opts in
  let batchTable := batchTable opts in
  let binaryBody := binaryBody opts in
  let* partitionResults := partitionProperties batchTable in
  let jsonMetadataTable :=
    {| jmt_count := featureCount;
       jmt_properties := jsonProperties partitionResults |} in
  let* hierarchy :=
    initializeHierarchy (extensions partitionResults) binaryBody in
  let* binaryResults :=
    transcodeBinaryProperties featureCount
      (binaryProperties partitionResults) binaryBody in
  let featureTables :=
    [("_batchTable",
      {| ft_featureTable := featureTableJson binaryResults;
         ft_class := transcodedClass binaryResults;
         ft_bufferViews := bufferViewsU8 binaryResults;
         ft_jsonMetadataTable := jsonMetadataTable;
         ft_batchTableHierarchy := hierarchy |})] in
  ret {| fm_schema := transcodedSchema binaryResults;
         fm_featureTables := featureTables;
         fm_extensions := extensions partitionResults;
         fm_extras := extras partitionResults |}.
End Transcoder.

(** ** A binary accessor to run the transcoder with *)

(** Modelled from the spec: [Scene/getBinaryAccessor.js] is not among the
    sources. The spec treats the accessor as "a pure function of component
    type + property type" and the view as "a typed, non-owning window over a
    sub-range of a shared binary buffer": the view keeps the buffer it was
    given (the reference, not a copy), its first byte, its count of logical
    elements and the two tags of its property. *)
Record TypedView := {
  view_componentType : value;
  view_type : value;
  view_buffer : value;
  view_byteOffset : value;
  view_length : value
}.

Definition specBinaryAccessor (h : list object) (property : value)
  : outcome (@BinaryAccessor TypedView) :=
  match get_in h property "componentType", get_in h property "type" with
  | Ret componentType, Ret type =>
      Ret {| createArrayBufferView := fun _ buffer byteOffset length =>
               Ret {| view_componentType := componentType;
                      view_type := type;
                      view_buffer := buffer;
                      view_byteOffset := byteOffset;
                      view_length := length |} |}
  | Throw e, _ | Ret _, Throw e => Throw e
  | _, _ => Unmodelled
  end.

(** Modelled from the spec: [Scene/getBinaryAccessor.js] is not among the
    sources. The spec's binary property descriptor has its component type
    among the eight legacy tags and its type among SCALAR, VEC2, VEC3 and
    VEC4, and has the accessor a function of such a pair: this accessor is
    defined on those pairs and throws on any other. Its views are those of
    [specBinaryAccessor]. *)
Definition strictBinaryAccessor (h : list object) (property : value)
  : outcome (@BinaryAccessor TypedView) :=
  match get_in h property "componentType", get_in h property "type" with
  | Ret (VStr componentType), Ret (VStr type) =>
      if bool_decide (componentType ∈ map fst legacy_component_types)
         && bool_decide (type ∈ ["SCALAR"; "VEC2"; "VEC3"; "VEC4"])
      then specBinaryAccessor h property
      else Throw (DeveloperError "componentType")
  | Ret _, Ret _ => Throw (DeveloperError "componentType")
  | Throw e, _ | Ret _, Throw e => Throw e
  | _, _ => Unmodelled
  end.

(** ** Example inputs *)

Definition plain_object (l : list (string * value)) : object :=
  {| obj_class_of := ClsObject; own := l; inherited := [] |}.

Definition array_object (l : list (string * value)) : object :=
  {| obj_class_of := ClsArray; own := l; inherited := [] |}.

(** A binary body of fourteen bytes: two packed 32-bit floats, 1.5 and 2.5,
    then two colours of three bytes. *)
Definition body_bytes : list Byte.byte :=
  [Byte.x00; Byte.x00; Byte.xc0; Byte.x3f; Byte.x00; Byte.x00; Byte.x20;
   Byte.x40; Byte.xff; Byte.x00; Byte.x00; Byte.x00; Byte.xff; Byte.x00].

(** Location 0 is the binary body, a Uint8Array over the buffer at 1. *)
Definition body_objects : list object :=
  [ {| obj_class_of := ClsUint8Array 1 0 14; own := []; inherited := [] |};
    {| obj_class_of := ClsArrayBuffer body_bytes; own := []; inherited := [] |} ].

Definition store_of (objects : list object) : state :=
  {| heap := body_objects ++ objects; warnings := [] |}.

Definition options_of (n : Z) : options :=
  {| count := VNum (Int n); batchTable := VObj 2; binaryBody := VObj 0 |}.

Definition float_scalar (offset : Z) : object :=
  plain_object [("componentType", VStr "FLOAT"); ("type", VStr "SCALAR");
                ("byteOffset", VNum (Int offset))].

Definition byte_vec3 (offset : Z) : object :=
  plain_object [("componentType", VStr "UNSIGNED_BYTE"); ("type", VStr "VEC3");
                ("byteOffset", VNum (Int offset))].

(** The spec's scenario: [count = 2] and the batch table [{"height":
    {"componentType": "FLOAT", "type": "SCALAR", "byteOffset": 0}, "name":
    ["a", "b"]}]. *)
Module Scenario.
Definition store : state :=
  store_of
    [ plain_object [("height", VObj 3); ("name", VObj 4)];
      float_scalar 0;
      array_object [("0", VStr "a"); ("1", VStr "b")] ].

Definition height_class : MetadataClass :=
  {| class_properties :=
       {| d_own := [("height", {| td_type := VStr "FLOAT32";
                                  td_componentType := None;
                                  td_componentCount := None |})];
          d_proto := ProtoObject |} |}.

(** "bundle schema has one class with property [height: {type: FLOAT32}];
    feature table has one buffer view (slot 0) ...; the JSON-valued table
    exposes [name] ...; hierarchy is absent". *)
Definition bundle : @FeatureMetadata TypedView :=
  {| fm_schema := {| schema_classes := [("_batchTable", height_class)] |};
     fm_featureTables :=
       [("_batchTable",
         {| ft_featureTable :=
              {| ftj_class := "_batchTable";
                 ftj_count := VNum (Int 2);
                 ftj_properties :=
                   {| d_own := [("height", {| bufferView := 0 |})];
                      d_proto := ProtoObject |} |};
            ft_class := Some height_class;
            ft_bufferViews :=
              [(0%nat, {| view_componentType := VStr "FLOAT";
                          view_type := VStr "SCALAR";
                          view_buffer := VObj 1;
                          view_byteOffset := VNum (Int 0);
                          view_length := VNum (Int 2) |})];
            ft_jsonMetadataTable :=
              {| jmt_count := VNum (Int 2);
                 jmt_properties :=
                   {| d_own := [("name", VObj 4)];
                      d_proto := ProtoObject |} |};
            ft_batchTableHierarchy := None |})];
     fm_extensions := VUndefined;
     fm_extras := VUndefined |}.
End Scenario.

(** The same with a second binary property, [color]. *)
Module Example.
Definition store : state :=
  store_of
    [ plain_object [("height", VObj 3); ("name", VObj 4); ("color", VObj 5)];
      float_scalar 0;
      array_object [("0", VStr "a"); ("1", VStr "b")];
      byte_vec3 8 ].

Definition binary : dict value :=
  {| d_own := [("height", VObj 3); ("color", VObj 5)];
     d_proto := ProtoObject |}.
End Example.

(** A batch table with the legacy [HIERARCHY] and no extensions. *)
Module Legacy.
Definition store : state :=
  store_of
    [ plain_object [("HIERARCHY", VObj 3); ("name", VObj 4)];
      plain_object [("classes", VObj 4)];
      array_object [("0", VStr "a"); ("1", VStr "b")] ].
End Legacy.

(** The same with an extensions object that has an entry under the
    hierarchy key already, and another entry. *)
Module LegacyExtensions.
Definition table : object :=
  plain_object [("HIERARCHY", VObj 3); ("extensions", VObj 5);
                ("name", VObj 4)].

Definition given : object :=
  plain_object [("3DTILES_batch_table_hierarchy", VStr "old");
                ("vendor", VStr "kept")].

Definition store : state :=
  store_of
    [ table;
      plain_object [("classes", VObj 4)];
      array_object [("0", VStr "a"); ("1", VStr "b")];
      given ].
End LegacyExtensions.

(** [{"hasOwnProperty": [1]}]: a property named as the method the loop
    calls. *)
Module Shadowed.
Definition store : state :=
  store_of
    [ plain_object [("hasOwnProperty", VObj 3)];
      array_object [("0", VNum (Int 1))] ].
End Shadowed.

(** [{"__proto__": [1], "height": {...}}] as [JSON.parse] returns it, with
    [__proto__] an own property. *)
Module NamedProto.
Definition store : state :=
  store_of
    [ plain_object [("__proto__", VObj 3); ("height", VObj 4)];
      array_object [("0", VNum (Int 1))];
      float_scalar 0 ].
End NamedProto.

(** A property whose component type is none of the eight. *)
Module UnknownType.
Definition store : state :=
  store_of
    [ plain_object [("height", VObj 3)];
      plain_object [("componentType", VStr "HALF"); ("type", VStr "SCALAR");
                    ("byteOffset", VNum (Int 0))] ].
End UnknownType.

(** The binary properties of that batch table. *)
Definition unknown_binary : dict value :=
  {| d_own := [("height", VObj 3)]; d_proto := ProtoObject |}.

(** No batch table at all: null, whose [typeof] is "object". *)
Definition null_table_options : options :=
  {| count := VNum (Int 2); batchTable := VNull; binaryBody := VObj 0 |}.

(** No count: undefined. *)
Definition no_count_options : options :=
  {| count := VUndefined; batchTable := VObj 2; binaryBody := VObj 0 |}.

(** How [partitionProperties] ends: with the two objects its loop built, or
    as the loop ended. *)
Definition partition_result (extras extensions : value)
    (o : outcome (dict value * dict value)) : outcome partition :=
  match o with
  | Ret acc =>
      Ret {| binaryProperties := snd acc;
             jsonProperties := fst acc;
             extras := extras;
             extensions := extensions |}
  | Throw e => Throw e
  | Unmodelled => Unmodelled
  end.

(** The store and the warnings after the legacy hierarchy has been folded
    into the object at [e], which [o] describes before the assignment. *)
Definition folded (s : state) (e : loc) (o : object) (legacyHierarchy : value)
  : state :=
  {| heap :=
       <[e := with_own o
                (own_insert "3DTILES_batch_table_hierarchy" legacyHierarchy
                            (own o))]> (heap s);
     warnings := warnings s ++ [hierarchy_warning] |}.

(** The same when the extensions object had to be created. *)
Definition folded_new (s : state) (legacyHierarchy : value) : state :=
  {| heap :=
       heap s ++
       [{| obj_class_of := ClsObject;
           own := [("3DTILES_batch_table_hierarchy", legacyHierarchy)];
           inherited := [] |}];
     warnings := warnings s ++ [hierarchy_warning] |}.

(** The keys [partitionProperties] has handled before its loop. *)
Definition reserved (k : string) : bool :=
  bool_decide (k = "HIERARCHY")
  || bool_decide (k = "extensions")
  || bool_decide (k = "extras").

Definition is_array (h : list object) (v : value) : bool :=
  match v with
  | VObj l =>
      match h !! l with
      | Some o => match obj_class_of o with ClsArray => true | _ => false end
      | None => false
      end
  | _ => false
  end.

(** Where the spec sends the key [k] of the batch table [o]: nowhere when it
    is reserved or not an own key, and otherwise, with its value, to the JSON
    properties ([true]) when the value is an array and to the binary ones
    ([false]) when it is not. *)
Definition sort_of (h : list object) (o : object) (k : string)
  : option (bool * value) :=
  if reserved k then None
  else
    match assoc k (own o) with
    | Some v => Some (is_array h v, v)
    | None => None
    end.

(** What the partition into which [wanted] values go has under [k]. *)
Definition sorted_into (wanted : bool) (h : list object) (o : object)
    (k : string) : option value :=
  match sort_of h o k with
  | Some (b, v) => if Bool.eqb b wanted then Some v else None
  | None => None
  end.

(** The feature table of a bundle that has one. *)
Definition default_table {View} (bundle : @FeatureMetadata View)
  : option (@FeatureTable View) :=
  match fm_featureTables bundle with
  | [(_, table)] => Some table
  | _ => None
  end.

(** What a run returned, if it did. *)
Definition to_option {A} (o : outcome A) : option A :=
  match o with
  | Ret a => Some a
  | _ => None
  end.

(** [parseInt(tag.charAt(i))]: the decimal digit that is the code unit at
    position [i] of the tag, and NaN when the tag has fewer code units or
    another one there. *)
Definition digit_at (tag : string) (i : nat) : number :=
  match code_units tag !! i with
  | Some u => digit_value u
  | None => NaN
  end.

(** Properties with tags the batch table format does not have: a matrix,
    a tag cut short, no tag at all, a tag whose first character takes two
    bytes and one code unit, and a tag whose second character takes four
    bytes and two code units. *)
Module MatrixType.
Definition store : state :=
  store_of
    [ plain_object [("m", VObj 3); ("v", VObj 4); ("u", VObj 5)];
      plain_object [("componentType", VStr "FLOAT"); ("type", VStr "MAT4");
                    ("byteOffset", VNum (Int 0))];
      plain_object [("componentType", VStr "FLOAT"); ("type", VStr "VEC");
                    ("byteOffset", VNum (Int 0))];
      plain_object [("componentType", VStr "FLOAT");
                    ("byteOffset", VNum (Int 0))];
      plain_object [("componentType", VStr "FLOAT"); ("type", VStr "éab4");
                    ("byteOffset", VNum (Int 0))];
      plain_object [("componentType", VStr "FLOAT"); ("type", VStr "a😀2");
                    ("byteOffset", VNum (Int 0))] ].
End MatrixType.

(** A batch table whose [extensions] is no object: [{"HIERARCHY": {...},
    "extensions": true}]. *)
Module PrimitiveExtensions.
Definition store : state :=
  store_of
    [ plain_object [("HIERARCHY", VObj 3); ("extensions", VBool true)];
      plain_object [("classes", VObj 4)];
      array_object [] ].
End PrimitiveExtensions.

(** The state after the warning alone. *)
Definition warned (s : state) : state :=
  {| heap := heap s; warnings := warnings s ++ [hierarchy_warning] |}.

(** ** DynamicPoint *)

Module DynamicPoint.

(** What [createObservableProperty(name, privateName)] returns: the getter
    and the setter of an accessor property, each called on the object the
    property is read from or assigned to. *)
Record ObservableProperty := {
  op_get : value -> M value;
  op_set : value -> value -> M unit
}.

Section DynamicPoint.
(** [DynamicScene/createObservableProperty.js], [Core/defaultValue.js] and
    [Core/Event.js] are not among the sources: the accessors, the choice
    between a value and its fallback, and the construction of an event are
    parameters. [defaultValue] is taken to be a function of its two
    arguments. *)
Variable createObservableProperty : string -> string -> ObservableProperty.
Variable defaultValue : value -> value -> value.
Variable new_Event : M value.

(** The five properties [defineProperties] puts on the prototype, each with
    its private name. A read or an assignment of one of them on a
    DynamicPoint reaches its accessor; [clone] and [merge] are documented to
    work on DynamicPoint instances, and [this], [result] and [source] are
    taken to be such. *)
Definition color := createObservableProperty "color" "_color".
Definition pixelSize := createObservableProperty "pixelSize" "_pixelSize".
Definition outlineColor :=
  createObservableProperty "outlineColor" "_outlineColor".
Definition outlineWidth :=
  createObservableProperty "outlineWidth" "_outlineWidth".
Definition show := createObservableProperty "show" "_show".

(** [new DynamicPoint()]: the constructor assigns the private fields of the
    new object. The methods its prototype carries are not listed with the
    object: nothing here enumerates a point or reads them. *)
Definition constructor : M value :=
  let* this := new_object in
  do put this "_color" VUndefined then
  do put this "_pixelSize" VUndefined then
  do put this "_outlineColor" VUndefined then
  do put this "_outlineWidth" VUndefined then
  do put this "_show" VUndefined then
  let* event := new_Event in
  do put this "_propertyChanged" event then
  ret this.

Definition clone (this result : value) : M value :=
  let* result :=
    if negb (defined result) then constructor else ret result in
  let* v := op_get color this in
  do op_set color result v then
  let* v := op_get pixelSize this in
  do op_set pixelSize result v then
  let* v := op_get outlineColor this in
  do op_set outlineColor result v then
  let* v := op_get outlineWidth this in
  do op_set outlineWidth result v then
  let* v := op_get show this in
  do op_set show result v then
  ret result.

Definition merge (this source : value) : M unit :=
  if negb (defined source) then throw (DeveloperError "source is required.")
  else
    let* mine := op_get color this in
    let* theirs := op_get color source in
    do op_set color this (defaultValue mine theirs) then
    let* mine := op_get pixelSize this in
    let* theirs := op_get pixelSize source in
    do op_set pixelSize this (defaultValue mine theirs) then
    let* mine := op_get outlineColor this in
    let* theirs := op_get outlineColor source in
    do op_set outlineColor this (defaultValue mine theirs) then
    let* mine := op_get outlineWidth this in
    let* theirs := op_get outlineWidth source in
    do op_set outlineWidth this (defaultValue mine theirs) then
    let* mine := op_get show this in
    let* theirs := op_get show source in
    do op_set show this (defaultValue mine theirs) then
    ret tt.

(** The five properties by name. *)
Definition names : list (string * string) :=
  [("color", "_color"); ("pixelSize", "_pixelSize");
   ("outlineColor", "_outlineColor"); ("outlineWidth", "_outlineWidth");
   ("show", "_show")].

Definition property (p : string * string) : ObservableProperty :=
  createObservableProperty (fst p) (snd p).

(** The object [x] reads [v] under the property [p] in the state [s], and
    the read changes nothing. *)
Definition reads (p : string * string) (x : value) (s : state) (v : value)
  : Prop :=
  op_get (property p) x s = (Ret v, s).

(** The accessors behave as slots: a property that can be read can be
    assigned; it then reads as assigned, and every other property of every
    object reads as it did. Whatever the listeners of the event do is within
    these bounds. *)
Definition slots : Prop :=
  forall p x v s,
    p ∈ names ->
    (exists old, reads p x s old) ->
    exists s',
      op_set (property p) x v s = (Ret tt, s') /\
      reads p x s' v /\
      forall q y w,
        q ∈ names -> (q, y) <> (p, x) -> reads q y s w -> reads q y s' w.

(** The constructor returns a new object: one whose five properties can be
    read now and none of which could be read before. It leaves the
    properties of the objects there were as they read. *)
Definition constructs : Prop :=
  forall s,
    exists point s',
      constructor s = (Ret point, s') /\
      (forall p, p ∈ names -> exists v, reads p point s' v) /\
      (forall p v, p ∈ names -> ~ reads p point s v) /\
      forall q y w, q ∈ names -> reads q y s w -> reads q y s' w.

(** Where [clone] stands after the properties in [done]: [this] reads as
    it did, [target] can be read and has the properties copied so far, and
    the other objects read as in [s0]. *)
Definition copied (this target : value) (vs : string * string -> value)
    (s0 : state) (done : list (string * string)) (s : state) : Prop :=
  (forall p, p ∈ names -> reads p this s (vs p)) /\
  (forall p, p ∈ names -> exists v, reads p target s v) /\
  (forall p, p ∈ names -> p ∈ done -> reads p target s (vs p)) /\
  (forall q y w, q ∈ names -> y <> target -> reads q y s0 w -> reads q y s w).

(** Where [merge] stands after the properties in [done]. *)
Definition merged (this source : value) (ts ss : string * string -> value)
    (s0 : state) (done : list (string * string)) (s : state) : Prop :=
  (forall p, p ∈ names -> p ∉ done ->
     reads p this s (ts p) /\ reads p source s (ss p)) /\
  (forall p, p ∈ names -> p ∈ done ->
     reads p this s (defaultValue (ts p) (ss p))) /\
  (forall q y w, q ∈ names -> y <> this -> reads q y s0 w -> reads q y s w).
End DynamicPoint.

(** Modelled from the spec: [DynamicScene/createObservableProperty.js] and
    [Core/Event.js] are not among the sources; the spec has the container "a
    trivial get/set/clone/merge wrapper". The accessor here reads and writes
    the private field of a stored object and has no listeners; an event is a
    new object. *)
Definition field_property (name privateName : string) : ObservableProperty :=
  {| op_get := fun x =>
       match x with
       | VObj _ => get x privateName
       | _ => unmodelled
       end;
     op_set := fun x v =>
       match x with
       | VObj _ => put x privateName v
       | _ => unmodelled
       end |}.

(** Modelled from the spec: [Core/defaultValue.js] is not among the sources;
    the first value unless it is undefined, as [merge] is documented to
    assign "each unassigned property". *)
Definition first_assigned (a b : value) : value :=
  if decide (a = VUndefined) then b else a.

(** Two points: one red and hidden, one blue of size 4. *)
Definition red_point : object :=
  plain_object [("_color", VStr "red"); ("_pixelSize", VUndefined);
                ("_outlineColor", VUndefined); ("_outlineWidth", VUndefined);
                ("_show", VBool false); ("_propertyChanged", VObj 2)].

Definition blue_point : object :=
  plain_object [("_color", VStr "blue"); ("_pixelSize", VNum (Int 4));
                ("_outlineColor", VUndefined); ("_outlineWidth", VUndefined);
                ("_show", VUndefined); ("_propertyChanged", VObj 3)].

Definition points : state :=
  {| heap := [red_point; blue_point; plain_object []; plain_object []];
     warnings := [] |}.

End DynamicPoint.

(** ** Batch tables as a parser hands them over *)

(** The batch table at [b] is an ordinary object [o] on which
    [hasOwnProperty] is the built-in, and the objects among its own values
    are stored. *)
Definition ordinary_table (s : state) (b : loc) (o : object) : Prop :=
  heap s !! b = Some o /\
  obj_class_of o = ClsObject /\
  hides_hasOwnProperty o = false /\
  (forall k l, assoc k (own o) = Some (VObj l) -> is_Some (heap s !! l)).

(** When it has a legacy HIERARCHY, its [extensions] are absent or another
    stored object. *)
Definition foldable (s : state) (b : loc) (o : object) : Prop :=
  defined (object_get o "HIERARCHY") = true ->
  match object_get o "extensions" with
  | VUndefined | VNull => True
  | VObj e => e <> b /\ is_Some (heap s !! e)
  | _ => False
  end.

Section Views.
Context {View : Type}.

(** Two views over the same byte range: each is what an accessor's
    [createArrayBufferView] made of a buffer, from the same byte offset and
    for the same count. The buffers need not be the same object. *)
Definition same_range (h : list object) (v : View) (h' : list object)
    (v' : View) (n : value) : Prop :=
  exists (accessor accessor' : @BinaryAccessor View)
         (buffer buffer' byteOffset : value),
    createArrayBufferView accessor h buffer byteOffset n = Ret v /\
    createArrayBufferView accessor' h' buffer' byteOffset n = Ret v'.

(** Two lists of views with the same slots and, slot by slot, the same
    byte range. *)
Definition same_slots (h : list object) (views : list (nat * View))
    (h' : list object) (views' : list (nat * View)) (n : value) : Prop :=
  Forall2 (fun e e' =>
             fst e = fst e' /\ same_range h (snd e) h' (snd e') n)
          views views'.
End Views.

(** The input of [Example] once more, every object at another place and
    the bytes in a buffer of their own. *)
Module Moved.
Definition table : object :=
  plain_object [("height", VObj 0); ("name", VObj 2); ("color", VObj 1)].

Definition store : state :=
  {| heap :=
       [ float_scalar 0;
         byte_vec3 8;
         array_object [("0", VStr "a"); ("1", VStr "b")];
         table;
         {| obj_class_of := ClsUint8Array 5 0 14; own := [];
            inherited := [] |};
         {| obj_class_of := ClsArrayBuffer body_bytes; own := [];
            inherited := [] |} ];
     warnings := [] |}.

Definition options : options :=
  {| count := VNum (Int 2); batchTable := VObj 3; binaryBody := VObj 4 |}.
End Moved.

(** The order in which the language enumerates own keys: array indices
    first, ascending, then the other keys as they were added. *)
Definition js_before (k1 k2 : string) : bool :=
  match array_index k1, array_index k2 with
  | Some a, Some b => (a <? b)%N
  | Some _, None => true
  | None, Some _ => false
  | None, None => true
  end.

Fixpoint js_ordered (ks : list string) : bool :=
  match ks with
  | [] => true
  | k :: ks' => forallb (js_before k) ks' && js_ordered ks'
  end.

(** A batch table as a parser builds it: ordinary, with distinct own keys
    in enumeration order and none of them [__proto__]. *)
Definition parsed_table (s : state) (b : loc) (o : object) : Prop :=
  ordinary_table s b o /\
  foldable s b o /\
  NoDup (keys (own o)) /\
  js_ordered (keys (own o)) = true /\
  ("__proto__" ∉ keys (own o)).

(** An object the program built with distinct keys, none of them
    [__proto__] or [hasOwnProperty], and the prototype it began with. *)
Definition plain_dict {A} (d : dict A) : Prop :=
  NoDup (keys (d_own d)) /\
  ("__proto__" ∉ keys (d_own d)) /\
  d_proto d = ProtoObject /\
  assoc "hasOwnProperty" (d_own d) = None.

(** One store keeps the objects of another: each is still there with its
    class, its inherited properties and its own ones, but for what it has
    under the hierarchy key. *)
Definition keeps_objects (h h' : list object) : Prop :=
  forall l x,
    h !! l = Some x ->
    exists x',
      h' !! l = Some x' /\
      obj_class_of x' = obj_class_of x /\
      inherited x' = inherited x /\
      forall k, k <> "3DTILES_batch_table_hierarchy" ->
                assoc k (own x') = assoc k (own x).

(** Two property values, each in its store, that the transcoder cannot
    tell apart: both arrays or neither, and the same component type, type
    and byte offset. *)
Definition same_property (h : list object) (v : value)
    (h' : list object) (v' : value) : Prop :=
  is_array h v = is_array h' v' /\
  get_in h v "componentType" = get_in h' v' "componentType" /\
  get_in h v "type" = get_in h' v' "type" /\
  get_in h v "byteOffset" = get_in h' v' "byteOffset".

(** Two binary bodies, each in its store, that start at the same byte of
    their buffers. The buffers may be different objects; their bytes are
    never read. *)
Definition same_body (h : list object) (body : value)
    (h' : list object) (body' : value) : Prop :=
  get_in h body "byteOffset" = get_in h' body' "byteOffset" /\
  (forall l, body = VObj l -> is_Some (h !! l)) /\
  (forall l, body' = VObj l -> is_Some (h' !! l)).

(** Two batch tables with the same descriptor: the same own keys in the
    same order, and under each key the same property. *)
Definition same_table (h : list object) (o : object)
    (h' : list object) (o' : object) : Prop :=
  Forall2 (fun e e' => fst e = fst e' /\ same_property h (snd e) h' (snd e'))
          (own o) (own o').

(** The entries of a list of own properties that belong in the partition for
    [wanted] values, in the order of the list. *)
Definition sorted_entry (wanted : bool) (h : list object)
    (e : string * value) : option (string * value) :=
  if reserved (fst e) || bool_decide (fst e = "__proto__") then None
  else if Bool.eqb (is_array h (snd e)) wanted then Some e
  else None.

Definition sorted_entries (wanted : bool) (h : list object)
    (l : list (string * value)) : list (string * value) :=
  omap (sorted_entry wanted h) l.

(** A batch table whose keys include array indices:
    [{"1": [...], "2": {...}, "b": {...}, "a": [...]}]. *)
Module Indexed.
Definition table : object :=
  plain_object [("1", VObj 4); ("2", VObj 3); ("b", VObj 5); ("a", VObj 4)].

Definition store : state :=
  store_of
    [ table;
      float_scalar 0;
      array_object [("0", VStr "a"); ("1", VStr "b")];
      byte_vec3 8 ].
End Indexed.

(** * Properties *)

(** ** Running a computation *)

Lemma bind_run {A B} (m : M A) (f : A -> M B) s a s' :
  m s = (Ret a, s') -> bind m f s = f a s'.
Proof. unfold bind. intros ->. reflexivity. Qed.

Lemma bind_ret_inv {A B} (m : M A) (f : A -> M B) s b s' :
  bind m f s = (Ret b, s') ->
  exists a s1, m s = (Ret a, s1) /\ f a s1 = (Ret b, s').
Proof.
  unfold bind. destruct (m s) as [[a|e|] s1]; intros H; try discriminate.
  exists a, s1. split; [reflexivity | exact H].
Qed.

(** A computation keeps the state when it ends, however it ends, in the
    state it started from. *)
Definition keeps {A} (m : M A) : Prop := forall s, snd (m s) = s.

Lemma keeps_ret {A} (a : A) : keeps (ret a).
Proof. intros s. reflexivity. Qed.

Lemma keeps_throw {A} e : keeps (@throw A e).
Proof. intros s. reflexivity. Qed.

Lemma keeps_unmodelled {A} : keeps (@unmodelled A).
Proof. intros s. reflexivity. Qed.

Lemma keeps_read {A} (f : list object -> outcome A) : keeps (read f).
Proof. intros s. reflexivity. Qed.

Lemma keeps_bind {A B} (m : M A) (f : A -> M B) :
  keeps m -> (forall a, keeps (f a)) -> keeps (bind m f).
Proof.
  intros Hm Hf s. unfold bind. specialize (Hm s).
  destruct (m s) as [[a|e|] s1]; simpl in *; subst; auto. apply Hf.
Qed.

Lemma keeps_for_each {K S} (ks : list K) (body : K -> S -> M S) acc :
  (forall k a, keeps (body k a)) -> keeps (for_each ks body acc).
Proof.
  intros Hb. revert acc.
  induction ks as [|k ks IH]; intros acc; simpl.
  - apply keeps_ret.
  - apply keeps_bind; [apply Hb | intros a; apply IH].
Qed.

Lemma keeps_run {A} (m : M A) s :
  keeps m -> m s = (fst (m s), s).
Proof. intros H. specialize (H s). destruct (m s); simpl in *. congruence. Qed.

(** One store extends another when every object of the first is still
    there, unchanged. *)
Definition extends (h h' : list object) : Prop :=
  forall l o, h !! l = Some o -> h' !! l = Some o.

Lemma extends_refl h : extends h h.
Proof. intros l o H. exact H. Qed.

Lemma extends_app h h' : extends h (h ++ h').
Proof. intros l o H. apply lookup_app_l_Some. exact H. Qed.

(** A computation is stable when a result it returns is still its result
    in every extension of the store. *)
Definition stable {A} (m : M A) : Prop :=
  forall s s' a,
    extends (heap s) (heap s') -> fst (m s) = Ret a -> fst (m s') = Ret a.

Definition monotone {A} (f : list object -> outcome A) : Prop :=
  forall h h' a, extends h h' -> f h = Ret a -> f h' = Ret a.

Lemma stable_ret {A} (a : A) : stable (ret a).
Proof. intros s s' b _ H. exact H. Qed.

Lemma stable_throw {A} e : stable (@throw A e).
Proof. intros s s' b _ H. discriminate H. Qed.

Lemma stable_unmodelled {A} : stable (@unmodelled A).
Proof. intros s s' b _ H. discriminate H. Qed.

Lemma stable_read {A} (f : list object -> outcome A) :
  monotone f -> stable (read f).
Proof. intros Hf s s' a He H. simpl in *. eapply Hf; eauto. Qed.

Lemma stable_bind {A B} (m : M A) (f : A -> M B) :
  keeps m -> stable m -> (forall a, stable (f a)) -> stable (bind m f).
Proof.
  intros Hk Hm Hf s s' b He. unfold bind.
  pose proof (Hk s) as Hs. pose proof (Hk s') as Hs'.
  pose proof (Hm s s') as Hm'.
  destruct (m s) as [[a|e|] s1]; simpl in *; try discriminate.
  subst s1. specialize (Hm' a He eq_refl).
  destruct (m s') as [o s1']; simpl in *. subst o s1'.
  apply Hf. exact He.
Qed.

Lemma stable_for_each {K S} (ks : list K) (body : K -> S -> M S) acc :
  (forall k a, keeps (body k a)) -> (forall k a, stable (body k a)) ->
  stable (for_each ks body acc).
Proof.
  intros Hk Hb. revert acc.
  induction ks as [|k ks IH]; intros acc; simpl.
  - apply stable_ret.
  - apply stable_bind; [apply Hk | apply Hb | intros a; apply IH].
Qed.

Lemma stable_run {A} (m : M A) s s' a :
  keeps m -> stable m -> extends (heap s) (heap s') ->
  m s = (Ret a, s) -> m s' = (Ret a, s').
Proof.
  intros Hk Hs He H. rewrite (keeps_run m s' Hk). f_equal.
  eapply Hs; [exact He | rewrite H; reflexivity].
Qed.

(** ** The operations that only read *)

Create HintDb reads.

Ltac reads_step keeps_lemmas :=
  first
    [ apply keeps_ret | apply keeps_throw | apply keeps_unmodelled
    | apply keeps_read
    | apply keeps_bind; [ | intros ? ]
    | apply keeps_for_each; intros ? ?
    | apply stable_ret | apply stable_throw | apply stable_unmodelled
    | apply stable_bind; [ | | intros ? ]
    | apply stable_for_each; intros ? ?
    | match goal with
      | |- keeps (match ?x with _ => _ end) => destruct x
      | |- stable (match ?x with _ => _ end) => destruct x
      end
    | solve [ eauto with reads ] ].

Ltac reads := repeat (reads_step idtac).

Ltac monotone_lookup :=
  intros h h' a He H; unfold extends in He;
  repeat match goal with
         | H : context [match ?x with _ => _ end] |- _ =>
             first
               [ is_var x; destruct x; try discriminate H
               | let E := fresh "E" in
                 destruct x eqn:E; [ rewrite (He _ _ E) | discriminate H ]
               | destruct x eqn:?; try discriminate H ]
         end;
  try exact H.

Lemma monotone_get_in v k : monotone (fun h => get_in h v k).
Proof. unfold get_in. monotone_lookup. Qed.

Lemma keeps_get v k : keeps (get v k).
Proof. apply keeps_read. Qed.

Lemma stable_get v k : stable (get v k).
Proof. apply stable_read, monotone_get_in. Qed.

Lemma keeps_isArray v : keeps (isArray v).
Proof. apply keeps_read. Qed.

Lemma stable_isArray v : stable (isArray v).
Proof. apply stable_read. monotone_lookup. Qed.

Lemma keeps_for_in_keys v : keeps (for_in_keys v).
Proof. apply keeps_read. Qed.

Lemma stable_for_in_keys v : stable (for_in_keys v).
Proof. apply stable_read. monotone_lookup. Qed.

Lemma keeps_hasOwnProperty v k : keeps (hasOwnProperty v k).
Proof. apply keeps_read. Qed.

Lemma stable_hasOwnProperty v k : stable (hasOwnProperty v k).
Proof. apply stable_read. monotone_lookup. Qed.

Lemma keeps_dict_hasOwnProperty d k : keeps (dict_hasOwnProperty d k).
Proof. apply keeps_read. Qed.

Lemma stable_dict_hasOwnProperty d k : stable (dict_hasOwnProperty d k).
Proof.
  apply stable_read. intros h h' a He H.
  destruct (bool_decide (is_Some (assoc "hasOwnProperty" (d_own d))));
    [exact H|].
  destruct (d_proto d) as [| |[]]; try exact H.
  destruct (h !! l) eqn:E; [rewrite (He _ _ E); exact H | discriminate H].
Qed.

#[export] Hint Resolve keeps_get stable_get keeps_isArray stable_isArray
  keeps_for_in_keys stable_for_in_keys keeps_hasOwnProperty
  stable_hasOwnProperty keeps_dict_hasOwnProperty stable_dict_hasOwnProperty
  : reads.

Lemma keeps_dict_set {A} `{JsKind A} (d : dict A) k a : keeps (dict_set d k a).
Proof. unfold dict_set. reads. Qed.

Lemma stable_dict_set {A} `{JsKind A} (d : dict A) k a : stable (dict_set d k a).
Proof. unfold dict_set. reads. Qed.

Lemma keeps_dict_for_in_keys d : keeps (dict_for_in_keys d).
Proof. unfold dict_for_in_keys. reads. Qed.

Lemma stable_dict_for_in_keys d : stable (dict_for_in_keys d).
Proof. unfold dict_for_in_keys. reads. Qed.

Lemma keeps_dict_get d k : keeps (dict_get d k).
Proof. unfold dict_get. reads. Qed.

Lemma stable_dict_get d k : stable (dict_get d k).
Proof. unfold dict_get. reads. Qed.

Lemma keeps_charAt v i : keeps (charAt v i).
Proof. unfold charAt. reads. Qed.

Lemma stable_charAt v i : stable (charAt v i).
Proof. unfold charAt. reads. Qed.

Lemma keeps_parseInt s : keeps (parseInt s).
Proof. unfold parseInt. reads. Qed.

Lemma stable_parseInt s : stable (parseInt s).
Proof. unfold parseInt. reads. Qed.

Lemma keeps_js_add a b : keeps (js_add a b).
Proof. unfold js_add. reads. Qed.

Lemma stable_js_add a b : stable (js_add a b).
Proof. unfold js_add. reads. Qed.

#[export] Hint Resolve keeps_dict_set stable_dict_set keeps_dict_for_in_keys
  stable_dict_for_in_keys keeps_dict_get stable_dict_get keeps_charAt
  stable_charAt keeps_parseInt stable_parseInt keeps_js_add stable_js_add
  : reads.

Lemma keeps_transcodePropertyType p : keeps (transcodePropertyType p).
Proof. unfold transcodePropertyType. reads. Qed.

Lemma stable_transcodePropertyType p : stable (transcodePropertyType p).
Proof. unfold transcodePropertyType. reads. Qed.

Lemma keeps_partition_step bt k acc : keeps (partition_step bt k acc).
Proof. unfold partition_step. destruct acc. reads. Qed.

Lemma stable_partition_step bt k acc : stable (partition_step bt k acc).
Proof. unfold partition_step. destruct acc. reads. Qed.

#[export] Hint Resolve keeps_transcodePropertyType
  stable_transcodePropertyType keeps_partition_step stable_partition_step
  : reads.

Lemma keeps_partition_loop bt : keeps (partition_loop bt).
Proof. unfold partition_loop. reads. Qed.

Lemma stable_partition_loop bt : stable (partition_loop bt).
Proof. unfold partition_loop. reads. Qed.

#[export] Hint Resolve keeps_partition_loop stable_partition_loop : reads.

(** ** The type mapper *)

Lemma get_run v k s : get v k s = (get_in (heap s) v k, s).
Proof. reflexivity. Qed.

Lemma parseInt_short c s :
  (List.length c <= 1)%nat -> exists n, parseInt c s = (Ret n, s).
Proof.
  destruct c as [|a [|b c]]; simpl; intros H; eauto. lia.
Qed.

(** [transcodeComponentType] maps the eight legacy tags as the table says
    and every other value to undefined; it is a function of its argument
    alone, so nothing is reported. With such a component type
    [transcodePropertyType] does not fail: it returns a descriptor whose
    type field (SCALAR) or component-type field (otherwise) is undefined. *)
Lemma transcodeComponentType_cases :
  (forall v,
     transcodeComponentType v =
     match v with
     | VStr tag =>
         match assoc tag legacy_component_types with
         | Some target => VStr target
         | None => VUndefined
         end
     | _ => VUndefined
     end) /\
  (forall property s componentType type,
     get property "componentType" s = (Ret componentType, s) ->
     get property "type" s = (Ret (VStr type), s) ->
     transcodeComponentType componentType = VUndefined ->
     exists d,
       transcodePropertyType property s = (Ret d, s) /\
       if decide (type = "SCALAR")
       then d = {| td_type := VUndefined;
                   td_componentType := None;
                   td_componentCount := None |}
       else td_type d = VStr "ARRAY" /\ td_componentType d = Some VUndefined).
Proof.
  split.
  - intros v. unfold transcodeComponentType, legacy_component_types.
    destruct v as [| | | |tag|]; try reflexivity.
    simpl. repeat (destruct (decide (tag = _)) as [->|?];
      [reflexivity | rewrite decide_False by congruence]).
    reflexivity.
  - intros property s componentType type Hc Ht Hu.
    unfold transcodePropertyType.
    rewrite (bind_run _ _ _ _ _ Hc), (bind_run _ _ _ _ _ Ht), Hu.
    destruct (decide (type = "SCALAR")) as [->|Hn].
    + rewrite decide_True by reflexivity. eexists. split; reflexivity.
    + rewrite decide_False by congruence.
      destruct (parseInt_short
                  (match code_units type !! 3%nat with
                   | Some u => [u]
                   | None => []
                   end) s) as [n Hn'].
      { destruct (code_units type !! 3%nat); simpl; lia. }
      eexists. split.
      * unfold bind at 1. simpl. rewrite (bind_run _ _ _ _ _ Hn').
        reflexivity.
      * split; reflexivity.
Qed.

(** C4. For a property whose legacy type is SCALAR the descriptor is
    [{type: mappedComponentType}], with no component count; for VEC2, VEC3
    and VEC4 it is [{type: ARRAY, componentType: mappedComponentType,
    componentCount: n}] with n the digit that ends the tag. *)
Theorem transcodePropertyType_descriptor property s componentType type :
  get property "componentType" s = (Ret componentType, s) ->
  get property "type" s = (Ret (VStr type), s) ->
  (type = "SCALAR" ->
   transcodePropertyType property s =
   (Ret {| td_type := transcodeComponentType componentType;
           td_componentType := None;
           td_componentCount := None |}, s)) /\
  (forall n,
     In (type, n) [("VEC2", 2); ("VEC3", 3); ("VEC4", 4)] ->
     transcodePropertyType property s =
     (Ret {| td_type := VStr "ARRAY";
             td_componentType := Some (transcodeComponentType componentType);
             td_componentCount := Some (Int n) |}, s)).
Proof.
  intros Hc Ht. unfold transcodePropertyType.
  rewrite (bind_run _ _ _ _ _ Hc), (bind_run _ _ _ _ _ Ht).
  split.
  - intros ->. reflexivity.
  - intros n Hn. simpl in Hn.
    destruct Hn as [Hn|[Hn|[Hn|[]]]]; injection Hn as <- <-; reflexivity.
Qed.

(** ** Folding the legacy hierarchy *)

Lemma bind_keeps_ret {A B} (m : M A) (g : A -> B) s :
  keeps m ->
  bind m (fun a => ret (g a)) s =
  (match fst (m s) with
   | Ret a => Ret (g a)
   | Throw e => Throw e
   | Unmodelled => Unmodelled
   end, s).
Proof.
  intros Hk. unfold bind. rewrite (keeps_run m s Hk).
  destruct (fst (m s)); reflexivity.
Qed.

Lemma partition_loop_result bt extras extensions s :
  bind (partition_loop bt)
       (fun acc => ret {| binaryProperties := snd acc;
                          jsonProperties := fst acc;
                          extras := extras;
                          extensions := extensions |}) s =
  (partition_result extras extensions (fst (partition_loop bt s)), s).
Proof.
  rewrite bind_keeps_ret by apply keeps_partition_loop.
  unfold partition_result. destruct (fst (partition_loop bt s)); reflexivity.
Qed.

Lemma hierarchy_key_ordinary c :
  exotic_key c "3DTILES_batch_table_hierarchy" = false.
Proof. destruct c; reflexivity. Qed.

(** Without a legacy hierarchy nothing is written. *)
Lemma partitionProperties_plain bt s legacy extras0 ev :
  get bt "HIERARCHY" s = (Ret legacy, s) ->
  get bt "extras" s = (Ret extras0, s) ->
  get bt "extensions" s = (Ret ev, s) ->
  defined legacy = false ->
  partitionProperties bt s =
  (partition_result extras0 ev (fst (partition_loop bt s)), s).
Proof.
  intros Hl Hx He Hd. unfold partitionProperties.
  rewrite (bind_run _ _ _ _ _ Hl), (bind_run _ _ _ _ _ Hx),
    (bind_run _ _ _ _ _ He), Hd.
  unfold bind at 1. simpl. apply partition_loop_result.
Qed.

Lemma new_object_run s :
  new_object s =
  (Ret (VObj (List.length (heap s))),
   {| heap :=
        heap s ++ [{| obj_class_of := ClsObject; own := []; inherited := [] |}];
      warnings := warnings s |}).
Proof. reflexivity. Qed.

Lemma put_run l k x s o :
  heap s !! l = Some o ->
  exotic_key (obj_class_of o) k = false ->
  put (VObj l) k x s =
  (Ret tt,
   {| heap := <[l := with_own o (own_insert k x (own o))]> (heap s);
      warnings := warnings s |}).
Proof.
  intros Hl Hk. unfold put, bind, get_heap. rewrite Hl, Hk. reflexivity.
Qed.

(** With one and no extensions object, a new object receives it. *)
Lemma partitionProperties_new bt s legacy extras0 ev :
  get bt "HIERARCHY" s = (Ret legacy, s) ->
  get bt "extras" s = (Ret extras0, s) ->
  get bt "extensions" s = (Ret ev, s) ->
  defined legacy = true ->
  defined ev = false ->
  partitionProperties bt s =
  (partition_result extras0 (VObj (List.length (heap s)))
     (fst (partition_loop bt (folded_new s legacy))),
   folded_new s legacy).
Proof.
  intros Hl Hx He Hd Hn. unfold partitionProperties.
  rewrite (bind_run _ _ _ _ _ Hl), (bind_run _ _ _ _ _ Hx),
    (bind_run _ _ _ _ _ He), Hd, Hn.
  erewrite bind_run; [apply partition_loop_result|].
  erewrite bind_run by reflexivity.
  erewrite bind_run by apply new_object_run.
  erewrite bind_run.
  2:{ eapply put_run; [|apply hierarchy_key_ordinary].
      simpl. rewrite lookup_app_r by lia. rewrite Nat.sub_diag. reflexivity. }
  unfold ret, folded_new. simpl. do 2 f_equal.
  rewrite insert_app_r_alt by lia. rewrite Nat.sub_diag. reflexivity.
Qed.

(** With one and an extensions object, that object receives it. *)
Lemma partitionProperties_existing bt s legacy extras0 e o :
  get bt "HIERARCHY" s = (Ret legacy, s) ->
  get bt "extras" s = (Ret extras0, s) ->
  get bt "extensions" s = (Ret (VObj e), s) ->
  defined legacy = true ->
  heap s !! e = Some o ->
  partitionProperties bt s =
  (partition_result extras0 (VObj e)
     (fst (partition_loop bt (folded s e o legacy))),
   folded s e o legacy).
Proof.
  intros Hl Hx He Hd Ho. unfold partitionProperties.
  rewrite (bind_run _ _ _ _ _ Hl), (bind_run _ _ _ _ _ Hx),
    (bind_run _ _ _ _ _ He), Hd.
  erewrite bind_run; [apply partition_loop_result|].
  erewrite bind_run by reflexivity.
  simpl. erewrite bind_run by reflexivity.
  erewrite bind_run.
  2:{ eapply put_run; [exact Ho | apply hierarchy_key_ordinary]. }
  reflexivity.
Qed.

(** ** Own properties *)

Section AssocFacts.
Context {A : Type}.
Implicit Types (l : list (string * A)) (k : string) (a : A).

Lemma assoc_app l1 l2 k :
  assoc k (l1 ++ l2) =
  match assoc k l1 with Some a => Some a | None => assoc k l2 end.
Proof.
  induction l1 as [|[k1 a1] l1 IH]; simpl; [reflexivity|].
  destruct (decide (k = k1)); [reflexivity | exact IH].
Qed.

Lemma assoc_None l k : assoc k l = None <-> k ∉ keys l.
Proof.
  induction l as [|[k1 a1] l IH]; simpl.
  - split; [intros _; apply not_elem_of_nil | reflexivity].
  - rewrite not_elem_of_cons. destruct (decide (k = k1)) as [->|Hne].
    + split; [discriminate | intros [[] _]; reflexivity].
    + rewrite IH. tauto.
Qed.

Lemma assoc_Some_elem l k a : assoc k l = Some a -> (k, a) ∈ l.
Proof.
  induction l as [|[k1 a1] l IH]; simpl; [discriminate|].
  destruct (decide (k = k1)) as [->|Hne].
  - intros [= ->]. apply elem_of_cons. left. reflexivity.
  - intros H. apply elem_of_cons. right. apply IH, H.
Qed.

Lemma assoc_is_Some l k : is_Some (assoc k l) <-> k ∈ keys l.
Proof.
  destruct (assoc k l) eqn:E.
  - split; [intros _ | eauto].
    apply assoc_Some_elem in E. unfold keys.
    apply list_elem_of_fmap. exists (k, a). split; [reflexivity | exact E].
  - apply assoc_None in E. split; [intros [? [=]] | tauto].
Qed.

Lemma assoc_lookup l i k a :
  NoDup (keys l) -> l !! i = Some (k, a) -> assoc k l = Some a.
Proof.
  revert i. induction l as [|[k1 a1] l IH]; intros i Hnd Hi;
    [discriminate|].
  simpl in Hnd. apply NoDup_cons in Hnd as [Hk1 Hnd].
  destruct i as [|i]; simpl in *.
  - injection Hi as -> ->. rewrite decide_True by reflexivity. reflexivity.
  - destruct (decide (k = k1)) as [->|Hne].
    + exfalso. apply Hk1. unfold keys. apply list_elem_of_fmap.
      exists (k1, a). split; [reflexivity|].
      apply list_elem_of_lookup. eauto.
    + eapply IH; eauto.
Qed.

Lemma assoc_replace_value l k k' a :
  assoc k' (replace_value k a l) =
  if decide (k' = k) then (if assoc k l is Some _ then Some a else None)
  else assoc k' l.
Proof.
  induction l as [|[k1 a1] l IH]; simpl.
  - destruct (decide (k' = k)); reflexivity.
  - destruct (decide (k = k1)) as [->|Hne]; simpl.
    + destruct (decide (k' = k1)); reflexivity.
    + destruct (decide (k' = k1)) as [->|Hne'].
      * rewrite decide_False by congruence. reflexivity.
      * exact IH.
Qed.

Lemma assoc_insert_index l n k k' a :
  assoc k l = None ->
  assoc k' (insert_index n k a l) =
  if decide (k' = k) then Some a else assoc k' l.
Proof.
  induction l as [|[k1 a1] l IH]; simpl; intros Hk.
  - reflexivity.
  - destruct (decide (k = k1)) as [->|Hne]; [discriminate|].
    destruct (array_index k1) as [n1|].
    + destruct (n <? n1)%N; simpl.
      * destruct (decide (k' = k)); reflexivity.
      * destruct (decide (k' = k1)) as [->|Hne'].
        -- rewrite decide_False by congruence. reflexivity.
        -- apply IH, Hk.
    + simpl. destruct (decide (k' = k)); reflexivity.
Qed.

Lemma assoc_own_insert l k k' a :
  assoc k' (own_insert k a l) =
  if decide (k' = k) then Some a else assoc k' l.
Proof.
  unfold own_insert. destruct (assoc k l) eqn:E.
  - rewrite assoc_replace_value, E. reflexivity.
  - destruct (array_index k).
    + apply assoc_insert_index, E.
    + rewrite assoc_app. simpl.
      destruct (decide (k' = k)) as [->|Hne].
      * rewrite E. reflexivity.
      * destruct (assoc k' l); reflexivity.
Qed.

Lemma keys_replace_value l k a : keys (replace_value k a l) = keys l.
Proof.
  induction l as [|[k1 a1] l IH]; simpl; [reflexivity|].
  destruct (decide (k = k1)); simpl; [reflexivity | f_equal; exact IH].
Qed.

Lemma keys_insert_index l n k a :
  keys (insert_index n k a l) ≡ₚ k :: keys l.
Proof.
  induction l as [|[k1 a1] l IH]; simpl; [reflexivity|].
  destruct (array_index k1) as [n1|]; [|reflexivity].
  destruct (n <? n1)%N; simpl; [reflexivity|].
  rewrite IH. apply Permutation_swap.
Qed.

(** Assigning keeps the own keys distinct. *)
Lemma NoDup_keys_own_insert l k a :
  NoDup (keys l) -> NoDup (keys (own_insert k a l)).
Proof.
  intros Hnd. unfold own_insert. destruct (assoc k l) eqn:E.
  - rewrite keys_replace_value. exact Hnd.
  - assert (Hnew : NoDup (k :: keys l))
      by (apply NoDup_cons; split; [apply assoc_None, E | exact Hnd]).
    destruct (array_index k).
    + rewrite keys_insert_index. exact Hnew.
    + unfold keys. rewrite map_app. simpl.
      rewrite <- Permutation_cons_append. exact Hnew.
Qed.

Lemma replace_value_same l k a :
  assoc k l = Some a -> replace_value k a l = l.
Proof.
  induction l as [|[k1 a1] l IH]; simpl; [reflexivity|].
  destruct (decide (k = k1)) as [->|Hne].
  - intros [= ->]. reflexivity.
  - intros H. f_equal. apply IH, H.
Qed.

Lemma own_insert_same l k a : assoc k l = Some a -> own_insert k a l = l.
Proof.
  intros H. unfold own_insert. rewrite H. apply replace_value_same, H.
Qed.
End AssocFacts.

Lemma object_get_own_insert o k k' x :
  object_get (with_own o (own_insert k x (own o))) k' =
  if decide (k' = k) then x else object_get o k'.
Proof.
  unfold object_get, with_own. simpl. rewrite assoc_own_insert.
  destruct (decide (k' = k)); reflexivity.
Qed.

Lemma get_other v k k' s x :
  get v k s = (Ret x, s) -> exists y, get v k' s = (Ret y, s).
Proof.
  rewrite !get_run. destruct v; simpl; intros H; try discriminate; eauto.
  destruct (heap s !! l); [eauto | discriminate].
Qed.

Lemma get_in_is_object h v k x :
  get_in h v k = Ret x -> defined x = true -> exists l o, v = VObj l /\ h !! l = Some o.
Proof.
  destruct v; simpl; intros H Hd; try discriminate;
    try (injection H as <-; discriminate Hd).
  destruct (h !! l) eqn:E; [eauto | discriminate].
Qed.

(** C6. When the batch table has a legacy [HIERARCHY], the warning is
    emitted and the value is stored under [3DTILES_batch_table_hierarchy] of
    the extensions object the function returns, whatever was stored there
    before. That object is the batch table's when it has one, all its other
    entries unchanged, and otherwise a new one holding this entry and no
    other. *)
Theorem partitionProperties_folds_hierarchy bt s legacy ev :
  get bt "HIERARCHY" s = (Ret legacy, s) ->
  get bt "extensions" s = (Ret ev, s) ->
  defined legacy = true ->
  (defined ev = false \/ exists e, ev = VObj e /\ is_Some (heap s !! e)) ->
  let out := fst (partitionProperties bt s) in
  let s' := snd (partitionProperties bt s) in
  warnings s' = (warnings s ++ [hierarchy_warning])%list /\
  exists e o',
    (forall r, out = Ret r -> extensions r = VObj e) /\
    heap s' !! e = Some o' /\
    assoc "3DTILES_batch_table_hierarchy" (own o') = Some legacy /\
    (defined ev = false ->
     heap s' = (heap s ++ [o'])%list /\
     o' = {| obj_class_of := ClsObject;
             own := [("3DTILES_batch_table_hierarchy", legacy)];
             inherited := [] |}) /\
    (forall o, ev = VObj e -> heap s !! e = Some o ->
       heap s' = <[e := o']> (heap s) /\
       forall k, k <> "3DTILES_batch_table_hierarchy" ->
                 assoc k (own o') = assoc k (own o)) /\
    (defined ev = true -> ev = VObj e).
Proof.
  intros Hl He Hd Hev out s'.
  destruct (get_in_is_object (heap s) bt "HIERARCHY" legacy) as (b & ob & -> & Hb);
    [rewrite get_run in Hl; congruence | exact Hd |].
  assert (Hx : get (VObj b) "extras" s = (Ret (object_get ob "extras"), s)).
  { rewrite get_run. simpl. rewrite Hb. reflexivity. }
  destruct Hev as [Hn | (e & -> & [o Ho])].
  - subst out s'.
    rewrite (partitionProperties_new _ _ _ _ _ Hl Hx He Hd Hn). simpl.
    split; [reflexivity|].
    eexists (List.length (heap s)), _.
    split; [|split; [|split; [|split; [|split]]]].
    + intros r Hr. unfold partition_result in Hr.
      destruct (fst (partition_loop (VObj b) (folded_new s legacy)));
        try discriminate.
      injection Hr as <-. reflexivity.
    + rewrite lookup_app_r by lia. rewrite Nat.sub_diag. reflexivity.
    + reflexivity.
    + intros _. split; reflexivity.
    + intros o ->. discriminate Hn.
    + congruence.
  - subst out s'.
    rewrite (partitionProperties_existing _ _ _ _ _ _ Hl Hx He Hd Ho). simpl.
    split; [reflexivity|].
    exists e, (with_own o (own_insert "3DTILES_batch_table_hierarchy" legacy
                                      (own o))).
    split; [|split; [|split; [|split; [|split]]]].
    + intros r Hr. unfold partition_result in Hr.
      destruct (fst (partition_loop (VObj b) (folded s e o legacy)));
        try discriminate.
      injection Hr as <-. reflexivity.
    + apply list_lookup_insert_eq. eapply lookup_lt_Some, Ho.
    + simpl. rewrite assoc_own_insert. rewrite decide_True; reflexivity.
    + discriminate.
    + intros o0 _ Ho0. assert (o0 = o) as -> by congruence.
      split; [reflexivity|].
      intros k Hk. simpl. rewrite assoc_own_insert.
      rewrite decide_False by exact Hk. reflexivity.
    + reflexivity.
Qed.

(** C10. With a legacy [HIERARCHY] and an extensions object both there, the
    function writes into that very object: what it returns as extensions is
    the location stored in the batch table, no object is created, the entry
    [3DTILES_batch_table_hierarchy] of that object now holds the legacy
    value, and every other property of it, of the batch table and of every
    other object reads as before. This is so however the function ends. *)
Theorem partitionProperties_writes_extensions bt s legacy e o :
  get bt "HIERARCHY" s = (Ret legacy, s) ->
  get bt "extensions" s = (Ret (VObj e), s) ->
  defined legacy = true ->
  heap s !! e = Some o ->
  let out := fst (partitionProperties bt s) in
  let s' := snd (partitionProperties bt s) in
  (forall r, out = Ret r -> extensions r = VObj e) /\
  List.length (heap s') = List.length (heap s) /\
  get (VObj e) "3DTILES_batch_table_hierarchy" s' = (Ret legacy, s') /\
  (forall l, l <> e -> heap s' !! l = heap s !! l) /\
  (forall v k, k <> "3DTILES_batch_table_hierarchy" ->
               get_in (heap s') v k = get_in (heap s) v k) /\
  get bt "extensions" s' = (Ret (VObj e), s').
Proof.
  intros Hl He Hd Ho out s'.
  destruct (get_in_is_object (heap s) bt "HIERARCHY" legacy)
    as (b & ob & -> & Hb);
    [rewrite get_run in Hl; congruence | exact Hd |].
  assert (Hx : get (VObj b) "extras" s = (Ret (object_get ob "extras"), s)).
  { rewrite get_run. simpl. rewrite Hb. reflexivity. }
  subst out s'.
  rewrite (partitionProperties_existing _ _ _ _ _ _ Hl Hx He Hd Ho). simpl.
  assert (Hlt : (e < List.length (heap s))%nat) by (eapply lookup_lt_Some, Ho).
  assert (Hother : forall v k, k <> "3DTILES_batch_table_hierarchy" ->
            get_in (heap (folded s e o legacy)) v k = get_in (heap s) v k).
  { intros v k Hk. destruct v; try reflexivity. simpl.
    destruct (decide (l = e)) as [->|Hne].
    - rewrite list_lookup_insert_eq by exact Hlt. rewrite Ho.
      rewrite object_get_own_insert, decide_False by exact Hk. reflexivity.
    - rewrite list_lookup_insert_ne by congruence. reflexivity. }
  split; [|split; [|split; [|split; [|split]]]].
  - intros r Hr. unfold partition_result in Hr.
    destruct (fst (partition_loop (VObj b) (folded s e o legacy)));
      try discriminate.
    injection Hr as <-. reflexivity.
  - apply length_insert.
  - rewrite get_run. simpl. rewrite list_lookup_insert_eq by exact Hlt.
    rewrite object_get_own_insert, decide_True by reflexivity. reflexivity.
  - intros l Hne. apply list_lookup_insert_ne. congruence.
  - exact Hother.
  - rewrite get_run, Hother by discriminate.
    rewrite get_run in He. injection He as He. f_equal. exact He.
Qed.

(** ** Enumeration *)

Lemma first_visits_app seen l1 l2 :
  first_visits seen (l1 ++ l2) =
  (first_visits seen l1 ++
   first_visits (rev (first_visits seen l1) ++ seen) l2)%list.
Proof.
  revert seen. induction l1 as [|k l1 IH]; intros seen; simpl.
  - reflexivity.
  - destruct (decide (k ∈ seen)).
    + apply IH.
    + simpl. rewrite IH. do 2 f_equal.
      rewrite <- app_assoc. reflexivity.
Qed.

Lemma first_visits_NoDup seen l :
  NoDup l -> (forall k, k ∈ l -> k ∉ seen) -> first_visits seen l = l.
Proof.
  revert seen. induction l as [|k l IH]; intros seen Hnd Hs; simpl.
  - reflexivity.
  - apply NoDup_cons in Hnd as [Hk Hnd].
    rewrite decide_False by (apply Hs; left). f_equal.
    apply IH; [exact Hnd|].
    intros k' Hk' Hin. apply elem_of_cons in Hin as [->|Hin].
    + contradiction.
    + eapply Hs; [right; exact Hk' | exact Hin].
Qed.

Lemma first_visits_unseen seen l k :
  k ∈ first_visits seen l -> k ∉ seen.
Proof.
  revert seen. induction l as [|k1 l IH]; intros seen; simpl.
  - intros H. apply elem_of_nil in H as [].
  - destruct (decide (k1 ∈ seen)) as [Hin|Hout].
    + apply IH.
    + intros H. apply elem_of_cons in H as [->|H]; [exact Hout|].
      apply IH in H. intros Hs. apply H. right. exact Hs.
Qed.

Lemma NoDup_first_visits seen l : NoDup (first_visits seen l).
Proof.
  revert seen. induction l as [|k l IH]; intros seen; simpl.
  - apply NoDup_nil_2.
  - destruct (decide (k ∈ seen)); [apply IH|].
    apply NoDup_cons. split; [|apply IH].
    intros H. apply first_visits_unseen in H. apply H. left.
Qed.

Lemma for_each_cons {K S} (k : K) ks (body : K -> S -> M S) acc :
  for_each (k :: ks) body acc =
  (let* acc' := body k acc in for_each ks body acc').
Proof. reflexivity. Qed.

Lemma for_each_app {K S} (l1 l2 : list K) (body : K -> S -> M S) acc s acc1 s1 :
  for_each l1 body acc s = (Ret acc1, s1) ->
  for_each (l1 ++ l2) body acc s = for_each l2 body acc1 s1.
Proof.
  revert acc s. induction l1 as [|k l1 IH]; intros acc s H; simpl in *.
  - injection H as -> ->. reflexivity.
  - apply bind_ret_inv in H as (a & s2 & Hb & H).
    rewrite (bind_run _ _ _ _ _ Hb). apply IH, H.
Qed.

Lemma for_each_skip {K S} (l : list K) (body : K -> S -> M S) acc s :
  (forall k, k ∈ l -> body k acc s = (Ret acc, s)) ->
  for_each l body acc s = (Ret acc, s).
Proof.
  induction l as [|k l IH]; intros H; simpl; [reflexivity|].
  rewrite (bind_run _ _ _ _ _ (H k ltac:(left))).
  apply IH. intros k' Hk'. apply H. right. exact Hk'.
Qed.

(** ** Slots *)

Section SlotFacts.
Context {V : Type}.
Implicit Types (l : list (nat * V)) (n : nat) (v : V).
Local Open Scope nat_scope.

Lemma slot_insert_last l n v :
  Forall (fun e => fst e < n) l -> slot_insert n v l = (l ++ [(n, v)])%list.
Proof.
  induction l as [|[n1 v1] l IH]; simpl; intros H; [reflexivity|].
  apply Forall_cons in H as [H1 H]. simpl in H1.
  rewrite decide_False by lia. rewrite decide_False by lia.
  f_equal. apply IH, H.
Qed.

Lemma slot_lookup_app l1 l2 n :
  slot_lookup n (l1 ++ l2) =
  match slot_lookup n l1 with Some v => Some v | None => slot_lookup n l2 end.
Proof.
  induction l1 as [|[n1 v1] l1 IH]; simpl; [reflexivity|].
  destruct (decide (n = n1)); [reflexivity | exact IH].
Qed.

Lemma slot_lookup_above l n :
  Forall (fun e => fst e < n) l -> slot_lookup n l = None.
Proof.
  induction l as [|[n1 v1] l IH]; simpl; intros H; [reflexivity|].
  apply Forall_cons in H as [H1 H]. simpl in H1.
  rewrite decide_False by lia. apply IH, H.
Qed.
End SlotFacts.

(** ** The transcoding loop *)

Lemma dict_set_ordinary {A} `{JsKind A} (d : dict A) k a s :
  k <> "__proto__" -> dict_set d k a s = (Ret (dict_define d k a), s).
Proof. intros Hk. unfold dict_set. rewrite decide_False by exact Hk. reflexivity. Qed.

Lemma keeps_state {A} (m : M A) s o s1 : keeps m -> m s = (o, s1) -> s1 = s.
Proof. intros Hk H. specialize (Hk s). rewrite H in Hk. exact Hk. Qed.

Section TranscoderFacts.
Context {View : Type}.
Variable getBinaryAccessor :
  list object -> value -> outcome (@BinaryAccessor View).
Local Open Scope nat_scope.

Abbreviation property_of := (transcode_property getBinaryAccessor).
Abbreviation step := (transcode_step getBinaryAccessor).
Abbreviation transcode := (transcodeBinaryProperties getBinaryAccessor).
Abbreviation parse := (parseBatchTable getBinaryAccessor).

Lemma keeps_transcode_step fc d body k acc :
  keeps (step fc d body k acc).
Proof. unfold transcode_step. reads. Qed.

Lemma keeps_transcodeBinaryProperties fc d body :
  keeps (transcode fc d body).
Proof.
  unfold transcodeBinaryProperties.
  apply keeps_bind; [apply keeps_dict_for_in_keys | intros ks].
  apply keeps_bind; [|intros acc; apply keeps_ret].
  apply keeps_for_each. intros k acc. apply keeps_transcode_step.
Qed.

Lemma keeps_initializeHierarchy ext body :
  keeps (initializeHierarchy ext body).
Proof. unfold initializeHierarchy. reads. Qed.

(** What a property's turn consists of, when it succeeds. *)
Lemma transcode_property_inv fc body p s ty view :
  property_of fc body p s = (Ret (ty, view), s) ->
  exists accessor buffer bodyOffset propertyOffset byteOffset,
    getBinaryAccessor (heap s) p = Ret accessor /\
    transcodePropertyType p s = (Ret ty, s) /\
    get_in (heap s) body "buffer" = Ret buffer /\
    get_in (heap s) body "byteOffset" = Ret bodyOffset /\
    get_in (heap s) p "byteOffset" = Ret propertyOffset /\
    js_add bodyOffset propertyOffset s = (Ret byteOffset, s) /\
    createArrayBufferView accessor (heap s) buffer byteOffset fc = Ret view.
Proof.
  intros H. unfold transcode_property in H.
  apply bind_ret_inv in H as (accessor & s1 & H1 & H).
  assert (s1 = s) as -> by (eapply keeps_state, H1; apply keeps_read).
  apply bind_ret_inv in H as (ty' & s1 & H2 & H).
  assert (s1 = s) as ->
    by (eapply keeps_state, H2; apply keeps_transcodePropertyType).
  apply bind_ret_inv in H as (buffer & s1 & H3 & H).
  assert (s1 = s) as -> by (eapply keeps_state, H3; apply keeps_get).
  apply bind_ret_inv in H as (bodyOffset & s1 & H4 & H).
  assert (s1 = s) as -> by (eapply keeps_state, H4; apply keeps_get).
  apply bind_ret_inv in H as (propertyOffset & s1 & H5 & H).
  assert (s1 = s) as -> by (eapply keeps_state, H5; apply keeps_get).
  apply bind_ret_inv in H as (byteOffset & s1 & H6 & H).
  assert (s1 = s) as -> by (eapply keeps_state, H6; apply keeps_js_add).
  apply bind_ret_inv in H as (view' & s1 & H7 & H).
  assert (s1 = s) as -> by (eapply keeps_state, H7; apply keeps_read).
  injection H as -> ->.
  exists accessor, buffer, bodyOffset, propertyOffset, byteOffset.
  rewrite get_run in H3, H4, H5. unfold read in H1, H7.
  repeat split; congruence.
Qed.

(** One turn of the loop on an own key. *)
Lemma transcode_step_own fc d body k acc s p ty v :
  k <> "__proto__" ->
  dict_hasOwnProperty d k s = (Ret true, s) ->
  dict_get d k s = (Ret p, s) ->
  property_of fc body p s = (Ret (ty, v), s) ->
  step fc d body k acc s =
  (Ret {| acc_classProperties := dict_define (acc_classProperties acc) k ty;
          acc_featureTableProperties :=
            dict_define (acc_featureTableProperties acc) k
                        {| bufferView := acc_bufferViewCount acc |};
          acc_bufferViewsU8 :=
            slot_insert (acc_bufferViewCount acc) v (acc_bufferViewsU8 acc);
          acc_bufferViewCount := S (acc_bufferViewCount acc) |}, s).
Proof.
  intros Hk Hown Hget H.
  apply transcode_property_inv in H
    as (accessor & buffer & bodyOffset & propertyOffset & byteOffset &
        H1 & H2 & H3 & H4 & H5 & H6 & H7).
  unfold transcode_step.
  rewrite (bind_run _ _ _ _ _ Hown). simpl.
  rewrite (bind_run _ _ _ _ _ Hget).
  erewrite bind_run by (unfold read; rewrite H1; reflexivity).
  erewrite bind_run by (apply dict_set_ordinary, Hk).
  rewrite (bind_run _ _ _ _ _ H2).
  erewrite bind_run by (apply dict_set_ordinary, Hk).
  erewrite bind_run by (rewrite get_run, H3; reflexivity).
  erewrite bind_run by (rewrite get_run, H4; reflexivity).
  erewrite bind_run by (rewrite get_run, H5; reflexivity).
  rewrite (bind_run _ _ _ _ _ H6).
  erewrite bind_run by (unfold read; rewrite H7; reflexivity).
  reflexivity.
Qed.

Lemma transcode_step_skip fc d body k acc s :
  dict_hasOwnProperty d k s = (Ret false, s) ->
  step fc d body k acc s = (Ret acc, s).
Proof.
  intros H. unfold transcode_step.
  rewrite (bind_run _ _ _ _ _ H). reflexivity.
Qed.
(** The loop over a run [es] of own entries, from [acc]: each entry gets
    the next slot, and under its key the slot and the descriptor. *)
Lemma transcode_loop fc d body s (es : list (string * value)) :
  forall acc,
    NoDup (keys es) ->
    Forall (fun e => fst e < acc_bufferViewCount acc) (acc_bufferViewsU8 acc) ->
    (forall k p, (k, p) ∈ es ->
       k <> "__proto__" /\
       dict_hasOwnProperty d k s = (Ret true, s) /\
       dict_get d k s = (Ret p, s) /\
       exists r, property_of fc body p s = (Ret r, s)) ->
    exists acc',
      for_each (keys es) (step fc d body) acc s = (Ret acc', s) /\
      acc_bufferViewCount acc' = acc_bufferViewCount acc + List.length es /\
      Forall (fun e => fst e < acc_bufferViewCount acc')
             (acc_bufferViewsU8 acc') /\
      map fst (acc_bufferViewsU8 acc') =
        (map fst (acc_bufferViewsU8 acc) ++
         seq (acc_bufferViewCount acc) (List.length es))%list /\
      (forall i k p, es !! i = Some (k, p) ->
         exists ty v,
           property_of fc body p s = (Ret (ty, v), s) /\
           assoc k (d_own (acc_featureTableProperties acc')) =
             Some {| bufferView := acc_bufferViewCount acc + i |} /\
           assoc k (d_own (acc_classProperties acc')) = Some ty /\
           slot_lookup (acc_bufferViewCount acc + i) (acc_bufferViewsU8 acc')
             = Some v) /\
      (forall k, k ∉ keys es ->
         assoc k (d_own (acc_featureTableProperties acc')) =
           assoc k (d_own (acc_featureTableProperties acc)) /\
         assoc k (d_own (acc_classProperties acc')) =
           assoc k (d_own (acc_classProperties acc))) /\
      (forall n, n < acc_bufferViewCount acc ->
         slot_lookup n (acc_bufferViewsU8 acc') =
         slot_lookup n (acc_bufferViewsU8 acc)).
Proof.
  induction es as [|[k p] es IH]; intros acc Hnd Hslots Hes.
  - exists acc. simpl. rewrite Nat.add_0_r, app_nil_r.
    repeat split; try reflexivity; try exact Hslots.
    intros i k p Hi. discriminate Hi.
  - simpl in Hnd. apply NoDup_cons in Hnd as [Hk Hnd].
    destruct (Hes k p ltac:(left)) as (Hproto & Hown & Hget & [ty v] & Hp).
    pose proof (transcode_step_own fc d body k acc s p ty v
                  Hproto Hown Hget Hp) as Hstep.
    set (acc1 := {| acc_classProperties :=
                      dict_define (acc_classProperties acc) k ty;
                    acc_featureTableProperties :=
                      dict_define (acc_featureTableProperties acc) k
                        {| bufferView := acc_bufferViewCount acc |};
                    acc_bufferViewsU8 :=
                      slot_insert (acc_bufferViewCount acc) v
                                  (acc_bufferViewsU8 acc);
                    acc_bufferViewCount := S (acc_bufferViewCount acc) |})
      in Hstep.
    assert (Hviews1 : acc_bufferViewsU8 acc1 =
              (acc_bufferViewsU8 acc ++ [(acc_bufferViewCount acc, v)])%list)
      by (apply slot_insert_last, Hslots).
    destruct (IH acc1) as (acc' & Hrun & Hcount & Hslots' & Hkeys & Hin &
                           Hout & Hlow).
    { exact Hnd. }
    { rewrite Hviews1. apply Forall_app. split.
      - eapply Forall_impl; [exact Hslots|]. simpl. intros; lia.
      - apply Forall_singleton. simpl. lia. }
    { intros k' p' Hin. apply Hes. right. exact Hin. }
    exists acc'. simpl in Hcount.
    split; [|split; [|split; [|split; [|split; [|split]]]]].
    + simpl. rewrite (bind_run _ _ _ _ _ Hstep). exact Hrun.
    + simpl. lia.
    + exact Hslots'.
    + rewrite Hkeys, Hviews1, map_app. simpl.
      rewrite <- app_assoc. reflexivity.
    + intros i k' p' Hi. destruct i as [|i]; simpl in Hi.
      * injection Hi as <- <-. exists ty, v.
        rewrite Nat.add_0_r.
        destruct (Hout k Hk) as [Hf Hc].
        split; [exact Hp|]. split; [|split].
        -- rewrite Hf. simpl. rewrite assoc_own_insert.
           rewrite decide_True by reflexivity. reflexivity.
        -- rewrite Hc. simpl. rewrite assoc_own_insert.
           rewrite decide_True by reflexivity. reflexivity.
        -- rewrite Hlow by (simpl; lia). rewrite Hviews1, slot_lookup_app.
           rewrite (slot_lookup_above _ _ Hslots). simpl.
           rewrite decide_True by reflexivity. reflexivity.
      * destruct (Hin i k' p' Hi) as (ty' & v' & Hp' & Hf & Hc & Hv).
        exists ty', v'. simpl in Hf, Hv.
        replace (acc_bufferViewCount acc + S i)
          with (S (acc_bufferViewCount acc + i)) by lia.
        auto.
    + intros k' Hk'. simpl in Hk'.
      apply not_elem_of_cons in Hk' as [Hne Hk'].
      destruct (Hout k' Hk') as [Hf Hc]. rewrite Hf, Hc. simpl.
      rewrite !assoc_own_insert. rewrite !decide_False by exact Hne.
      split; reflexivity.
    + intros n Hn. rewrite Hlow by (simpl; lia).
      rewrite Hviews1, slot_lookup_app.
      destruct (slot_lookup n (acc_bufferViewsU8 acc)); [reflexivity|].
      simpl. rewrite decide_False by lia. reflexivity.
Qed.
Lemma dict_for_in_keys_own d s ks s1 :
  NoDup (keys (d_own d)) ->
  dict_for_in_keys d s = (Ret ks, s1) ->
  exists rest,
    ks = (keys (d_own d) ++ rest)%list /\
    forall k, k ∈ rest -> k ∉ keys (d_own d).
Proof.
  intros Hnd H.
  assert (exists extra, ks = first_visits [] (keys (d_own d) ++ extra))
    as [extra ->].
  { unfold dict_for_in_keys in H. destruct (d_proto d).
    - injection H as <- _. exists []. rewrite app_nil_r. reflexivity.
    - injection H as <- _. exists []. rewrite app_nil_r. reflexivity.
    - apply bind_ret_inv in H as (extra & s2 & _ & H).
      injection H as <- _. exists extra. reflexivity. }
  rewrite first_visits_app.
  rewrite (first_visits_NoDup [] (keys (d_own d)) Hnd)
    by (intros; apply not_elem_of_nil).
  eexists. split; [reflexivity|].
  intros k Hk Hin. apply first_visits_unseen in Hk. apply Hk.
  apply elem_of_app. left. apply list_elem_of_In, in_rev.
  rewrite rev_involutive. apply list_elem_of_In, Hin.
Qed.

Lemma assoc_elem {A} (l : list (string * A)) k a :
  NoDup (keys l) -> (k, a) ∈ l -> assoc k l = Some a.
Proof.
  intros Hnd Hin. apply list_elem_of_lookup in Hin as [i Hi].
  eapply assoc_lookup; eauto.
Qed.

Lemma transcodeBinaryProperties_run fc d body s :
  transcodable getBinaryAccessor fc d body s ->
  exists acc,
    transcode fc d body s =
    (Ret {| featureTableJson :=
              {| ftj_class := "_batchTable";
                 ftj_count := fc;
                 ftj_properties := acc_featureTableProperties acc |};
            bufferViewsU8 := acc_bufferViewsU8 acc;
            transcodedSchema :=
              {| schema_classes :=
                   [("_batchTable",
                     {| class_properties := acc_classProperties acc |})] |};
            transcodedClass :=
              Some {| class_properties := acc_classProperties acc |} |}, s) /\
    map fst (acc_bufferViewsU8 acc) = seq 0 (List.length (d_own d)) /\
    (forall i k p, d_own d !! i = Some (k, p) ->
       exists ty v,
         property_of fc body p s = (Ret (ty, v), s) /\
         assoc k (d_own (acc_featureTableProperties acc)) =
           Some {| bufferView := i |} /\
         assoc k (d_own (acc_classProperties acc)) = Some ty /\
         slot_lookup i (acc_bufferViewsU8 acc) = Some v) /\
    (forall k, k ∉ keys (d_own d) ->
       assoc k (d_own (acc_featureTableProperties acc)) = None /\
       assoc k (d_own (acc_classProperties acc)) = None).
Proof.
  intros (Hnd & Hproto & [ks Hks] & Hguard & Hprops).
  destruct (dict_for_in_keys_own d s ks s Hnd Hks) as (rest & -> & Hrest).
  destruct (transcode_loop fc d body s (d_own d)
              {| acc_classProperties := empty_dict;
                 acc_featureTableProperties := empty_dict;
                 acc_bufferViewsU8 := [];
                 acc_bufferViewCount := 0 |})
    as (acc & Hrun & _ & _ & Hslots & Hin & Hout & _).
  { exact Hnd. }
  { apply Forall_nil_2. }
  { intros k p Hkp.
    assert (Hk : k ∈ keys (d_own d)).
    { unfold keys. apply list_elem_of_fmap. exists (k, p). eauto. }
    split; [intros ->; contradiction|]. split; [|split].
    - rewrite Hguard. rewrite bool_decide_eq_true_2 by exact Hk. reflexivity.
    - unfold dict_get. rewrite (assoc_elem _ _ _ Hnd Hkp). reflexivity.
    - apply Hprops with k. exact Hkp. }
  exists acc. split; [|split; [|split]].
  - unfold transcodeBinaryProperties.
    rewrite (bind_run _ _ _ _ _ Hks).
    erewrite bind_run; [reflexivity|].
    rewrite (for_each_app _ _ _ _ _ _ _ Hrun).
    apply for_each_skip. intros k Hk. apply transcode_step_skip.
    rewrite Hguard. rewrite bool_decide_eq_false_2 by (apply Hrest, Hk).
    reflexivity.
  - exact Hslots.
  - intros i k p Hi. destruct (Hin i k p Hi) as (ty & v & H).
    exists ty, v. exact H.
  - intros k Hk. destruct (Hout k Hk) as [-> ->]. split; reflexivity.
Qed.
(** C2. Over binary properties it can work on, [transcodeBinaryProperties]
    returns, and the slots are the positions in the enumeration: the loop
    visits the own keys in their order, the property at position [i] has
    [{bufferView: i}] under its key in the feature-table properties and its
    own view under slot [i] of the buffer views, the feature-table
    properties have the keys of the binary properties and no other, and the
    slots in use are 0, 1, ..., one less than the number of properties,
    each once. *)
Theorem transcodeBinaryProperties_slots fc d body s :
  transcodable getBinaryAccessor fc d body s ->
  exists t rest,
    transcode fc d body s = (Ret t, s) /\
    dict_for_in_keys d s = (Ret (keys (d_own d) ++ rest)%list, s) /\
    (forall i k p, d_own d !! i = Some (k, p) ->
       assoc k (d_own (ftj_properties (featureTableJson t))) =
         Some {| bufferView := i |} /\
       exists ty v,
         property_of fc body p s = (Ret (ty, v), s) /\
         slot_lookup i (bufferViewsU8 t) = Some v) /\
    (forall k,
       k ∈ keys (d_own (ftj_properties (featureTableJson t))) <->
       k ∈ keys (d_own d)) /\
    map fst (bufferViewsU8 t) = seq 0 (List.length (d_own d)).
Proof.
  intros Ht.
  destruct (transcodeBinaryProperties_run fc d body s Ht)
    as (acc & Hrun & Hslots & Hin & Hout).
  destruct Ht as (Hnd & _ & [ks Hks] & _ & _).
  destruct (dict_for_in_keys_own d s ks s Hnd Hks) as (rest & -> & _).
  eexists _, rest. split; [exact Hrun|]. simpl.
  split; [exact Hks|]. split; [|split].
  - intros i k p Hi. destruct (Hin i k p Hi) as (ty & v & Hp & Hf & _ & Hv).
    split; [exact Hf|]. exists ty, v. split; assumption.
  - intros k. rewrite <- assoc_is_Some. split.
    + intros Hsome. destruct (decide (k ∈ keys (d_own d))) as [|Hk];
        [assumption|].
      destruct (Hout k Hk) as [Hnone _]. rewrite Hnone in Hsome.
      destruct Hsome as [? [=]].
    + intros Hk. unfold keys in Hk.
      apply list_elem_of_fmap in Hk as ([k' p] & -> & Hkp).
      apply list_elem_of_lookup in Hkp as [i Hi].
      destruct (Hin i k' p Hi) as (ty & v & _ & Hf & _). simpl.
      rewrite Hf. eauto.
  - exact Hslots.
Qed.

(** C1. Over binary properties it can work on, [transcodeBinaryProperties]
    returns, and the view under the slot of each property is the one its
    accessor constructs from the buffer of the binary body itself (the
    reference it reads from [binaryBody.buffer]), the byte offset
    [binaryBody.byteOffset + property.byteOffset] and the feature count.
    The store is as it was; it is so however the function ends. *)
Theorem transcodeBinaryProperties_views fc d body s :
  transcodable getBinaryAccessor fc d body s ->
  (forall s0, snd (transcode fc d body s0) = s0) /\
  exists t,
    transcode fc d body s = (Ret t, s) /\
    forall i k p, d_own d !! i = Some (k, p) ->
      exists accessor buffer bodyOffset propertyOffset byteOffset view,
        getBinaryAccessor (heap s) p = Ret accessor /\
        get_in (heap s) body "buffer" = Ret buffer /\
        get_in (heap s) body "byteOffset" = Ret bodyOffset /\
        get_in (heap s) p "byteOffset" = Ret propertyOffset /\
        js_add bodyOffset propertyOffset s = (Ret byteOffset, s) /\
        (forall a b,
           bodyOffset = VNum (Int a) -> propertyOffset = VNum (Int b) ->
           byteOffset = VNum (Int (a + b))) /\
        createArrayBufferView accessor (heap s) buffer byteOffset fc =
          Ret view /\
        slot_lookup i (bufferViewsU8 t) = Some view.
Proof.
  intros Ht. split; [apply keeps_transcodeBinaryProperties|].
  destruct (transcodeBinaryProperties_run fc d body s Ht)
    as (acc & Hrun & _ & Hin & _).
  eexists. split; [exact Hrun|]. simpl.
  intros i k p Hi. destruct (Hin i k p Hi) as (ty & v & Hp & _ & _ & Hv).
  apply transcode_property_inv in Hp
    as (accessor & buffer & bodyOffset & propertyOffset & byteOffset &
        H1 & _ & H3 & H4 & H5 & H6 & H7).
  exists accessor, buffer, bodyOffset, propertyOffset, byteOffset, v.
  repeat (split; [assumption|]). split; [|split; assumption].
  intros a b -> ->. unfold js_add in H6. simpl in H6.
  destruct (safe a && safe b && safe (a + b)); [|discriminate].
  injection H6 as <-. reflexivity.
Qed.
End TranscoderFacts.

(** ** The entry point *)

Lemma Check_typeOf_run expected name test s :
  Check_typeOf expected name test s =
  (if decide (typeof test = expected) then Ret tt
   else Throw (DeveloperError name), s).
Proof. unfold Check_typeOf. destruct (decide _); reflexivity. Qed.

Section EntryPoint.
Context {View : Type}.
Variable getBinaryAccessor :
  list object -> value -> outcome (@BinaryAccessor View).

Abbreviation parse := (parseBatchTable getBinaryAccessor).
Abbreviation transcode := (transcodeBinaryProperties getBinaryAccessor).

(** What a run that returns went through. *)
Lemma parseBatchTable_inv opts s bundle s' :
  parse opts s = (Ret bundle, s') ->
  typeof (count opts) = "number" /\
  typeof (batchTable opts) = "object" /\
  typeof (binaryBody opts) = "object" /\
  exists r s1 hierarchy t,
    partitionProperties (batchTable opts) s = (Ret r, s1) /\
    initializeHierarchy (extensions r) (binaryBody opts) s1 =
      (Ret hierarchy, s1) /\
    transcode (count opts) (binaryProperties r) (binaryBody opts) s1 =
      (Ret t, s1) /\
    s' = s1 /\
    bundle =
    {| fm_schema := transcodedSchema t;
       fm_featureTables :=
         [("_batchTable",
           {| ft_featureTable := featureTableJson t;
              ft_class := transcodedClass t;
              ft_bufferViews := bufferViewsU8 t;
              ft_jsonMetadataTable :=
                {| jmt_count := count opts;
                   jmt_properties := jsonProperties r |};
              ft_batchTableHierarchy := hierarchy |})];
       fm_extensions := extensions r;
       fm_extras := extras r |}.
Proof.
  intros H. unfold parseBatchTable in H.
  apply bind_ret_inv in H as ([] & s0 & H1 & H).
  rewrite Check_typeOf_run in H1.
  destruct (decide (typeof (count opts) = "number")) as [Hc|];
    [|discriminate]. injection H1 as <-.
  apply bind_ret_inv in H as ([] & s0 & H1 & H).
  rewrite Check_typeOf_run in H1.
  destruct (decide (typeof (batchTable opts) = "object")) as [Hb|];
    [|discriminate]. injection H1 as <-.
  apply bind_ret_inv in H as ([] & s0 & H1 & H).
  rewrite Check_typeOf_run in H1.
  destruct (decide (typeof (binaryBody opts) = "object")) as [Hy|];
    [|discriminate]. injection H1 as <-.
  apply bind_ret_inv in H as (r & s1 & Hr & H).
  apply bind_ret_inv in H as (hierarchy & s2 & Hh & H).
  assert (s2 = s1) as ->
    by (eapply keeps_state, Hh; apply keeps_initializeHierarchy).
  apply bind_ret_inv in H as (t & s2 & Ht & H).
  assert (s2 = s1) as ->
    by (eapply keeps_state, Ht; apply keeps_transcodeBinaryProperties).
  injection H as <- <-.
  repeat (split; [assumption|]).
  exists r, s1, hierarchy, t. repeat (split; [assumption|]).
  split; reflexivity.
Qed.

(** And the other way round. *)
Lemma parseBatchTable_run opts s r s1 hierarchy t :
  typeof (count opts) = "number" ->
  typeof (batchTable opts) = "object" ->
  typeof (binaryBody opts) = "object" ->
  partitionProperties (batchTable opts) s = (Ret r, s1) ->
  initializeHierarchy (extensions r) (binaryBody opts) s1 =
    (Ret hierarchy, s1) ->
  transcode (count opts) (binaryProperties r) (binaryBody opts) s1 =
    (Ret t, s1) ->
  parse opts s =
  (Ret {| fm_schema := transcodedSchema t;
          fm_featureTables :=
            [("_batchTable",
              {| ft_featureTable := featureTableJson t;
                 ft_class := transcodedClass t;
                 ft_bufferViews := bufferViewsU8 t;
                 ft_jsonMetadataTable :=
                   {| jmt_count := count opts;
                      jmt_properties := jsonProperties r |};
                 ft_batchTableHierarchy := hierarchy |})];
          fm_extensions := extensions r;
          fm_extras := extras r |}, s1).
Proof.
  intros Hc Hb Hy Hr Hh Ht. unfold parseBatchTable.
  erewrite bind_run
    by (rewrite Check_typeOf_run, decide_True by exact Hc; reflexivity).
  erewrite bind_run
    by (rewrite Check_typeOf_run, decide_True by exact Hb; reflexivity).
  erewrite bind_run
    by (rewrite Check_typeOf_run, decide_True by exact Hy; reflexivity).
  rewrite (bind_run _ _ _ _ _ Hr), (bind_run _ _ _ _ _ Hh),
    (bind_run _ _ _ _ _ Ht).
  reflexivity.
Qed.

(** C7. [initializeHierarchy] returns undefined, and throws nothing, when
    the extensions are not defined or their entry
    [3DTILES_batch_table_hierarchy] is not, and otherwise the hierarchy
    built from that entry and the binary body. So a run of
    [parseBatchTable] on a batch table with no defined [HIERARCHY] and no
    such entry leaves the store alone and returns a bundle whose feature
    table has no hierarchy. *)
Theorem initializeHierarchy_absent_or_built extensions0 binaryBody0 s :
  (defined extensions0 = false ->
   initializeHierarchy extensions0 binaryBody0 s = (Ret None, s)) /\
  (forall payload,
     get extensions0 "3DTILES_batch_table_hierarchy" s = (Ret payload, s) ->
     initializeHierarchy extensions0 binaryBody0 s =
     (Ret (if defined payload
           then Some {| bth_extension := payload;
                        bth_binaryBody := binaryBody0 |}
           else None), s)) /\
  (forall opts bundle s' legacy,
     parse opts s = (Ret bundle, s') ->
     get (batchTable opts) "HIERARCHY" s = (Ret legacy, s) ->
     get (batchTable opts) "extensions" s = (Ret extensions0, s) ->
     defined legacy = false ->
     (defined extensions0 = false \/
      exists payload,
        get extensions0 "3DTILES_batch_table_hierarchy" s = (Ret payload, s)
        /\ defined payload = false) ->
     s' = s /\
     forall id table,
       (id, table) ∈ fm_featureTables bundle ->
       ft_batchTableHierarchy table = None).
Proof.
  assert (Habsent : defined extensions0 = false ->
            initializeHierarchy extensions0 binaryBody0 s = (Ret None, s)).
  { intros Hd. unfold initializeHierarchy. rewrite Hd. reflexivity. }
  assert (Hentry : forall body payload,
            get extensions0 "3DTILES_batch_table_hierarchy" s =
              (Ret payload, s) ->
            initializeHierarchy extensions0 body s =
            (Ret (if defined payload
                  then Some {| bth_extension := payload;
                               bth_binaryBody := body |}
                  else None), s)).
  { intros body payload Hp. unfold initializeHierarchy.
    assert (defined extensions0 = true) as ->
      by (destruct extensions0; try reflexivity; discriminate Hp).
    simpl. rewrite (bind_run _ _ _ _ _ Hp).
    destruct (defined payload); reflexivity. }
  split; [exact Habsent|]. split; [apply Hentry|].
  intros opts bundle s' legacy Hrun Hl He Hd Hno.
  apply parseBatchTable_inv in Hrun
    as (_ & _ & _ & r & s1 & hierarchy & t & Hr & Hh & _ & -> & ->).
  destruct (get_other _ _ "extras" _ _ Hl) as [extras0 Hx].
  rewrite (partitionProperties_plain _ _ _ _ _ Hl Hx He Hd) in Hr.
  injection Hr as Hr <-. split; [reflexivity|].
  unfold partition_result in Hr.
  destruct (fst (partition_loop (batchTable opts) s)); try discriminate.
  injection Hr as <-. simpl in Hh.
  intros id table Hin. simpl in Hin.
  apply list_elem_of_singleton in Hin. injection Hin as -> ->. simpl.
  destruct Hno as [Hn | (payload & Hp & Hn)].
  - unfold initializeHierarchy in Hh. rewrite Hn in Hh. simpl in Hh.
    injection Hh as <-. reflexivity.
  - rewrite (Hentry _ _ Hp), Hn in Hh. injection Hh as <-. reflexivity.
Qed.

End EntryPoint.

(** ** Running twice *)

Lemma stable_bind_dep {A B} (m : M A) (f : A -> M B) :
  keeps m -> stable m ->
  (forall a s, fst (m s) = Ret a -> stable (f a)) ->
  stable (bind m f).
Proof.
  intros Hk Hm Hf s s' b He. unfold bind.
  pose proof (Hk s) as Hs. pose proof (Hk s') as Hs'.
  pose proof (Hm s s') as Hm'. pose proof (fun a => Hf a s) as Hf'.
  destruct (m s) as [[a|e|] s1]; simpl in *; try discriminate.
  subst s1. specialize (Hm' a He eq_refl). specialize (Hf' a eq_refl).
  destruct (m s') as [o s1']; simpl in *. subst o s1'.
  apply Hf'. exact He.
Qed.

Lemma stable_initializeHierarchy ext body :
  stable (initializeHierarchy ext body).
Proof. unfold initializeHierarchy. reads. Qed.

Lemma partitionProperties_cases bt s r s1 :
  partitionProperties bt s = (Ret r, s1) ->
  exists legacy extras0 ev,
    get bt "HIERARCHY" s = (Ret legacy, s) /\
    get bt "extras" s = (Ret extras0, s) /\
    get bt "extensions" s = (Ret ev, s) /\
    (defined legacy = false \/
     defined legacy = true /\
     (defined ev = false \/ exists e o, ev = VObj e /\ heap s !! e = Some o)).
Proof.
  intros H. unfold partitionProperties in H.
  apply bind_ret_inv in H as (legacy & s0 & Hl & H).
  assert (s0 = s) as -> by (eapply keeps_state, Hl; apply keeps_get).
  apply bind_ret_inv in H as (extras0 & s0 & Hx & H).
  assert (s0 = s) as -> by (eapply keeps_state, Hx; apply keeps_get).
  apply bind_ret_inv in H as (ev & s0 & He & H).
  assert (s0 = s) as -> by (eapply keeps_state, He; apply keeps_get).
  exists legacy, extras0, ev. repeat (split; [assumption|]).
  destruct (defined legacy) eqn:Hd; [right; split; [reflexivity|] | left; reflexivity].
  destruct (defined ev) eqn:Hev; [right | left; reflexivity].
  apply bind_ret_inv in H as (ext & s2 & H & _).
  apply bind_ret_inv in H as ([] & s3 & Hw & H).
  injection Hw as <-.
  apply bind_ret_inv in H as (ext0 & s4 & Hr & H).
  injection Hr as <- <-.
  apply bind_ret_inv in H as ([] & s5 & Hput & _).
  destruct ev; try discriminate Hput.
  unfold put, bind, get_heap in Hput. simpl in Hput.
  destruct (heap s !! l) eqn:E; [eauto | discriminate Hput].
Qed.

Lemma get_same_heap v k s s' x :
  heap s' = heap s -> get v k s = (Ret x, s) -> get v k s' = (Ret x, s').
Proof. rewrite !get_run. intros -> [= ->]. reflexivity. Qed.

Lemma partition_result_inv extras0 extensions0 o r :
  partition_result extras0 extensions0 o = Ret r ->
  exists acc,
    o = Ret acc /\
    r = {| binaryProperties := snd acc;
           jsonProperties := fst acc;
           extras := extras0;
           extensions := extensions0 |}.
Proof.
  destruct o; simpl; intros H; try discriminate.
  injection H as <-. eauto.
Qed.

Lemma with_own_same o : with_own o (own o) = o.
Proof. destruct o. reflexivity. Qed.

(** A further run of [partitionProperties], on the store as the first run
    found it or as it left it. *)
Lemma partitionProperties_again bt s r s1 :
  partitionProperties bt s = (Ret r, s1) ->
  forall s',
    heap s' = heap s \/ heap s' = heap s1 ->
    exists r' s1',
      partitionProperties bt s' = (Ret r', s1') /\
      binaryProperties r' = binaryProperties r /\
      jsonProperties r' = jsonProperties r /\
      extras r' = extras r /\
      extends (heap s1) (heap s1') /\
      (forall body hierarchy,
         initializeHierarchy (extensions r) body s1 = (Ret hierarchy, s1) ->
         initializeHierarchy (extensions r') body s1' = (Ret hierarchy, s1')).
Proof.
  intros H s' Hs'.
  destruct (partitionProperties_cases bt s r s1 H)
    as (legacy & extras0 & ev & Hl & Hx & He &
        [Hd | [Hd [Hn | (e & o & -> & Ho)]]]).
  - (* no legacy hierarchy *)
    rewrite (partitionProperties_plain _ _ _ _ _ Hl Hx He Hd) in H.
    injection H as H <-.
    assert (Heq : heap s' = heap s) by (destruct Hs'; assumption).
    apply partition_result_inv in H as (acc & Hacc & ->).
    rewrite (partitionProperties_plain bt s' legacy extras0 ev)
      by (try exact Hd; apply (get_same_heap _ _ s); assumption).
    assert (Hloop : fst (partition_loop bt s') = Ret acc).
    { eapply stable_partition_loop; [|exact Hacc]. rewrite Heq.
      apply extends_refl. }
    rewrite Hloop. simpl. eexists _, s'. split; [reflexivity|]. simpl.
    repeat (split; [reflexivity|]).
    split; [rewrite Heq; apply extends_refl|].
    intros body hierarchy Hh.
    eapply stable_run; [| | |exact Hh].
    + apply keeps_initializeHierarchy.
    + apply stable_initializeHierarchy.
    + rewrite Heq. apply extends_refl.
  - (* a new extensions object *)
    rewrite (partitionProperties_new _ _ _ _ _ Hl Hx He Hd Hn) in H.
    injection H as H <-.
    apply partition_result_inv in H as (acc & Hacc & ->).
    assert (Hext : extends (heap s) (heap s')).
    { destruct Hs' as [-> | ->]; [apply extends_refl | apply extends_app]. }
    assert (Hget : forall k x, get bt k s = (Ret x, s) ->
                               get bt k s' = (Ret x, s')).
    { intros k x Hk. eapply stable_run; eauto with reads. }
    rewrite (partitionProperties_new bt s' legacy extras0 ev) by auto.
    assert (Hext1 : extends (heap (folded_new s legacy))
                            (heap (folded_new s' legacy))).
    { simpl. destruct Hs' as [-> | ->].
      - apply extends_refl.
      - simpl. apply extends_app. }
    assert (Hloop : fst (partition_loop bt (folded_new s' legacy)) = Ret acc).
    { eapply stable_partition_loop; [exact Hext1 | exact Hacc]. }
    rewrite Hloop. simpl. eexists _, _. split; [reflexivity|]. simpl.
    repeat (split; [reflexivity|]).
    split; [exact Hext1|].
    intros body hierarchy Hh.
    unfold initializeHierarchy in *. simpl in *.
    unfold bind in *. rewrite !get_run in *. simpl in *.
    rewrite lookup_app_r in Hh |- * by lia.
    rewrite Nat.sub_diag in Hh |- *. simpl in *.
    assert (Hobj :
      object_get {| obj_class_of := ClsObject;
                    own := [("3DTILES_batch_table_hierarchy", legacy)];
                    inherited := [] |} "3DTILES_batch_table_hierarchy"
      = legacy) by reflexivity.
    rewrite Hobj, Hd in Hh |- *. simpl in *.
    injection Hh as <-. reflexivity.
  - (* the extensions object of the batch table *)
    rewrite (partitionProperties_existing _ _ _ _ _ _ Hl Hx He Hd Ho) in H.
    injection H as H <-.
    apply partition_result_inv in H as (acc & Hacc & ->).
    assert (Hlt : (e < List.length (heap s))%nat)
      by (eapply lookup_lt_Some, Ho).
    set (o' := with_own o (own_insert "3DTILES_batch_table_hierarchy" legacy
                                      (own o))).
    assert (Hfolded : exists o0,
              heap s' !! e = Some o0 /\
              heap (folded s' e o0 legacy) = heap (folded s e o legacy) /\
              forall k x, k <> "3DTILES_batch_table_hierarchy" ->
                get bt k s = (Ret x, s) -> get bt k s' = (Ret x, s')).
    { destruct Hs' as [Heq | Heq].
      - exists o. rewrite Heq. split; [exact Ho|]. split; [simpl; congruence|].
        intros k x _. apply get_same_heap, Heq.
      - exists o'. simpl in Heq. rewrite Heq. split; [|split].
        + apply list_lookup_insert_eq, Hlt.
        + simpl. rewrite Heq. fold o'.
          rewrite own_insert_same.
          * rewrite with_own_same. apply list_insert_id.
            apply list_lookup_insert_eq, Hlt.
          * subst o'. simpl. rewrite assoc_own_insert.
            rewrite decide_True; reflexivity.
        + intros k x Hk. rewrite !get_run. intros [= Hg]. f_equal.
          rewrite Heq, <- Hg. destruct bt; try reflexivity. simpl.
          destruct (decide (l = e)) as [->|Hne].
          * rewrite list_lookup_insert_eq by exact Hlt. rewrite Ho.
            unfold o'. rewrite object_get_own_insert, decide_False by exact Hk.
            reflexivity.
          * rewrite list_lookup_insert_ne by congruence. reflexivity. }
    destruct Hfolded as (o0 & Ho0 & Hheap & Hget).
    rewrite (partitionProperties_existing bt s' legacy extras0 e o0)
      by first [assumption | apply Hget; [discriminate | assumption]].
    assert (Hloop : fst (partition_loop bt (folded s' e o0 legacy)) = Ret acc).
    { eapply stable_partition_loop; [|exact Hacc]. rewrite Hheap.
      apply extends_refl. }
    rewrite Hloop. eexists _, _. split; [reflexivity|].
    split; [reflexivity|]. split; [reflexivity|]. split; [reflexivity|].
    split; [rewrite Hheap; apply extends_refl|].
    intros body hierarchy Hh.
    eapply stable_run; [| | |exact Hh].
    + apply keeps_initializeHierarchy.
    + apply stable_initializeHierarchy.
    + rewrite Hheap. apply extends_refl.
Qed.

Section Determinism.
Context {View : Type}.
Variable getBinaryAccessor :
  list object -> value -> outcome (@BinaryAccessor View).

(** The accessor and its views are functions of their arguments and of
    the objects they read: what they return is still what they return
    when the store has grown. *)
Hypothesis accessor_monotone :
  forall p, monotone (fun h => getBinaryAccessor h p).
Hypothesis view_monotone :
  forall h p accessor buffer byteOffset n,
    getBinaryAccessor h p = Ret accessor ->
    monotone (fun h' => createArrayBufferView accessor h' buffer byteOffset n).

Lemma stable_transcode_step fc d body k acc :
  stable (transcode_step getBinaryAccessor fc d body k acc).
Proof.
  unfold transcode_step.
  apply stable_bind; [reads | reads | intros isOwn].
  destruct (negb isOwn); [apply stable_ret|].
  apply stable_bind; [reads | reads | intros p].
  apply stable_bind_dep;
    [apply keeps_read | apply stable_read, accessor_monotone |].
  intros accessor s0 Hs0. simpl in Hs0.
  do 7 (apply stable_bind; [reads | reads | intros ?]).
  apply stable_bind; [reads | | intros ?; reads].
  apply stable_read. eapply view_monotone. exact Hs0.
Qed.

Lemma stable_transcodeBinaryProperties fc d body :
  stable (transcodeBinaryProperties getBinaryAccessor fc d body).
Proof.
  unfold transcodeBinaryProperties.
  apply stable_bind; [reads | reads | intros ks].
  apply stable_bind; [| | intros acc; apply stable_ret].
  - apply keeps_for_each. intros k acc. apply keeps_transcode_step.
  - apply stable_for_each; intros k acc;
      [apply keeps_transcode_step | apply stable_transcode_step].
Qed.

(** A run that returns a bundle returns the same schema, the same feature
    table (class, count, slot of every property, views, JSON table,
    hierarchy) and the same extras when it is made again on the same
    arguments, whether the store is as the first run found it or as the
    first run left it, and whatever has been warned about meanwhile. *)
Lemma parseBatchTable_again opts s bundle s1 :
  parseBatchTable getBinaryAccessor opts s = (Ret bundle, s1) ->
  forall s',
    heap s' = heap s \/ heap s' = heap s1 ->
    exists bundle' s1',
      parseBatchTable getBinaryAccessor opts s' = (Ret bundle', s1') /\
      fm_schema bundle' = fm_schema bundle /\
      fm_featureTables bundle' = fm_featureTables bundle /\
      fm_extras bundle' = fm_extras bundle.
Proof.
  intros H s' Hs'.
  apply parseBatchTable_inv in H
    as (Hc & Hb & Hy & r & s0 & hierarchy & t & Hr & Hh & Ht & -> & ->).
  destruct (partitionProperties_again _ _ _ _ Hr s' Hs')
    as (r' & s1' & Hr' & Hbin & Hjson & Hextras & Hext & Hh').
  specialize (Hh' _ _ Hh).
  assert (Ht' : transcodeBinaryProperties getBinaryAccessor (count opts)
                  (binaryProperties r') (binaryBody opts) s1' = (Ret t, s1')).
  { rewrite Hbin. eapply stable_run; [| |exact Hext|exact Ht].
    - apply keeps_transcodeBinaryProperties.
    - apply stable_transcodeBinaryProperties. }
  eexists _, _. split.
  - apply (parseBatchTable_run _ _ _ _ _ _ _ Hc Hb Hy Hr' Hh' Ht').
  - simpl. rewrite Hjson, Hextras. repeat split; reflexivity.
Qed.
End Determinism.

(** ** The partitioning loop *)

Section PartitionLoop.
Variables (b : loc) (o : object) (s : state).
Hypothesis table_stored : heap s !! b = Some o.
Hypothesis table_ordinary : obj_class_of o = ClsObject.
Hypothesis builtin_guard : hides_hasOwnProperty o = false.
Hypothesis values_stored :
  forall k l, assoc k (own o) = Some (VObj l) -> is_Some (heap s !! l).

Lemma hasOwnProperty_table k :
  hasOwnProperty (VObj b) k s = (Ret (bool_decide (k ∈ keys (own o))), s).
Proof.
  unfold hasOwnProperty, read. simpl.
  rewrite table_stored, builtin_guard. unfold owns.
  rewrite table_ordinary. reflexivity.
Qed.

Lemma isArray_stored k v :
  assoc k (own o) = Some v ->
  isArray v s = (Ret (is_array (heap s) v), s).
Proof.
  intros Hv. unfold isArray, read, is_array. destruct v; try reflexivity.
  destruct (values_stored _ _ Hv) as [o' ->]. reflexivity.
Qed.

Lemma partition_step_unfold k json binary :
  partition_step (VObj b) k (json, binary) s =
  match sort_of (heap s) o k with
  | Some (true, v) => bind (dict_set json k v) (fun j => ret (j, binary)) s
  | Some (false, v) => bind (dict_set binary k v) (fun j => ret (json, j)) s
  | None => (Ret (json, binary), s)
  end.
Proof.
  unfold partition_step.
  rewrite (bind_run _ _ _ _ _ (hasOwnProperty_table k)).
  unfold sort_of.
  destruct (decide (k ∈ keys (own o))) as [Hown|Hout].
  - rewrite bool_decide_eq_true_2 by exact Hown.
    replace (negb true || bool_decide (k = "HIERARCHY")
             || bool_decide (k = "extensions") || bool_decide (k = "extras"))
      with (reserved k) by reflexivity.
    destruct (reserved k); [reflexivity|].
    apply assoc_is_Some in Hown as [v Hv]. rewrite Hv.
    assert (Hget : get (VObj b) k s = (Ret v, s)).
    { rewrite get_run. simpl. rewrite table_stored. unfold object_get.
      rewrite Hv. reflexivity. }
    rewrite (bind_run _ _ _ _ _ Hget).
    rewrite (bind_run _ _ _ _ _ (isArray_stored k v Hv)).
    destruct (is_array (heap s) v); reflexivity.
  - rewrite bool_decide_eq_false_2 by exact Hout. simpl.
    apply assoc_None in Hout. rewrite Hout.
    destruct (reserved k); reflexivity.
Qed.

(** One turn of the loop: the key goes where [sort_of] says, except that
    [__proto__] goes nowhere. *)
Lemma partition_step_run k json binary :
  (k = "__proto__" ->
   d_proto json = ProtoObject /\ d_proto binary = ProtoObject) ->
  exists json' binary',
    partition_step (VObj b) k (json, binary) s = (Ret (json', binary'), s) /\
    (forall k', k' <> "__proto__" ->
       assoc k' (d_own json') =
         (if decide (k' = k)
          then match sorted_into true (heap s) o k with
               | Some v => Some v
               | None => assoc k' (d_own json)
               end
          else assoc k' (d_own json)) /\
       assoc k' (d_own binary') =
         (if decide (k' = k)
          then match sorted_into false (heap s) o k with
               | Some v => Some v
               | None => assoc k' (d_own binary)
               end
          else assoc k' (d_own binary))) /\
    assoc "__proto__" (d_own json') = assoc "__proto__" (d_own json) /\
    assoc "__proto__" (d_own binary') = assoc "__proto__" (d_own binary) /\
    (k <> "__proto__" ->
     d_proto json' = d_proto json /\ d_proto binary' = d_proto binary).
Proof.
  intros Hproto. rewrite partition_step_unfold. unfold sorted_into.
  assert (Hsame : forall (x : option value) (k' : string),
            (if decide (k' = k) then x else x) = x)
    by (intros; destruct (decide _); reflexivity).
  destruct (sort_of (heap s) o k) as [[[] v]|] eqn:Hsort; simpl.
  - (* an array *)
    assert (Hkind : kind_of v = KObject).
    { unfold sort_of in Hsort. destruct (reserved k); [discriminate|].
      destruct (assoc k (own o)); [|discriminate].
      injection Hsort as Harr <-. destruct v0; try discriminate Harr.
      reflexivity. }
    destruct (decide (k = "__proto__")) as [->|Hk].
    + destruct (Hproto eq_refl) as [Hj _].
      unfold dict_set. rewrite decide_True by reflexivity. rewrite Hj, Hkind.
      eexists _, _. split; [reflexivity|]. simpl.
      split; [|repeat split; try reflexivity; congruence].
      intros k' Hk'. rewrite !decide_False by exact Hk'. split; reflexivity.
    + erewrite bind_run by (apply dict_set_ordinary, Hk).
      eexists _, _. split; [reflexivity|]. simpl.
      split; [|split; [|split; [|split]]]; try reflexivity;
        try (rewrite assoc_own_insert; rewrite decide_False by congruence;
             reflexivity);
        try (intros _; split; reflexivity).
      intros k' _. rewrite assoc_own_insert, Hsame.
      destruct (decide (k' = k)); split; reflexivity.
  - (* not an array *)
    destruct (decide (k = "__proto__")) as [->|Hk].
    + destruct (Hproto eq_refl) as [_ Hb].
      unfold dict_set. rewrite decide_True by reflexivity. rewrite Hb.
      destruct (kind_of v); (eexists _, _; split; [reflexivity|]); simpl;
        (split; [|repeat split; try reflexivity; congruence]);
        intros k' Hk'; rewrite !decide_False by exact Hk';
        split; reflexivity.
    + erewrite bind_run by (apply dict_set_ordinary, Hk).
      eexists _, _. split; [reflexivity|]. simpl.
      split; [|split; [|split; [|split]]]; try reflexivity;
        try (rewrite assoc_own_insert; rewrite decide_False by congruence;
             reflexivity);
        try (intros _; split; reflexivity).
      intros k' _. rewrite assoc_own_insert, Hsame.
      destruct (decide (k' = k)); split; reflexivity.
  - exists json, binary. split; [reflexivity|].
    split; [intros k' _; rewrite !Hsame; split; reflexivity|].
    repeat split; reflexivity.
Qed.
Lemma partition_fold ks :
  forall json binary,
    NoDup ks ->
    ("__proto__" ∈ ks ->
     d_proto json = ProtoObject /\ d_proto binary = ProtoObject) ->
    exists json' binary',
      for_each ks (partition_step (VObj b)) (json, binary) s =
        (Ret (json', binary'), s) /\
      (forall k', k' <> "__proto__" ->
         assoc k' (d_own json') =
           (if decide (k' ∈ ks)
            then match sorted_into true (heap s) o k' with
                 | Some v => Some v
                 | None => assoc k' (d_own json)
                 end
            else assoc k' (d_own json)) /\
         assoc k' (d_own binary') =
           (if decide (k' ∈ ks)
            then match sorted_into false (heap s) o k' with
                 | Some v => Some v
                 | None => assoc k' (d_own binary)
                 end
            else assoc k' (d_own binary))) /\
      assoc "__proto__" (d_own json') = assoc "__proto__" (d_own json) /\
      assoc "__proto__" (d_own binary') = assoc "__proto__" (d_own binary).
Proof.
  induction ks as [|k ks IH]; intros json binary Hnd Hproto.
  - exists json, binary. split; [reflexivity|].
    split; [|split; reflexivity].
    intros k' _. rewrite decide_False by apply not_elem_of_nil.
    split; reflexivity.
  - apply NoDup_cons in Hnd as [Hk Hnd].
    destruct (partition_step_run k json binary) as
      (json1 & binary1 & Hstep & Hassoc1 & Hpj1 & Hpb1 & Hprot1).
    { intros ->. apply Hproto. left. }
    destruct (IH json1 binary1 Hnd) as
      (json' & binary' & Hrun & Hassoc & Hpj & Hpb).
    { intros Hin.
      assert (Hne : k <> "__proto__") by (intros ->; contradiction).
      destruct (Hprot1 Hne) as [-> ->]. apply Hproto. right. exact Hin. }
    exists json', binary'. split; [|split; [|split]].
    + simpl. rewrite (bind_run _ _ _ _ _ Hstep). exact Hrun.
    + intros k' Hk'. destruct (Hassoc k' Hk') as [Hj Hb].
      destruct (Hassoc1 k' Hk') as [Hj1 Hb1].
      destruct (decide (k' = k)) as [->|Hne].
      * rewrite !(decide_False (P := k ∈ ks)) in Hj, Hb by exact Hk.
        rewrite !(decide_True (P := k ∈ k :: ks)) by left.
        rewrite Hj, Hb, Hj1, Hb1. split; reflexivity.
      * rewrite Hj1 in Hj. rewrite Hb1 in Hb. rewrite Hj, Hb.
        destruct (decide (k' ∈ ks)) as [Hin|Hout].
        -- rewrite !(decide_True (P := k' ∈ k :: ks)) by (right; exact Hin).
           split; reflexivity.
        -- assert (Hout' : k' ∉ k :: ks)
             by (intros Hin; apply elem_of_cons in Hin as [?|?]; contradiction).
           rewrite !(decide_False (P := k' ∈ k :: ks)) by exact Hout'.
           split; reflexivity.
    + congruence.
    + congruence.
Qed.

Lemma dict_set_NoDup (d d' : dict value) k v s' :
  dict_set d k v s = (Ret d', s') ->
  NoDup (keys (d_own d)) -> NoDup (keys (d_own d')).
Proof.
  unfold dict_set. intros H Hnd.
  destruct (decide (k = "__proto__")).
  - destruct (d_proto d).
    + destruct (kind_of v); injection H as <- _; exact Hnd.
    + injection H as <- _. apply NoDup_keys_own_insert, Hnd.
    + discriminate H.
  - injection H as <- _. apply NoDup_keys_own_insert, Hnd.
Qed.

Lemma partition_fold_NoDup ks :
  forall json binary json' binary',
    for_each ks (partition_step (VObj b)) (json, binary) s =
      (Ret (json', binary'), s) ->
    NoDup (keys (d_own json)) -> NoDup (keys (d_own binary)) ->
    NoDup (keys (d_own json')) /\ NoDup (keys (d_own binary')).
Proof.
  induction ks as [|k ks IH]; intros json binary json' binary' H Hj Hb.
  - injection H as <- <-. split; assumption.
  - rewrite for_each_cons in H.
    apply bind_ret_inv in H as ([json1 binary1] & s1 & Hstep & H).
    assert (s1 = s) as ->
      by (eapply keeps_state, Hstep; apply keeps_partition_step).
    apply (IH _ _ _ _ H); rewrite partition_step_unfold in Hstep;
      destruct (sort_of (heap s) o k) as [[[] v]|];
      try (injection Hstep as <- <-; assumption);
      apply bind_ret_inv in Hstep as (d' & s2 & Hset & Hret);
      injection Hret as <- <-; try assumption;
      eapply dict_set_NoDup; eassumption.
Qed.

Lemma first_visits_complete seen l k :
  k ∈ l -> k ∉ seen -> k ∈ first_visits seen l.
Proof.
  revert seen. induction l as [|k1 l IH]; intros seen Hin Hout; simpl.
  - exact Hin.
  - destruct (decide (k = k1)) as [->|Hne].
    + rewrite decide_False by exact Hout. left.
    + apply elem_of_cons in Hin as [?|Hin]; [contradiction|].
      destruct (decide (k1 ∈ seen)).
      * apply IH; assumption.
      * right. apply IH; [assumption|].
        intros H. apply elem_of_cons in H as [?|?]; contradiction.
Qed.

(** Where the loop leaves every key of an ordinary batch table whose
    [hasOwnProperty] is the built-in: an own key that is not reserved is, with
    its value, among the JSON properties when the value is an array and among
    the binary ones when it is not, in the one and not in the other; a
    reserved key and a key that is not an own one are in neither. The one
    exception is [__proto__], which is in neither whatever it holds. The own
    keys of each partition are distinct. *)
Lemma partition_loop_sorts :
  exists json binary,
    partition_loop (VObj b) s = (Ret (json, binary), s) /\
    (forall k, k <> "__proto__" ->
       assoc k (d_own json) = sorted_into true (heap s) o k /\
       assoc k (d_own binary) = sorted_into false (heap s) o k) /\
    assoc "__proto__" (d_own json) = None /\
    assoc "__proto__" (d_own binary) = None /\
    NoDup (keys (d_own json)) /\
    NoDup (keys (d_own binary)).
Proof.
  set (ks := first_visits [] (keys (own o) ++ keys (inherited o))).
  assert (Hks : for_in_keys (VObj b) s = (Ret ks, s)).
  { unfold for_in_keys, read. simpl. rewrite table_stored.
    unfold enumerable_keys. rewrite table_ordinary. reflexivity. }
  destruct (partition_fold ks empty_dict empty_dict) as
    (json & binary & Hrun & Hassoc & Hpj & Hpb).
  { apply NoDup_first_visits. }
  { intros _. split; reflexivity. }
  destruct (partition_fold_NoDup ks _ _ _ _ Hrun) as [Hndj Hndb];
    try apply NoDup_nil_2.
  exists json, binary. split; [|split; [|split; [|split; [|split]]]];
    try assumption.
  - unfold partition_loop. rewrite (bind_run _ _ _ _ _ Hks). exact Hrun.
  - intros k Hk. destruct (Hassoc k Hk) as [-> ->]. simpl.
    destruct (decide (k ∈ ks)) as [Hin|Hout].
    + split; destruct (sorted_into _ _ _ _); reflexivity.
    + assert (Hnone : sort_of (heap s) o k = None).
      { unfold sort_of. destruct (reserved k); [reflexivity|].
        destruct (assoc k (own o)) eqn:E; [|reflexivity].
        exfalso. apply Hout. apply first_visits_complete;
          [|apply not_elem_of_nil].
        apply elem_of_app. left. apply assoc_is_Some. eauto. }
      unfold sorted_into. rewrite Hnone. split; reflexivity.
Qed.
End PartitionLoop.

(** ** The accessor of the examples *)

Lemma specBinaryAccessor_monotone p :
  monotone (fun h => specBinaryAccessor h p).
Proof.
  intros h h' a He H. unfold specBinaryAccessor in *.
  destruct (get_in h p "componentType") as [c| |] eqn:Ec;
    destruct (get_in h p "type") as [t| |] eqn:Et; try discriminate.
  rewrite (monotone_get_in _ _ _ _ _ He Ec), (monotone_get_in _ _ _ _ _ He Et).
  exact H.
Qed.

Lemma specBinaryAccessor_view_monotone h p accessor buffer byteOffset n :
  specBinaryAccessor h p = Ret accessor ->
  monotone (fun h' => createArrayBufferView accessor h' buffer byteOffset n).
Proof.
  unfold specBinaryAccessor. intros H.
  destruct (get_in h p "componentType") as [c| |];
    destruct (get_in h p "type") as [t| |]; try discriminate.
  injection H as <-. intros h1 h2 a _ Ha. exact Ha.
Qed.

Lemma example_transcodable :
  transcodable specBinaryAccessor (VNum (Int 2)) Example.binary (VObj 0)
               Example.store.
Proof.
  unfold transcodable. split; [|split; [|split; [|split]]].
  - apply NoDup_ListNoDup. repeat constructor; simpl; intuition discriminate.
  - intros H. apply list_elem_of_In in H. simpl in H. intuition discriminate.
  - eexists. vm_compute. reflexivity.
  - intros k. reflexivity.
  - intros k p H. apply list_elem_of_In in H. simpl in H.
    destruct H as [H|[H|[]]]; injection H as <- <-;
      eexists; vm_compute; reflexivity.
Qed.

(** ** The theorems at the examples *)

(** The run the spec describes. *)
Example scenario_run :
  parseBatchTable specBinaryAccessor (options_of 2) Scenario.store =
  (Ret Scenario.bundle, Scenario.store).
Proof. reflexivity. Qed.

Lemma transcodeBinaryProperties_views_witness :
  transcodable specBinaryAccessor (VNum (Int 2)) Example.binary (VObj 0)
               Example.store /\
  exists t,
    transcodeBinaryProperties specBinaryAccessor (VNum (Int 2)) Example.binary
                              (VObj 0) Example.store = (Ret t, Example.store) /\
    slot_lookup 1%nat (bufferViewsU8 t) =
    Some {| view_componentType := VStr "UNSIGNED_BYTE";
            view_type := VStr "VEC3";
            view_buffer := VObj 1;
            view_byteOffset := VNum (Int 8);
            view_length := VNum (Int 2) |}.
Proof.
  split; [exact example_transcodable|].
  destruct (transcodeBinaryProperties_views specBinaryAccessor _ _ _ _
              example_transcodable) as [_ (t & Ht & _)].
  exists t. split; [exact Ht|].
  vm_compute in Ht. injection Ht as <-. reflexivity.
Defined.

Lemma transcodeBinaryProperties_slots_witness :
  transcodable specBinaryAccessor (VNum (Int 2)) Example.binary (VObj 0)
               Example.store /\
  exists t,
    transcodeBinaryProperties specBinaryAccessor (VNum (Int 2)) Example.binary
                              (VObj 0) Example.store = (Ret t, Example.store) /\
    assoc "height" (d_own (ftj_properties (featureTableJson t))) =
      Some {| bufferView := 0 |} /\
    assoc "color" (d_own (ftj_properties (featureTableJson t))) =
      Some {| bufferView := 1 |} /\
    map fst (bufferViewsU8 t) = [0; 1]%nat.
Proof.
  split; [exact example_transcodable|].
  destruct (transcodeBinaryProperties_slots specBinaryAccessor _ _ _ _
              example_transcodable) as (t & rest & Ht & _ & Hslot & _ & Hall).
  exists t. split; [exact Ht|].
  split; [exact (proj1 (Hslot 0%nat "height" (VObj 3) eq_refl))|].
  split; [exact (proj1 (Hslot 1%nat "color" (VObj 5) eq_refl))|].
  exact Hall.
Defined.

Lemma transcodePropertyType_descriptor_witness :
  get (VObj 5) "componentType" Example.store =
    (Ret (VStr "UNSIGNED_BYTE"), Example.store) /\
  get (VObj 5) "type" Example.store = (Ret (VStr "VEC3"), Example.store) /\
  transcodePropertyType (VObj 5) Example.store =
  (Ret {| td_type := VStr "ARRAY";
          td_componentType := Some (VStr "UINT8");
          td_componentCount := Some (Int 3) |}, Example.store).
Proof.
  split; [reflexivity|]. split; [reflexivity|].
  apply (proj2 (transcodePropertyType_descriptor (VObj 5) Example.store
                  (VStr "UNSIGNED_BYTE") "VEC3" eq_refl eq_refl) 3).
  simpl. tauto.
Defined.

Lemma partitionProperties_folds_hierarchy_witness :
  get (VObj 2) "HIERARCHY" Legacy.store = (Ret (VObj 3), Legacy.store) /\
  get (VObj 2) "extensions" Legacy.store = (Ret VUndefined, Legacy.store) /\
  warnings (snd (partitionProperties (VObj 2) Legacy.store)) =
    [hierarchy_warning] /\
  exists r,
    fst (partitionProperties (VObj 2) Legacy.store) = Ret r /\
    extensions r = VObj 5 /\
    heap (snd (partitionProperties (VObj 2) Legacy.store)) !! 5%nat =
    Some (plain_object [("3DTILES_batch_table_hierarchy", VObj 3)]).
Proof.
  split; [reflexivity|]. split; [reflexivity|].
  destruct (partitionProperties_folds_hierarchy (VObj 2) Legacy.store (VObj 3)
              VUndefined eq_refl eq_refl eq_refl (or_introl eq_refl))
    as (Hw & e & o' & Hr & He & _ & Hnew & _).
  split; [exact Hw|].
  destruct (fst (partitionProperties (VObj 2) Legacy.store)) as [r| |] eqn:E;
    try (vm_compute in E; discriminate E).
  exists r. split; [reflexivity|].
  destruct (Hnew eq_refl) as [Hheap ->].
  assert (e = 5%nat) as ->.
  { apply lookup_lt_Some in He as Hlt. rewrite Hheap in He, Hlt.
    rewrite length_app in Hlt. simpl in Hlt.
    destruct (decide (e = 5%nat)) as [|Hne]; [assumption|].
    specialize (Hr r eq_refl).
    vm_compute in E. injection E as <-. simpl in Hr. congruence. }
  split; [exact (Hr r eq_refl) | exact He].
Defined.

Lemma partitionProperties_writes_extensions_witness :
  get (VObj 2) "HIERARCHY" LegacyExtensions.store =
    (Ret (VObj 3), LegacyExtensions.store) /\
  get (VObj 2) "extensions" LegacyExtensions.store =
    (Ret (VObj 5), LegacyExtensions.store) /\
  heap LegacyExtensions.store !! 5%nat = Some LegacyExtensions.given /\
  (exists r,
     fst (partitionProperties (VObj 2) LegacyExtensions.store) = Ret r /\
     extensions r = VObj 5) /\
  get_in (heap (snd (partitionProperties (VObj 2) LegacyExtensions.store)))
         (VObj 5) "3DTILES_batch_table_hierarchy" = Ret (VObj 3) /\
  get_in (heap (snd (partitionProperties (VObj 2) LegacyExtensions.store)))
         (VObj 5) "vendor" = Ret (VStr "kept").
Proof.
  split; [reflexivity|]. split; [reflexivity|]. split; [reflexivity|].
  destruct (partitionProperties_writes_extensions (VObj 2)
              LegacyExtensions.store (VObj 3) 5%nat LegacyExtensions.given
              eq_refl eq_refl eq_refl eq_refl)
    as (Hr & _ & Hkey & _ & Hother & _).
  split; [|split].
  - destruct (fst (partitionProperties (VObj 2) LegacyExtensions.store))
      as [r| |] eqn:E; try (vm_compute in E; discriminate E).
    exists r. split; [reflexivity | exact (Hr r eq_refl)].
  - exact (f_equal fst Hkey).
  - rewrite Hother by discriminate. reflexivity.
Defined.

Lemma initializeHierarchy_absent_or_built_witness :
  get (VObj 2) "HIERARCHY" Example.store = (Ret VUndefined, Example.store) /\
  get (VObj 2) "extensions" Example.store = (Ret VUndefined, Example.store) /\
  exists bundle,
    parseBatchTable specBinaryAccessor (options_of 2) Example.store =
      (Ret bundle, Example.store) /\
    forall id table,
      (id, table) ∈ fm_featureTables bundle ->
      ft_batchTableHierarchy table = None.
Proof.
  split; [reflexivity|]. split; [reflexivity|].
  destruct (parseBatchTable specBinaryAccessor (options_of 2) Example.store)
    as [[bundle| |] s'] eqn:E; try (vm_compute in E; discriminate E).
  destruct (initializeHierarchy_absent_or_built specBinaryAccessor VUndefined
              (VObj 0) Example.store) as (_ & _ & Hrun).
  destruct (Hrun (options_of 2) bundle s' VUndefined E eq_refl eq_refl eq_refl
              (or_introl eq_refl)) as [-> Hnone].
  exists bundle. split; [reflexivity | exact Hnone].
Defined.


Lemma parseBatchTable_again_legacy :
  exists bundle s1,
    parseBatchTable specBinaryAccessor (options_of 2) Legacy.store =
      (Ret bundle, s1) /\
    s1 <> Legacy.store /\
    exists bundle' s2,
      parseBatchTable specBinaryAccessor (options_of 2) s1 = (Ret bundle', s2) /\
      fm_schema bundle' = fm_schema bundle /\
      fm_featureTables bundle' = fm_featureTables bundle.
Proof.
  destruct (parseBatchTable specBinaryAccessor (options_of 2) Legacy.store)
    as [[bundle| |] s1] eqn:E; try (vm_compute in E; discriminate E).
  exists bundle, s1. split; [reflexivity|]. split.
  - vm_compute in E. injection E as _ <-. discriminate.
  - destruct (parseBatchTable_again specBinaryAccessor
                specBinaryAccessor_monotone specBinaryAccessor_view_monotone
                (options_of 2) Legacy.store bundle s1 E s1 (or_intror eq_refl))
      as (bundle' & s2 & Hrun & Hschema & Htables & _).
    exists bundle', s2. auto.
Defined.

(** ** Where the code departs *)

(** C5, at two batch tables. On [{"hasOwnProperty": [1]}] the call
    [batchTable.hasOwnProperty(propertyId)] finds the array, which is not a
    function: the function throws and there are no partitions. On
    [{"__proto__": [1], "height": {...}}] the function returns, and the own
    key [__proto__], which is not reserved and whose value is an array, is in
    neither partition: the assignment replaced the prototype of the JSON
    partition instead. *)
Theorem partitionProperties_misses_names :
  partitionProperties (VObj 2) Shadowed.store =
    (Throw TypeError, Shadowed.store) /\
  exists r,
    partitionProperties (VObj 2) NamedProto.store = (Ret r, NamedProto.store) /\
    hasOwnProperty (VObj 2) "__proto__" NamedProto.store =
      (Ret true, NamedProto.store) /\
    isArray (VObj 3) NamedProto.store = (Ret true, NamedProto.store) /\
    ("__proto__" ∉ keys (d_own (jsonProperties r))) /\
    ("__proto__" ∉ keys (d_own (binaryProperties r))) /\
    d_proto (jsonProperties r) = ProtoIs (VObj 3).
Proof.
  split; [reflexivity|].
  eexists. split; [vm_compute; reflexivity|].
  split; [reflexivity|]. split; [reflexivity|]. simpl.
  split; [apply not_elem_of_nil|]. split; [|reflexivity].
  intros H. apply list_elem_of_In in H. simpl in H. intuition discriminate.
Qed.


(** * Further properties *)

(** ** The type mapper at its edges *)

(** The digit [parseInt] finds at a position of a tag. *)
Lemma parseInt_charAt ty i s :
  (let* digit := charAt (VStr ty) i in parseInt digit) s =
  (Ret (digit_at ty i), s).
Proof.
  unfold charAt, digit_at, bind, ret. simpl.
  destruct (code_units ty !! i) as [u|]; reflexivity.
Qed.

(** X1. [transcodePropertyType] does not check the type tag: for every
    string other than SCALAR it returns an ARRAY descriptor whose component
    count is the decimal digit that is the code unit at position 3 of the
    tag, and NaN when the tag has fewer than four code units or another
    unit there. Positions count UTF-16 code units, as [charAt] does. So MAT4
    counts 4 components and VEC counts NaN. *)
Theorem transcodePropertyType_unchecked_tag property s componentType type :
  get property "componentType" s = (Ret componentType, s) ->
  get property "type" s = (Ret (VStr type), s) ->
  type <> "SCALAR" ->
  transcodePropertyType property s =
  (Ret {| td_type := VStr "ARRAY";
          td_componentType := Some (transcodeComponentType componentType);
          td_componentCount :=
            Some (match code_units type !! 3%nat with
                  | Some u =>
                      if ((48 <=? u) && (u <=? 57))%N
                      then Int (Z.of_N (u - 48))
                      else NaN
                  | None => NaN
                  end) |}, s).
Proof.
  intros Hc Ht Hn. unfold transcodePropertyType.
  rewrite (bind_run _ _ _ _ _ Hc), (bind_run _ _ _ _ _ Ht).
  rewrite decide_False by congruence.
  pose proof (parseInt_charAt type 3 s) as Hd.
  unfold bind in Hd |- *.
  destruct (charAt (VStr type) 3 s) as [[digit| |] s1]; try discriminate Hd.
  destruct (parseInt digit s1) as [[n| |] s2]; try discriminate Hd.
  injection Hd as -> ->. reflexivity.
Qed.

Lemma transcodePropertyType_unchecked_tag_witness :
  get (VObj 3) "type" MatrixType.store = (Ret (VStr "MAT4"), MatrixType.store) /\
  td_componentCount <$>
    to_option (fst (transcodePropertyType (VObj 3) MatrixType.store)) =
    Some (Some (Int 4)) /\
  td_componentCount <$>
    to_option (fst (transcodePropertyType (VObj 4) MatrixType.store)) =
    Some (Some NaN) /\
  get (VObj 6) "type" MatrixType.store = (Ret (VStr "éab4"), MatrixType.store) /\
  td_componentCount <$>
    to_option (fst (transcodePropertyType (VObj 6) MatrixType.store)) =
    Some (Some (Int 4)) /\
  td_componentCount <$>
    to_option (fst (transcodePropertyType (VObj 7) MatrixType.store)) =
    Some (Some (Int 2)).
Proof.
  split; [reflexivity|]. split; [|split; [|split; [reflexivity|split]]].
  - rewrite (transcodePropertyType_unchecked_tag (VObj 3) MatrixType.store
               (VStr "FLOAT") "MAT4" eq_refl eq_refl); [reflexivity|].
    discriminate.
  - rewrite (transcodePropertyType_unchecked_tag (VObj 4) MatrixType.store
               (VStr "FLOAT") "VEC" eq_refl eq_refl); [reflexivity|].
    discriminate.
  - rewrite (transcodePropertyType_unchecked_tag (VObj 6) MatrixType.store
               (VStr "FLOAT") "éab4" eq_refl eq_refl); [reflexivity|].
    discriminate.
  - rewrite (transcodePropertyType_unchecked_tag (VObj 7) MatrixType.store
               (VStr "FLOAT") "a😀2" eq_refl eq_refl); [reflexivity|].
    discriminate.
Defined.

(** X2. [transcodePropertyType] throws a TypeError, and changes nothing,
    when the property is undefined or null, and when its type is anything
    but a string: a missing type, a number, an object. *)
Theorem transcodePropertyType_needs_tag property s :
  (defined property = false \/
   exists type,
     get property "type" s = (Ret type, s) /\ forall tag, type <> VStr tag) ->
  transcodePropertyType property s = (Throw TypeError, s).
Proof.
  intros [Hd | (type & Ht & Hn)].
  - destruct property; try discriminate Hd; reflexivity.
  - destruct (get_other _ _ "componentType" _ _ Ht) as [c Hc].
    unfold transcodePropertyType.
    rewrite (bind_run _ _ _ _ _ Hc), (bind_run _ _ _ _ _ Ht).
    rewrite decide_False by apply Hn.
    destruct type; try reflexivity. exfalso. eapply Hn. reflexivity.
Qed.

Lemma transcodePropertyType_needs_tag_witness :
  get (VObj 5) "type" MatrixType.store = (Ret VUndefined, MatrixType.store) /\
  transcodePropertyType (VObj 5) MatrixType.store =
    (Throw TypeError, MatrixType.store) /\
  transcodePropertyType VNull MatrixType.store =
    (Throw TypeError, MatrixType.store).
Proof.
  split; [reflexivity|]. split.
  - apply transcodePropertyType_needs_tag. right. exists VUndefined.
    split; [reflexivity | discriminate].
  - apply transcodePropertyType_needs_tag. left. reflexivity.
Defined.

(** X3. [transcodeComponentType] conflates no two component types: two
    values with the same result that is not undefined are the same value.
    The result is undefined or one of the eight target tags, and never one of
    the legacy tags. *)
Theorem transcodeComponentType_injective a b :
  transcodeComponentType a = transcodeComponentType b ->
  transcodeComponentType a <> VUndefined ->
  a = b /\
  (exists target,
     transcodeComponentType a = VStr target /\
     target ∈ map snd legacy_component_types /\
     target ∉ map fst legacy_component_types).
Proof.
  unfold transcodeComponentType.
  repeat (destruct (decide (a = _)) as [->|?]);
    repeat (destruct (decide (b = _)) as [->|?]);
    intros H Hu; try discriminate H; try contradiction;
    (split; [reflexivity|]);
    (eexists; split; [reflexivity|]);
    (split; [apply list_elem_of_In; simpl; tauto|]);
    intros Hin; apply list_elem_of_In in Hin; simpl in Hin;
    intuition discriminate.
Qed.

Lemma transcodeComponentType_injective_witness :
  transcodeComponentType (VStr "SHORT") = transcodeComponentType (VStr "SHORT")
  /\ transcodeComponentType (VStr "SHORT") = VStr "INT16".
Proof.
  assert (Hu : transcodeComponentType (VStr "SHORT") <> VUndefined)
    by discriminate.
  destruct (transcodeComponentType_injective (VStr "SHORT") (VStr "SHORT")
              eq_refl Hu) as [_ (target & Ht & _)].
  split; reflexivity.
Defined.

(** ** The class schema *)

Section Schema.
Context {View : Type}.
Variable getBinaryAccessor :
  list object -> value -> outcome (@BinaryAccessor View).

(** X4. The schema [transcodeBinaryProperties] returns has one class, named
    [_batchTable], and [transcodedClass] is that class. The class has a
    property for each binary property and for nothing else, and under each
    key the descriptor [transcodePropertyType] gives for that property. The
    feature table names the same class and carries the feature count it was
    given. *)
Theorem transcodeBinaryProperties_schema fc d body s :
  transcodable getBinaryAccessor fc d body s ->
  exists t c,
    transcodeBinaryProperties getBinaryAccessor fc d body s = (Ret t, s) /\
    schema_classes (transcodedSchema t) = [("_batchTable", c)] /\
    transcodedClass t = Some c /\
    ftj_class (featureTableJson t) = "_batchTable" /\
    ftj_count (featureTableJson t) = fc /\
    (forall k p, (k, p) ∈ d_own d ->
       exists ty,
         transcodePropertyType p s = (Ret ty, s) /\
         assoc k (d_own (class_properties c)) = Some ty) /\
    (forall k,
       k ∈ keys (d_own (class_properties c)) <-> k ∈ keys (d_own d)).
Proof.
  intros Hd.
  destruct (transcodeBinaryProperties_run getBinaryAccessor _ _ _ _ Hd)
    as (acc & Hrun & _ & Hown & Hrest).
  eexists. exists {| class_properties := acc_classProperties acc |}.
  split; [exact Hrun|]. simpl.
  split; [reflexivity|]. split; [reflexivity|].
  split; [reflexivity|]. split; [reflexivity|]. split.
  - intros k p Hin. apply list_elem_of_lookup in Hin as [i Hi].
    destruct (Hown _ _ _ Hi) as (ty & v & Hp & _ & Hc & _).
    exists ty. split; [|exact Hc].
    apply transcode_property_inv in Hp.
    destruct Hp as (? & ? & ? & ? & ? & _ & Hty & _). exact Hty.
  - intros k. split; intros Hk.
    + destruct (decide (k ∈ keys (d_own d))) as [|Hn]; [assumption|].
      apply Hrest in Hn as [_ Hn]. apply assoc_is_Some in Hk.
      rewrite Hn in Hk. destruct Hk; discriminate.
    + apply list_elem_of_fmap in Hk as ([k' p] & -> & Hin).
      apply list_elem_of_lookup in Hin as [i Hi].
      destruct (Hown _ _ _ Hi) as (ty & v & _ & _ & Hc & _).
      apply assoc_is_Some. simpl. rewrite Hc. eauto.
Qed.
End Schema.

Lemma transcodeBinaryProperties_schema_witness :
  transcodable specBinaryAccessor (VNum (Int 2)) Example.binary (VObj 0)
               Example.store /\
  exists t c,
    transcodeBinaryProperties specBinaryAccessor (VNum (Int 2)) Example.binary
                              (VObj 0) Example.store = (Ret t, Example.store) /\
    transcodedClass t = Some c /\
    assoc "color" (d_own (class_properties c)) =
    Some {| td_type := VStr "ARRAY";
            td_componentType := Some (VStr "UINT8");
            td_componentCount := Some (Int 3) |}.
Proof.
  split; [exact example_transcodable|].
  destruct (transcodeBinaryProperties_schema specBinaryAccessor _ _ _ _
              example_transcodable)
    as (t & c & Hrun & _ & Hc & _ & _ & Hown & _).
  exists t, c. split; [exact Hrun|]. split; [exact Hc|].
  destruct (Hown "color" (VObj 5)) as (ty & Hty & Hk).
  { apply list_elem_of_In. simpl. tauto. }
  rewrite Hk. f_equal.
  assert (Hrun' : transcodePropertyType (VObj 5) Example.store =
                  (Ret {| td_type := VStr "ARRAY";
                          td_componentType := Some (VStr "UINT8");
                          td_componentCount := Some (Int 3) |}, Example.store))
    by reflexivity.
  rewrite Hrun' in Hty. injection Hty as <-. reflexivity.
Defined.

(** ** What partitionProperties does to the state *)

(** With a legacy hierarchy and extensions that are defined but no stored
    object, the assignment fails after the warning. *)
Lemma partitionProperties_no_target bt s legacy extras0 ev :
  get bt "HIERARCHY" s = (Ret legacy, s) ->
  get bt "extras" s = (Ret extras0, s) ->
  get bt "extensions" s = (Ret ev, s) ->
  defined legacy = true ->
  defined ev = true ->
  (forall e, ev = VObj e -> heap s !! e = None) ->
  partitionProperties bt s =
  (match ev with VObj _ => Unmodelled | _ => Throw TypeError end, warned s).
Proof.
  intros Hl Hx He Hdl Hde Hno. unfold partitionProperties.
  rewrite (bind_run _ _ _ _ _ Hl), (bind_run _ _ _ _ _ Hx),
    (bind_run _ _ _ _ _ He), Hdl, Hde.
  destruct ev; try discriminate Hde; try reflexivity.
  unfold bind, deprecationWarning, ret, put, get_heap, bind. simpl.
  rewrite (Hno _ eq_refl). reflexivity.
Qed.

(** X6. A batch table with a legacy HIERARCHY whose [extensions] is a
    boolean, a number or a string makes [partitionProperties] throw a
    TypeError: the assignment to a property of a primitive fails in the
    module's strict code. The warning has been given by then; the store is
    untouched. *)
Theorem partitionProperties_primitive_extensions bt s legacy ev :
  get bt "HIERARCHY" s = (Ret legacy, s) ->
  get bt "extensions" s = (Ret ev, s) ->
  defined legacy = true ->
  defined ev = true ->
  (forall e, ev <> VObj e) ->
  partitionProperties bt s = (Throw TypeError, warned s).
Proof.
  intros Hl He Hdl Hde Hprim.
  destruct (get_other _ _ "extras" _ _ Hl) as [extras0 Hx].
  rewrite (partitionProperties_no_target _ _ _ _ _ Hl Hx He Hdl Hde).
  - destruct ev; try reflexivity. exfalso. eapply Hprim. reflexivity.
  - intros e ->. exfalso. eapply Hprim. reflexivity.
Qed.

Lemma partitionProperties_primitive_extensions_witness :
  get (VObj 2) "extensions" PrimitiveExtensions.store =
    (Ret (VBool true), PrimitiveExtensions.store) /\
  partitionProperties (VObj 2) PrimitiveExtensions.store =
    (Throw TypeError, warned PrimitiveExtensions.store) /\
  warnings (warned PrimitiveExtensions.store) = [hierarchy_warning].
Proof.
  split; [reflexivity|]. split; [|reflexivity].
  apply (partitionProperties_primitive_extensions (VObj 2)
           PrimitiveExtensions.store (VObj 3) (VBool true));
    try reflexivity.
  discriminate.
Defined.

(** Every way [partitionProperties] can leave the state in. *)
Lemma partitionProperties_state bt s :
  let s' := snd (partitionProperties bt s) in
  (s' = s /\
   forall legacy,
     get_in (heap s) bt "HIERARCHY" = Ret legacy -> defined legacy = false) \/
  (exists legacy,
     get_in (heap s) bt "HIERARCHY" = Ret legacy /\ defined legacy = true /\
     (s' = warned s \/
      s' = folded_new s legacy \/
      exists e o,
        get_in (heap s) bt "extensions" = Ret (VObj e) /\
        heap s !! e = Some o /\
        s' = folded s e o legacy)).
Proof.
  simpl. destruct (get_in (heap s) bt "HIERARCHY") as [legacy| |] eqn:Hl.
  - assert (Hl' : get bt "HIERARCHY" s = (Ret legacy, s))
      by (rewrite get_run, Hl; reflexivity).
    destruct (get_other _ _ "extras" _ _ Hl') as [extras0 Hx].
    destruct (get_other _ _ "extensions" _ _ Hl') as [ev He].
    assert (He' : get_in (heap s) bt "extensions" = Ret ev)
      by (rewrite get_run in He; congruence).
    destruct (defined legacy) eqn:Hdl.
    + right. exists legacy. split; [reflexivity|]. split; [exact Hdl|].
      destruct (defined ev) eqn:Hde.
      * destruct ev as [| | | | |e]; try discriminate Hde.
        1-3: left;
          rewrite (partitionProperties_no_target _ _ _ _ _ Hl' Hx He Hdl Hde)
            by discriminate; reflexivity.
        destruct (heap s !! e) as [o|] eqn:Ho.
        -- right. right. exists e, o. split; [exact He'|].
           split; [exact Ho|].
           rewrite (partitionProperties_existing _ _ _ _ _ _ Hl' Hx He Hdl Ho).
           reflexivity.
        -- left.
           rewrite (partitionProperties_no_target _ _ _ _ _ Hl' Hx He Hdl Hde).
           ++ reflexivity.
           ++ intros e' [= <-]. exact Ho.
      * right. left.
        rewrite (partitionProperties_new _ _ _ _ _ Hl' Hx He Hdl Hde).
        reflexivity.
    + left. split.
      * rewrite (partitionProperties_plain _ _ _ _ _ Hl' Hx He Hdl).
        reflexivity.
      * intros ? [= <-]. exact Hdl.
  - left. split; [|discriminate].
    unfold partitionProperties, bind. rewrite get_run, Hl. reflexivity.
  - left. split; [|discriminate].
    unfold partitionProperties, bind. rewrite get_run, Hl. reflexivity.
Qed.

(** A computation followed by steps that only read leaves the state as the
    computation does. *)
Lemma snd_bind_keeps {A B} (m : M A) (f : A -> M B) s :
  (forall a, keeps (f a)) -> snd (bind m f s) = snd (m s).
Proof.
  intros Hf. unfold bind. destruct (m s) as [[a|e|] s1]; try reflexivity.
  apply Hf.
Qed.

Section Frame.
Context {View : Type}.
Variable getBinaryAccessor :
  list object -> value -> outcome (@BinaryAccessor View).

(** The entry point leaves the state as its partitioning step does. *)
Lemma parseBatchTable_state opts s :
  let s' := snd (parseBatchTable getBinaryAccessor opts s) in
  s' = s \/ s' = snd (partitionProperties (batchTable opts) s).
Proof.
  simpl. unfold parseBatchTable.
  destruct (decide (typeof (count opts) = "number")) as [Hc|Hc].
  2: { left. unfold bind. rewrite Check_typeOf_run, decide_False by exact Hc.
       reflexivity. }
  erewrite bind_run
    by (rewrite Check_typeOf_run, decide_True by exact Hc; reflexivity).
  destruct (decide (typeof (batchTable opts) = "object")) as [Hb|Hb].
  2: { left. unfold bind. rewrite Check_typeOf_run, decide_False by exact Hb.
       reflexivity. }
  erewrite bind_run
    by (rewrite Check_typeOf_run, decide_True by exact Hb; reflexivity).
  destruct (decide (typeof (binaryBody opts) = "object")) as [Hy|Hy].
  2: { left. unfold bind. rewrite Check_typeOf_run, decide_False by exact Hy.
       reflexivity. }
  erewrite bind_run
    by (rewrite Check_typeOf_run, decide_True by exact Hy; reflexivity).
  right. apply snd_bind_keeps. intros r. apply keeps_bind.
  - apply keeps_initializeHierarchy.
  - intros h. apply keeps_bind.
    + apply keeps_transcodeBinaryProperties.
    + intros t. apply keeps_ret.
Qed.

(** X7. What a call of [parseBatchTable] can do to the store, however it
    ends: with a return, a throw from a check, or a throw half way. Every
    stored object other than the batch table's [extensions] is left as it
    was: the batch table, the binary body and its buffer are not written,
    none of them being that object. The [extensions] object keeps its class,
    its inherited properties and every own property but the one under
    [3DTILES_batch_table_hierarchy]. No object is removed and at most one is
    added. Without a defined HIERARCHY nothing changes at all, and at most
    one warning is given. *)
Theorem parseBatchTable_frame opts s :
  let s' := snd (parseBatchTable getBinaryAccessor opts s) in
  (forall l o,
     heap s !! l = Some o ->
     get_in (heap s) (batchTable opts) "extensions" <> Ret (VObj l) ->
     heap s' !! l = Some o) /\
  (forall l o,
     heap s !! l = Some o ->
     exists o',
       heap s' !! l = Some o' /\
       obj_class_of o' = obj_class_of o /\
       inherited o' = inherited o /\
       forall k, k <> "3DTILES_batch_table_hierarchy" ->
                 assoc k (own o') = assoc k (own o)) /\
  (List.length (heap s) <= List.length (heap s')
   <= S (List.length (heap s)))%nat /\
  (forall legacy,
     get_in (heap s) (batchTable opts) "HIERARCHY" = Ret legacy ->
     defined legacy = false -> s' = s) /\
  (warnings s' = warnings s \/
   warnings s' = (warnings s ++ [hierarchy_warning])%list).
Proof.
  intros s'.
  assert (Hkept : forall o : object,
            obj_class_of o = obj_class_of o /\ inherited o = inherited o /\
            forall k, k <> "3DTILES_batch_table_hierarchy" ->
                      assoc k (own o) = assoc k (own o)) by auto.
  destruct (parseBatchTable_state opts s) as [Hs | Hs]; fold s' in Hs.
  { rewrite Hs. split; [auto|]. split; [eauto|]. split; [lia|]. auto. }
  pose proof (partitionProperties_state (batchTable opts) s) as Hp.
  simpl in Hp. rewrite <- Hs in Hp.
  destruct Hp as [[-> _] | (legacy & Hl & Hdl & Hp)].
  { split; [auto|]. split; [eauto|]. split; [lia|]. auto. }
  assert (Hlegacy : forall legacy0,
            get_in (heap s) (batchTable opts) "HIERARCHY" = Ret legacy0 ->
            defined legacy0 = false -> s' = s).
  { intros legacy0 Hl0 Hd0. rewrite Hl in Hl0. injection Hl0 as <-.
    congruence. }
  destruct Hp as [-> | [-> | (e & o & He & Ho & ->)]]; simpl.
  - split; [auto|]. split; [eauto|]. split; [lia|]. auto.
  - split; [|split; [|split]].
    + intros l o Hlo _. apply lookup_app_l_Some. exact Hlo.
    + intros l o Hlo. exists o. split; [|apply Hkept].
      apply lookup_app_l_Some. exact Hlo.
    + rewrite length_app. simpl. lia.
    + auto.
  - assert (Hlt : (e < List.length (heap s))%nat)
      by (eapply lookup_lt_Some, Ho).
    split; [|split; [|split]].
    + intros l o0 Hlo Hne.
      rewrite list_lookup_insert_ne by congruence. exact Hlo.
    + intros l o0 Hlo. destruct (decide (l = e)) as [->|Hne].
      * rewrite list_lookup_insert_eq by exact Hlt.
        assert (o0 = o) as -> by congruence.
        eexists. split; [reflexivity|]. simpl.
        split; [reflexivity|]. split; [reflexivity|].
        intros k Hk. rewrite assoc_own_insert.
        destruct (decide _); [contradiction | reflexivity].
      * exists o0. split; [|apply Hkept].
        rewrite list_lookup_insert_ne by congruence. exact Hlo.
    + rewrite length_insert. lia.
    + auto.
Qed.
End Frame.

Lemma parseBatchTable_frame_witness :
  let s' := snd (parseBatchTable specBinaryAccessor (options_of 2)
                                 LegacyExtensions.store) in
  heap s' !! 2%nat = Some LegacyExtensions.table /\
  heap s' !! 0%nat = heap LegacyExtensions.store !! 0%nat /\
  heap s' !! 1%nat = heap LegacyExtensions.store !! 1%nat /\
  List.length (heap s') = 6%nat.
Proof.
  intros s'.
  destruct (parseBatchTable_frame specBinaryAccessor (options_of 2)
              LegacyExtensions.store) as (Hframe & _).
  fold s' in Hframe.
  split; [apply Hframe; [reflexivity | discriminate]|].
  split; [apply Hframe; [reflexivity | discriminate]|].
  split; [apply Hframe; [reflexivity | discriminate]|].
  reflexivity.
Defined.

(** ** Partitioning an ordinary batch table *)

Lemma get_stored b o k s :
  heap s !! b = Some o -> get (VObj b) k s = (Ret (object_get o k), s).
Proof. intros H. rewrite get_run. simpl. rewrite H. reflexivity. Qed.

(** The prologue of [partitionProperties] on an ordinary batch table: it
    leaves a state in which the table is as it was and arrays are the same
    arrays. *)
Lemma partitionProperties_ordinary b o s :
  ordinary_table s b o -> foldable s b o ->
  exists s' ext,
    partitionProperties (VObj b) s =
    (partition_result (object_get o "extras") ext
       (fst (partition_loop (VObj b) s')), s') /\
    ordinary_table s' b o /\
    (forall l x, heap s !! l = Some x ->
       exists x', heap s' !! l = Some x' /\ obj_class_of x' = obj_class_of x) /\
    (defined (object_get o "HIERARCHY") = false ->
     s' = s /\ ext = object_get o "extensions").
Proof.
  intros (Hb & Hc & Hg & Hv) Hf.
  pose proof (get_stored _ _ "HIERARCHY" _ Hb) as Hl.
  pose proof (get_stored _ _ "extras" _ Hb) as Hx.
  pose proof (get_stored _ _ "extensions" _ Hb) as He.
  destruct (defined (object_get o "HIERARCHY")) eqn:Hdl.
  - unfold foldable in Hf. specialize (Hf Hdl).
    destruct (defined (object_get o "extensions")) eqn:Hde.
    + destruct (object_get o "extensions") as [| | | | |e] eqn:Hev;
        try contradiction; try discriminate Hde.
      destruct Hf as [Hne [oe Hoe]].
      exists (folded s e oe (object_get o "HIERARCHY")), (VObj e).
      split; [exact (partitionProperties_existing _ _ _ _ _ _ Hl Hx He Hdl Hoe)|].
      assert (Hlt : (e < List.length (heap s))%nat)
        by (eapply lookup_lt_Some, Hoe).
      split; [|split; [|discriminate]].
      * split; [|split; [exact Hc|split; [exact Hg|]]].
        -- simpl. rewrite list_lookup_insert_ne by congruence. exact Hb.
        -- intros k l Hk. simpl. apply lookup_lt_is_Some.
           rewrite length_insert. apply lookup_lt_is_Some. eapply Hv, Hk.
      * intros l x Hlx. simpl. destruct (decide (l = e)) as [->|Hn].
        -- rewrite list_lookup_insert_eq by exact Hlt.
           eexists. split; [reflexivity|]. simpl. congruence.
        -- rewrite list_lookup_insert_ne by congruence. eauto.
    + exists (folded_new s (object_get o "HIERARCHY")),
        (VObj (List.length (heap s))).
      split; [exact (partitionProperties_new _ _ _ _ _ Hl Hx He Hdl Hde)|].
      split; [|split; [|discriminate]].
      * split; [|split; [exact Hc|split; [exact Hg|]]].
        -- simpl. apply lookup_app_l_Some. exact Hb.
        -- intros k l Hk. simpl. destruct (Hv _ _ Hk) as [x Hlx].
           exists x. apply lookup_app_l_Some. exact Hlx.
      * intros l x Hlx. simpl. exists x. split; [|reflexivity].
        apply lookup_app_l_Some. exact Hlx.
  - exists s, (object_get o "extensions").
    split; [exact (partitionProperties_plain _ _ _ _ _ Hl Hx He Hdl)|].
    split; [repeat split; assumption|]. split; [eauto|]. auto.
Qed.

(** An array stays an array when the stored objects keep their class. *)
Lemma is_array_kept h h' v :
  (forall l x, h !! l = Some x ->
     exists x', h' !! l = Some x' /\ obj_class_of x' = obj_class_of x) ->
  (forall l, v = VObj l -> is_Some (h !! l)) ->
  is_array h' v = is_array h v.
Proof.
  intros Hk Hs. destruct v as [| | | | |l]; try reflexivity. simpl.
  destruct (Hs _ eq_refl) as [x Hx]. rewrite Hx.
  destruct (Hk _ _ Hx) as (x' & -> & ->). reflexivity.
Qed.

Lemma sort_of_kept h h' o k :
  (forall l x, h !! l = Some x ->
     exists x', h' !! l = Some x' /\ obj_class_of x' = obj_class_of x) ->
  (forall k l, assoc k (own o) = Some (VObj l) -> is_Some (h !! l)) ->
  sort_of h' o k = sort_of h o k.
Proof.
  intros Hk Hs. unfold sort_of. destruct (reserved k); [reflexivity|].
  destruct (assoc k (own o)) as [v|] eqn:Hv; [|reflexivity].
  rewrite (is_array_kept h h' v Hk); [reflexivity|].
  intros l ->. eapply Hs, Hv.
Qed.

(** X8. On an ordinary batch table (an object whose [hasOwnProperty] is the
    built-in, with or without a legacy HIERARCHY) [partitionProperties]
    returns, and every own key other than [__proto__] is sorted exactly
    once: a key whose value is an array is a JSON property with that value
    and no binary property, any other is a binary property with its value
    and no JSON property, and HIERARCHY, extensions, extras and keys that
    are not own are neither. [extras] is passed on as read; without a
    defined HIERARCHY so is [extensions], and the state is unchanged. *)
Theorem partitionProperties_sorts b o s :
  ordinary_table s b o -> foldable s b o ->
  exists r s',
    partitionProperties (VObj b) s = (Ret r, s') /\
    extras r = object_get o "extras" /\
    (defined (object_get o "HIERARCHY") = false ->
     s' = s /\ extensions r = object_get o "extensions") /\
    (forall k, k <> "__proto__" ->
       assoc k (d_own (jsonProperties r)) = sorted_into true (heap s) o k /\
       assoc k (d_own (binaryProperties r)) = sorted_into false (heap s) o k)
    /\
    ("__proto__" ∉ keys (d_own (jsonProperties r))) /\
    ("__proto__" ∉ keys (d_own (binaryProperties r))) /\
    NoDup (keys (d_own (jsonProperties r))) /\
    NoDup (keys (d_own (binaryProperties r))).
Proof.
  intros Ht Hf.
  destruct (partitionProperties_ordinary _ _ _ Ht Hf)
    as (s' & ext & Hrun & (Hb & Hc & Hg & Hv) & Hkept & Hplain).
  destruct (partition_loop_sorts _ _ _ Hb Hc Hg Hv)
    as (json & binary & Hloop & Hsort & Hpj & Hpb & Hnj & Hnb).
  rewrite Hloop in Hrun. simpl in Hrun.
  eexists. exists s'. split; [exact Hrun|]. simpl.
  split; [reflexivity|]. split; [exact Hplain|].
  split; [|split; [apply assoc_None, Hpj|split; [apply assoc_None, Hpb|auto]]].
  intros k Hk. destruct (Hsort k Hk) as [-> ->].
  unfold sorted_into.
  rewrite (sort_of_kept (heap s) (heap s') o k Hkept);
    [auto | apply Ht].
Qed.

Lemma partitionProperties_sorts_witness :
  ordinary_table LegacyExtensions.store 2 LegacyExtensions.table /\
  exists r s',
    partitionProperties (VObj 2) LegacyExtensions.store = (Ret r, s') /\
    assoc "name" (d_own (jsonProperties r)) = Some (VObj 4) /\
    assoc "name" (d_own (binaryProperties r)) = None /\
    assoc "HIERARCHY" (d_own (binaryProperties r)) = None.
Proof.
  assert (Ht : ordinary_table LegacyExtensions.store 2 LegacyExtensions.table).
  { split; [reflexivity|]. split; [reflexivity|]. split; [reflexivity|].
    intros k l Hk. simpl in Hk.
    repeat (destruct (decide _) in Hk; [injection Hk as <-; simpl; eauto|]).
    discriminate. }
  assert (Hf : foldable LegacyExtensions.store 2 LegacyExtensions.table).
  { intros _. simpl. split; [discriminate | eauto]. }
  split; [exact Ht|].
  destruct (partitionProperties_sorts _ _ _ Ht Hf)
    as (r & s' & Hrun & _ & _ & Hsort & _).
  exists r, s'. split; [exact Hrun|].
  destruct (Hsort "name") as [Hj Hb]; [discriminate|].
  destruct (Hsort "HIERARCHY") as [_ Hh]; [discriminate|].
  rewrite Hj, Hb, Hh. repeat split; reflexivity.
Defined.

(** ** The order of the partitions *)

Lemma js_ordered_before l1 k l2 p :
  js_ordered (l1 ++ k :: l2) = true -> p ∈ l1 -> js_before p k = true.
Proof.
  induction l1 as [|a l1 IH]; simpl; intros H Hp.
  - inversion Hp.
  - apply andb_true_iff in H as [Ha Hrest].
    apply list_elem_of_In in Hp. destruct Hp as [->|Hp].
    + rewrite forallb_forall in Ha. apply Ha, in_or_app. right. left.
      reflexivity.
    + apply IH; [exact Hrest | apply list_elem_of_In, Hp].
Qed.

Lemma insert_index_last {A} n k (a : A) l :
  (forall p, p ∈ keys l -> exists m, array_index p = Some m /\ (m < n)%N) ->
  insert_index n k a l = (l ++ [(k, a)])%list.
Proof.
  induction l as [|[k' a'] l IH]; intros H; [reflexivity|].
  cbn [insert_index app].
  destruct (H k') as (m & -> & Hm); [left|].
  assert ((n <? m)%N = false) as -> by (apply N.ltb_ge; lia).
  f_equal. apply IH. intros p Hp. apply H. right. exact Hp.
Qed.

(** A new key that the enumeration puts after every key present goes
    last. *)
Lemma own_insert_last {A} k (a : A) l :
  k ∉ keys l ->
  (forall p, p ∈ keys l -> js_before p k = true) ->
  own_insert k a l = (l ++ [(k, a)])%list.
Proof.
  intros Hk Hp. unfold own_insert.
  apply assoc_None in Hk. rewrite Hk.
  destruct (array_index k) as [n|] eqn:Hn; [|reflexivity].
  apply insert_index_last. intros p Hin. specialize (Hp p Hin).
  unfold js_before in Hp. rewrite Hn in Hp.
  destruct (array_index p) as [m|]; [|discriminate].
  exists m. split; [reflexivity|]. apply N.ltb_lt, Hp.
Qed.

(** The assignment [d[k] = v] of the loop, for a key that comes after the
    keys [d] has: [__proto__] adds no own property, any other key is added
    last. *)
Lemma dict_set_last (d : dict value) k v s :
  (k = "__proto__" -> d_proto d = ProtoObject) ->
  k ∉ keys (d_own d) ->
  (forall p, p ∈ keys (d_own d) -> js_before p k = true) ->
  exists d',
    dict_set d k v s = (Ret d', s) /\
    d_own d' =
      (d_own d ++ (if decide (k = "__proto__") then [] else [(k, v)]))%list /\
    (k <> "__proto__" -> d_proto d' = d_proto d).
Proof.
  intros Hproto Hk Hp. destruct (decide (k = "__proto__")) as [->|Hne].
  - unfold dict_set. rewrite decide_True by reflexivity.
    rewrite (Hproto eq_refl).
    destruct (kind_of v); (eexists; split; [reflexivity|]);
      simpl; rewrite app_nil_r; (split; [reflexivity | congruence]).
  - rewrite dict_set_ordinary by exact Hne. eexists. split; [reflexivity|].
    simpl. split; [|reflexivity]. apply own_insert_last; assumption.
Qed.

Lemma sorted_entries_cons wanted h e l :
  sorted_entries wanted h (e :: l) =
  match sorted_entry wanted h e with
  | Some e' => e' :: sorted_entries wanted h l
  | None => sorted_entries wanted h l
  end.
Proof. reflexivity. Qed.

Lemma sorted_entries_kept wanted h h' l :
  (forall k v, (k, v) ∈ l -> is_array h' v = is_array h v) ->
  sorted_entries wanted h' l = sorted_entries wanted h l.
Proof.
  induction l as [|[k v] l IH]; intros H; [reflexivity|].
  rewrite !sorted_entries_cons. unfold sorted_entry. cbn [fst snd].
  rewrite (H k v) by left.
  assert (Hl : sorted_entries wanted h' l = sorted_entries wanted h l).
  { apply IH. intros k' v' Hin. apply (H k'). right. exact Hin. }
  rewrite Hl. reflexivity.
Qed.

Lemma sorted_entries_elem wanted h l k v :
  (k, v) ∈ sorted_entries wanted h l ->
  (k, v) ∈ l /\ reserved k = false /\ k <> "__proto__" /\
  is_array h v = wanted.
Proof.
  unfold sorted_entries. intros H.
  apply list_elem_of_omap in H as ([k' v'] & Hin & He).
  unfold sorted_entry in He. simpl in He.
  destruct (reserved k') eqn:Hr; [discriminate|]. simpl in He.
  destruct (bool_decide (k' = "__proto__")) eqn:Hp; [discriminate|].
  destruct (Bool.eqb (is_array h v') wanted) eqn:Ha; [|discriminate].
  injection He as <- <-. split; [exact Hin|]. split; [exact Hr|].
  split; [|apply Bool.eqb_prop, Ha].
  intros ->. discriminate Hp.
Qed.

Section PartitionOrder.
Variables (b : loc) (o : object) (s : state).
Hypothesis table : ordinary_table s b o.
Hypothesis distinct : NoDup (keys (own o)).
Hypothesis ordered : js_ordered (keys (own o)) = true.

(** The loop over a stretch [es] of the table's own properties, after the
    stretch [pre]. *)
Lemma partition_fold_exact es :
  forall pre json binary,
    own o = (pre ++ es)%list ->
    (forall k, k ∈ keys (d_own json) -> k ∈ keys pre) ->
    (forall k, k ∈ keys (d_own binary) -> k ∈ keys pre) ->
    ("__proto__" ∈ keys es ->
     d_proto json = ProtoObject /\ d_proto binary = ProtoObject) ->
    exists json' binary',
      for_each (keys es) (partition_step (VObj b)) (json, binary) s =
        (Ret (json', binary'), s) /\
      d_own json' = (d_own json ++ sorted_entries true (heap s) es)%list /\
      d_own binary' = (d_own binary ++ sorted_entries false (heap s) es)%list
      /\
      ("__proto__" ∉ keys es ->
       d_proto json' = d_proto json /\ d_proto binary' = d_proto binary).
Proof.
  destruct table as (Hb & Hc & Hg & Hv).
  induction es as [|[k v] es IH]; intros pre json binary Hown Hj Hbn Hproto.
  - exists json, binary. simpl. rewrite !app_nil_r. auto.
  - assert (Hkeys : keys (own o) = (keys pre ++ k :: keys es)%list)
      by (rewrite Hown; unfold keys; rewrite map_app; reflexivity).
    assert (Hnd := distinct). rewrite Hkeys in Hnd.
    apply NoDup_app in Hnd as (_ & Hpre & Hnd).
    apply NoDup_cons in Hnd as [Hes _].
    assert (Hnew : k ∉ keys pre).
    { intros Hin. eapply Hpre; [exact Hin | left]. }
    assert (Hbefore : forall p, p ∈ keys pre -> js_before p k = true).
    { intros p Hin. eapply js_ordered_before; [|exact Hin].
      rewrite <- Hkeys. exact ordered. }
    assert (Hassoc : assoc k (own o) = Some v).
    { apply assoc_elem; [exact distinct|]. rewrite Hown.
      apply elem_of_app. right. left. }
    assert (Hown' : own o = ((pre ++ [(k, v)]) ++ es)%list)
      by (rewrite <- app_assoc; exact Hown).
    assert (Hin' : forall l : list (string * value),
              (forall k0, k0 ∈ keys l -> k0 ∈ keys pre) ->
              forall k0, k0 ∈ keys l -> k0 ∈ keys (pre ++ [(k, v)])).
    { intros l Hl k0 Hk0. unfold keys. rewrite map_app.
      apply elem_of_app. left. apply Hl, Hk0. }
    assert (Hproto' : forall json1 binary1 : dict value,
              (k <> "__proto__" ->
               d_proto json1 = d_proto json /\
               d_proto binary1 = d_proto binary) ->
              "__proto__" ∈ keys es ->
              d_proto json1 = ProtoObject /\ d_proto binary1 = ProtoObject).
    { intros json1 binary1 Hsame Hin.
      assert (Hne : k <> "__proto__") by (intros ->; contradiction).
      destruct (Hsame Hne) as [-> ->]. apply Hproto. right. exact Hin. }
    cbn [keys map fst]. fold (keys es). rewrite for_each_cons.
    pose proof (partition_step_unfold _ _ _ Hb Hc Hg Hv k json binary)
      as Hstep.
    unfold sort_of in Hstep. rewrite Hassoc in Hstep.
    rewrite !sorted_entries_cons. unfold sorted_entry. cbn [fst snd].
    destruct (reserved k) eqn:Hr.
    + rewrite (bind_run _ _ _ _ _ Hstep). simpl.
      destruct (IH _ json binary Hown' (Hin' _ Hj) (Hin' _ Hbn))
        as (json' & binary' & Hrun & Hj' & Hb' & Hp').
      { apply Hproto'. auto. }
      exists json', binary'. split; [exact Hrun|].
      split; [exact Hj'|]. split; [exact Hb'|].
      intros Hnin. apply Hp'. intros Hin. apply Hnin. right. exact Hin.
    + simpl. destruct (is_array (heap s) v) eqn:Ha.
      * destruct (dict_set_last json k v s) as (json1 & Hset & Hown1 & Hp1).
        { intros ->. apply Hproto. left. }
        { intros Hin. apply Hnew, Hj, Hin. }
        { intros p Hin. apply Hbefore, Hj, Hin. }
        rewrite (bind_run _ _ _ _ _ Hset) in Hstep.
        rewrite (bind_run _ _ _ _ _ Hstep).
        destruct (IH (pre ++ [(k, v)])%list json1 binary Hown')
          as (json' & binary' & Hrun & Hj' & Hb' & Hp').
        { intros k0 Hk0. unfold keys in Hk0 |- *. rewrite Hown1 in Hk0.
          rewrite map_app in Hk0 |- *. apply elem_of_app in Hk0 as [Hk0|Hk0].
          - apply elem_of_app. left. apply Hj, Hk0.
          - destruct (decide (k = "__proto__")); [inversion Hk0|].
            apply elem_of_app. right. exact Hk0. }
        { apply Hin', Hbn. }
        { apply Hproto'. intros Hne. split; [apply Hp1, Hne | reflexivity]. }
        exists json', binary'. split; [exact Hrun|].
        split; [|split].
        -- rewrite Hj', Hown1, <- app_assoc.
           destruct (decide (k = "__proto__")) as [->|Hne].
           ++ reflexivity.
           ++ rewrite bool_decide_eq_false_2 by exact Hne. reflexivity.
        -- rewrite Hb'.
           destruct (bool_decide (k = "__proto__")); reflexivity.
        -- intros Hnin.
           assert (Hne : k <> "__proto__")
             by (intros ->; apply Hnin; left).
           destruct Hp' as [-> ->].
           { intros Hin. apply Hnin. right. exact Hin. }
           split; [apply Hp1, Hne | reflexivity].
      * destruct (dict_set_last binary k v s) as (binary1 & Hset & Hown1 & Hp1).
        { intros ->. apply Hproto. left. }
        { intros Hin. apply Hnew, Hbn, Hin. }
        { intros p Hin. apply Hbefore, Hbn, Hin. }
        rewrite (bind_run _ _ _ _ _ Hset) in Hstep.
        rewrite (bind_run _ _ _ _ _ Hstep).
        destruct (IH (pre ++ [(k, v)])%list json binary1 Hown')
          as (json' & binary' & Hrun & Hj' & Hb' & Hp').
        { apply Hin', Hj. }
        { intros k0 Hk0. unfold keys in Hk0 |- *. rewrite Hown1 in Hk0.
          rewrite map_app in Hk0 |- *. apply elem_of_app in Hk0 as [Hk0|Hk0].
          - apply elem_of_app. left. apply Hbn, Hk0.
          - destruct (decide (k = "__proto__")); [inversion Hk0|].
            apply elem_of_app. right. exact Hk0. }
        { apply Hproto'. intros Hne. split; [reflexivity | apply Hp1, Hne]. }
        exists json', binary'. split; [exact Hrun|].
        split; [|split].
        -- rewrite Hj'.
           destruct (bool_decide (k = "__proto__")); reflexivity.
        -- rewrite Hb', Hown1, <- app_assoc.
           destruct (decide (k = "__proto__")) as [->|Hne].
           ++ reflexivity.
           ++ rewrite bool_decide_eq_false_2 by exact Hne. reflexivity.
        -- intros Hnin.
           assert (Hne : k <> "__proto__")
             by (intros ->; apply Hnin; left).
           destruct Hp' as [-> ->].
           { intros Hin. apply Hnin. right. exact Hin. }
           split; [reflexivity | apply Hp1, Hne].
Qed.

(** The whole loop: the two objects list the table's properties in the
    table's own order. *)
Lemma partition_loop_exact :
  exists json binary,
    partition_loop (VObj b) s = (Ret (json, binary), s) /\
    d_own json = sorted_entries true (heap s) (own o) /\
    d_own binary = sorted_entries false (heap s) (own o) /\
    ("__proto__" ∉ keys (own o) ->
     d_proto json = ProtoObject /\ d_proto binary = ProtoObject).
Proof.
  destruct (partition_fold_exact (own o) [] empty_dict empty_dict)
    as (json & binary & Hrun & Hj & Hbn & Hp).
  { reflexivity. }
  { intros k Hk. inversion Hk. }
  { intros k Hk. inversion Hk. }
  { auto. }
  destruct table as (Hb & Hc & Hg & Hv).
  exists json, binary. split; [|auto].
  unfold partition_loop.
  assert (Hkeys : for_in_keys (VObj b) s =
    (Ret (keys (own o) ++
          first_visits (rev (keys (own o)) ++ []) (keys (inherited o)))%list,
     s)).
  { unfold for_in_keys, read. simpl. rewrite Hb.
    unfold enumerable_keys. rewrite Hc, first_visits_app.
    rewrite (first_visits_NoDup [] (keys (own o)) distinct); [reflexivity|].
    intros k _ Hk. inversion Hk. }
  rewrite (bind_run _ _ _ _ _ Hkeys), (for_each_app _ _ _ _ _ _ _ Hrun).
  apply for_each_skip. intros k Hk.
  apply first_visits_unseen in Hk.
  rewrite (partition_step_unfold _ _ _ Hb Hc Hg Hv).
  unfold sort_of. destruct (reserved k); [reflexivity|].
  destruct (assoc k (own o)) as [v|] eqn:Hv'; [|reflexivity].
  exfalso. apply Hk. apply elem_of_app. left.
  apply list_elem_of_In, in_rev. rewrite rev_involutive.
  apply list_elem_of_In, assoc_is_Some. rewrite Hv'. eauto.
Qed.
End PartitionOrder.

(** X9. [partitionProperties] keeps the order of the batch table: on an
    ordinary table whose own keys are distinct and in enumeration order, the
    JSON properties are the table's array-valued properties and the binary
    properties its other ones, each list in the table's own order, with
    HIERARCHY, extensions, extras and [__proto__] left out. Nothing is
    reordered, repeated or dropped, so the binary properties reach the
    transcoder in the order the batch table has them. *)
Theorem partitionProperties_keeps_order b o s :
  ordinary_table s b o -> foldable s b o ->
  NoDup (keys (own o)) ->
  js_ordered (keys (own o)) = true ->
  exists r s',
    partitionProperties (VObj b) s = (Ret r, s') /\
    d_own (jsonProperties r) = sorted_entries true (heap s) (own o) /\
    d_own (binaryProperties r) = sorted_entries false (heap s) (own o) /\
    ("__proto__" ∉ keys (own o) ->
     d_proto (jsonProperties r) = ProtoObject /\
     d_proto (binaryProperties r) = ProtoObject).
Proof.
  intros Ht Hf Hnd Hord.
  destruct (partitionProperties_ordinary _ _ _ Ht Hf)
    as (s' & ext & Hrun & Ht' & Hkept & _).
  destruct (partition_loop_exact _ _ _ Ht' Hnd Hord)
    as (json & binary & Hloop & Hj & Hb & Hp).
  rewrite Hloop in Hrun. simpl in Hrun.
  assert (Hsame : forall wanted,
            sorted_entries wanted (heap s') (own o) =
            sorted_entries wanted (heap s) (own o)).
  { intros wanted. apply sorted_entries_kept. intros k v Hin.
    apply is_array_kept; [exact Hkept|]. intros l ->.
    destruct Ht as (_ & _ & _ & Hv). apply (Hv k).
    apply assoc_elem; assumption. }
  eexists. exists s'. split; [exact Hrun|]. simpl.
  rewrite Hj, Hb, !Hsame. auto.
Qed.

Lemma partitionProperties_keeps_order_witness :
  ordinary_table Indexed.store 2 Indexed.table /\
  js_ordered (keys (own Indexed.table)) = true /\
  exists r,
    partitionProperties (VObj 2) Indexed.store = (Ret r, Indexed.store) /\
    d_own (jsonProperties r) = [("1", VObj 4); ("a", VObj 4)] /\
    d_own (binaryProperties r) = [("2", VObj 3); ("b", VObj 5)].
Proof.
  assert (Ht : ordinary_table Indexed.store 2 Indexed.table).
  { split; [reflexivity|]. split; [reflexivity|]. split; [reflexivity|].
    intros k l Hk. simpl in Hk.
    repeat (destruct (decide _) in Hk; [injection Hk as <-; simpl; eauto|]).
    discriminate. }
  assert (Hf : foldable Indexed.store 2 Indexed.table)
    by (intros Hd; discriminate Hd).
  assert (Hnd : NoDup (keys (own Indexed.table))).
  { apply NoDup_ListNoDup. repeat constructor; simpl; intuition discriminate. }
  split; [exact Ht|]. split; [reflexivity|].
  destruct (partitionProperties_keeps_order _ _ _ Ht Hf Hnd eq_refl)
    as (r & s' & Hrun & Hj & Hb & _).
  exists r. split; [|split; [exact Hj | exact Hb]].
  rewrite Hrun. f_equal.
  assert (Hstate : snd (partitionProperties (VObj 2) Indexed.store) =
                   Indexed.store) by reflexivity.
  rewrite Hrun in Hstate. exact Hstate.
Defined.

(** * DynamicPoint *)

Section DynamicPointFacts.
Variable createObservableProperty :
  string -> string -> DynamicPoint.ObservableProperty.
Variable new_Event : M value.

Abbreviation property_at := (DynamicPoint.property createObservableProperty).
Abbreviation reads_at := (DynamicPoint.reads createObservableProperty).
Abbreviation slots := (DynamicPoint.slots createObservableProperty).
Abbreviation copied :=
  (DynamicPoint.copied createObservableProperty).

Ltac one_of_names :=
  apply list_elem_of_In; simpl; tauto.

Ltac none_of_names :=
  let H := fresh in
  intros H; apply list_elem_of_In in H; simpl in H; intuition discriminate.

(** One line of [clone]: [target.p = this.p]. *)
Lemma clone_step this target vs s0 done s p :
  slots -> copied this target vs s0 done s -> p ∈ DynamicPoint.names ->
  exists s',
    (forall B (k : M B),
       (let* v := DynamicPoint.op_get (property_at p) this in
        do DynamicPoint.op_set (property_at p) target v then k) s = k s') /\
    copied this target vs s0 (p :: done) s'.
Proof.
  intros Hslots (Hthis & Htarget & Hdone & Hframe) Hp.
  destruct (Hslots p target (vs p) s Hp (Htarget p Hp))
    as (s' & Hset & Hnew & Hrest).
  exists s'. split.
  - intros B k. rewrite (bind_run _ _ _ _ _ (Hthis p Hp)).
    rewrite (bind_run _ _ _ _ _ Hset). reflexivity.
  - split; [|split; [|split]].
    + intros q Hq.
      destruct (decide ((q, this) = (p, target))) as [[= -> ->]|Hne].
      * exact Hnew.
      * apply Hrest; auto.
    + intros q Hq. destruct (decide (q = p)) as [->|Hne]; [eauto|].
      destruct (Htarget q Hq) as [v Hv]. exists v.
      apply Hrest; [exact Hq | congruence | exact Hv].
    + intros q Hq Hd. destruct (decide (q = p)) as [->|Hne]; [exact Hnew|].
      apply list_elem_of_In in Hd. destruct Hd as [<-|Hd]; [congruence|].
      apply list_elem_of_In in Hd.
      apply Hrest; [exact Hq | congruence | exact (Hdone q Hq Hd)].
    + intros q y w Hq Hy Hw.
      apply Hrest; [exact Hq | congruence | exact (Hframe q y w Hq Hy Hw)].
Qed.

(** The five assignments of [clone]. *)
Lemma clone_lines this target vs s :
  slots ->
  (forall p, p ∈ DynamicPoint.names -> reads_at p this s (vs p)) ->
  (forall p, p ∈ DynamicPoint.names -> exists v, reads_at p target s v) ->
  exists s',
    (let* v := DynamicPoint.op_get (property_at ("color", "_color")) this in
     do DynamicPoint.op_set (property_at ("color", "_color")) target v then
     let* v :=
       DynamicPoint.op_get (property_at ("pixelSize", "_pixelSize")) this in
     do DynamicPoint.op_set (property_at ("pixelSize", "_pixelSize")) target v
     then
     let* v :=
       DynamicPoint.op_get (property_at ("outlineColor", "_outlineColor"))
                           this in
     do DynamicPoint.op_set (property_at ("outlineColor", "_outlineColor"))
                            target v
     then
     let* v :=
       DynamicPoint.op_get (property_at ("outlineWidth", "_outlineWidth"))
                           this in
     do DynamicPoint.op_set (property_at ("outlineWidth", "_outlineWidth"))
                            target v
     then
     let* v := DynamicPoint.op_get (property_at ("show", "_show")) this in
     do DynamicPoint.op_set (property_at ("show", "_show")) target v then
     ret target) s = (Ret target, s') /\
    copied this target vs s DynamicPoint.names s'.
Proof.
  intros Hslots Hthis Htarget.
  assert (H0 : copied this target vs s [] s).
  { split; [exact Hthis|]. split; [exact Htarget|]. split; [|auto].
    intros p _ Hin. inversion Hin. }
  destruct (clone_step this target vs s _ s ("color", "_color") Hslots H0)
    as (s1 & E1 & H1); [one_of_names|].
  destruct (clone_step this target vs s _ s1 ("pixelSize", "_pixelSize")
              Hslots H1)
    as (s2 & E2 & H2); [one_of_names|].
  destruct (clone_step this target vs s _ s2
              ("outlineColor", "_outlineColor") Hslots H2)
    as (s3 & E3 & H3); [one_of_names|].
  destruct (clone_step this target vs s _ s3
              ("outlineWidth", "_outlineWidth") Hslots H3)
    as (s4 & E4 & H4); [one_of_names|].
  destruct (clone_step this target vs s _ s4 ("show", "_show") Hslots H4)
    as (s5 & E5 & H5); [one_of_names|].
  exists s5. split.
  { etransitivity; [apply E1|]. etransitivity; [apply E2|].
    etransitivity; [apply E3|]. etransitivity; [apply E4|].
    etransitivity; [apply E5|]. reflexivity. }
  destruct H5 as (Ha & Hb & Hc & Hd'). split; [exact Ha|].
  split; [exact Hb|]. split; [|exact Hd'].
  intros p Hp _. apply Hc; [exact Hp|].
  apply list_elem_of_In in Hp. apply list_elem_of_In. simpl in Hp |- *.
  tauto.
Qed.

(** X11. [clone] copies all five properties. With accessors that behave as
    slots and a constructor that returns a new readable point, [clone]
    returns: the result it was given when that is defined, and otherwise
    the very point its call of the constructor returns, which is not [this]
    and was no point before. Each of the five properties of what it returns
    then reads as the property of [this] did, [this] reads as before (also
    when it is the result itself), and every other object is as it was. *)
Theorem DynamicPoint_clone_copies this result vs s :
  slots ->
  DynamicPoint.constructs createObservableProperty new_Event ->
  (forall p, p ∈ DynamicPoint.names -> reads_at p this s (vs p)) ->
  (defined result = true ->
   forall p, p ∈ DynamicPoint.names -> exists v, reads_at p result s v) ->
  exists r s',
    DynamicPoint.clone createObservableProperty new_Event this result s =
      (Ret r, s') /\
    (if defined result then r = result
     else
       (exists s1, DynamicPoint.constructor new_Event s = (Ret r, s1)) /\
       r <> this /\
       forall p v, p ∈ DynamicPoint.names -> ~ reads_at p r s v) /\
    (forall p, p ∈ DynamicPoint.names ->
       reads_at p r s' (vs p) /\ reads_at p this s' (vs p)) /\
    (forall q y w,
       q ∈ DynamicPoint.names -> y <> r ->
       reads_at q y s w -> reads_at q y s' w).
Proof.
  intros Hslots Hnew Hthis Hresult. unfold DynamicPoint.clone.
  destruct (defined result) eqn:Hd; simpl negb; cbv iota.
  - destruct (clone_lines this result vs s Hslots Hthis (Hresult eq_refl))
      as (s' & Hrun & Ha & Hb & Hc & Hf).
    exists result, s'. split.
    { rewrite (bind_run _ _ _ _ _ (eq_refl : ret result s = (Ret result, s))).
      exact Hrun. }
    split; [reflexivity|]. split; [|exact Hf].
    intros p Hp. split; [apply Hc; assumption | apply Ha; assumption].
  - destruct (Hnew s) as (point & s1 & Hc1 & Hread & Hfresh & Hframe).
    destruct (clone_lines this point vs s1 Hslots) as
      (s' & Hrun & Ha & Hb & Hc & Hf).
    { intros p Hp. apply Hframe; [exact Hp | apply Hthis, Hp]. }
    { exact Hread. }
    exists point, s'. split.
    { rewrite (bind_run _ _ _ _ _ Hc1). exact Hrun. }
    split; [|split].
    + split; [eauto|]. split; [|exact Hfresh].
      intros ->. apply (Hfresh ("color", "_color") (vs ("color", "_color"))).
      * one_of_names.
      * apply Hthis. one_of_names.
    + intros p Hp. split; [apply Hc; assumption | apply Ha; assumption].
    + intros q y w Hq Hy Hw. apply Hf; [exact Hq | exact Hy |].
      apply Hframe; assumption.
Qed.

Variable defaultValue : value -> value -> value.

Abbreviation merged :=
  (DynamicPoint.merged createObservableProperty defaultValue).

(** One line of [merge]: [this.p = defaultValue(this.p, source.p)]. *)
Lemma merge_step this source ts ss s0 done s p :
  slots -> merged this source ts ss s0 done s ->
  p ∈ DynamicPoint.names -> p ∉ done ->
  exists s',
    (forall B (k : M B),
       (let* mine := DynamicPoint.op_get (property_at p) this in
        let* theirs := DynamicPoint.op_get (property_at p) source in
        do DynamicPoint.op_set (property_at p) this
                               (defaultValue mine theirs)
        then k) s = k s') /\
    merged this source ts ss s0 (p :: done) s'.
Proof.
  intros Hslots (Htodo & Hdone & Hframe) Hp Hnew.
  destruct (Htodo p Hp Hnew) as [Hmine Htheirs].
  destruct (Hslots p this (defaultValue (ts p) (ss p)) s Hp)
    as (s' & Hset & Hset' & Hrest); [eauto|].
  exists s'. split.
  - intros B k.
    rewrite (bind_run _ _ _ _ _ Hmine), (bind_run _ _ _ _ _ Htheirs).
    rewrite (bind_run _ _ _ _ _ Hset). reflexivity.
  - split; [|split].
    + intros q Hq Hd.
      assert (Hne : q <> p) by (intros ->; apply Hd; left).
      assert (Hd' : q ∉ done) by (intros Hin; apply Hd; right; exact Hin).
      destruct (Htodo q Hq Hd') as [Hm Ht].
      split; apply Hrest; auto; congruence.
    + intros q Hq Hd. destruct (decide (q = p)) as [->|Hne]; [exact Hset'|].
      apply list_elem_of_In in Hd. destruct Hd as [<-|Hd]; [congruence|].
      apply list_elem_of_In in Hd.
      apply Hrest; [exact Hq | congruence | exact (Hdone q Hq Hd)].
    + intros q y w Hq Hy Hw.
      apply Hrest; [exact Hq | congruence | exact (Hframe q y w Hq Hy Hw)].
Qed.

(** X12. [merge] fills in from the source, and insists on one. Without a
    source (undefined or null) it throws a DeveloperError, "source is
    required.", before it reads or assigns anything. With one, and with
    accessors that behave as slots, it returns, and each of the five
    properties of [this] then reads [defaultValue(mine, theirs)], where
    [mine] is what [this] read under it before and [theirs] what the source
    read. A source other than [this] reads as before, and so does every
    other object. *)
Theorem DynamicPoint_merge_fills this source ts ss s :
  slots ->
  (forall p, p ∈ DynamicPoint.names -> reads_at p this s (ts p)) ->
  (defined source = true ->
   forall p, p ∈ DynamicPoint.names -> reads_at p source s (ss p)) ->
  if defined source then
    exists s',
      DynamicPoint.merge createObservableProperty defaultValue this source s
      = (Ret tt, s') /\
      (forall p, p ∈ DynamicPoint.names ->
         reads_at p this s' (defaultValue (ts p) (ss p))) /\
      (forall q y w,
         q ∈ DynamicPoint.names -> y <> this ->
         reads_at q y s w -> reads_at q y s' w)
  else
    DynamicPoint.merge createObservableProperty defaultValue this source s =
    (Throw (DeveloperError "source is required."), s).
Proof.
  intros Hslots Hthis Hsource. unfold DynamicPoint.merge.
  destruct (defined source) eqn:Hd; cbn [negb]; [|reflexivity].
  specialize (Hsource eq_refl).
  assert (H0 : merged this source ts ss s [] s).
  { split; [auto|]. split; [|auto]. intros p _ Hin. inversion Hin. }
  destruct (merge_step this source ts ss s _ s ("color", "_color") Hslots H0)
    as (s1 & E1 & H1); [one_of_names | none_of_names |].
  destruct (merge_step this source ts ss s _ s1 ("pixelSize", "_pixelSize")
              Hslots H1)
    as (s2 & E2 & H2); [one_of_names | none_of_names |].
  destruct (merge_step this source ts ss s _ s2
              ("outlineColor", "_outlineColor") Hslots H2)
    as (s3 & E3 & H3); [one_of_names | none_of_names |].
  destruct (merge_step this source ts ss s _ s3
              ("outlineWidth", "_outlineWidth") Hslots H3)
    as (s4 & E4 & H4); [one_of_names | none_of_names |].
  destruct (merge_step this source ts ss s _ s4 ("show", "_show") Hslots H4)
    as (s5 & E5 & H5); [one_of_names | none_of_names |].
  exists s5. split.
  { etransitivity; [apply E1|]. etransitivity; [apply E2|].
    etransitivity; [apply E3|]. etransitivity; [apply E4|].
    etransitivity; [apply E5|]. reflexivity. }
  destruct H5 as (_ & Hdone & Hframe). split; [|exact Hframe].
  intros p Hp. apply Hdone; [exact Hp|].
  apply list_elem_of_In in Hp. apply list_elem_of_In. simpl in Hp |- *.
  tauto.
Qed.
End DynamicPointFacts.

(** ** Accessors over private fields *)

Lemma names_cases (P : string * string -> Prop) :
  P ("color", "_color") -> P ("pixelSize", "_pixelSize") ->
  P ("outlineColor", "_outlineColor") ->
  P ("outlineWidth", "_outlineWidth") -> P ("show", "_show") ->
  forall p, p ∈ DynamicPoint.names -> P p.
Proof.
  intros H1 H2 H3 H4 H5 p Hp. apply list_elem_of_In in Hp. simpl in Hp.
  destruct Hp as [<-|[<-|[<-|[<-|[<-|[]]]]]]; assumption.
Qed.

Lemma names_private p q :
  p ∈ DynamicPoint.names -> q ∈ DynamicPoint.names ->
  snd p = snd q -> p = q.
Proof.
  intros Hp Hq. revert q Hq. revert p Hp.
  refine (names_cases (fun p => forall q, q ∈ DynamicPoint.names ->
                                          snd p = snd q -> p = q) _ _ _ _ _);
    refine (names_cases _ _ _ _ _ _);
    simpl; intros H; try discriminate H; reflexivity.
Qed.

Lemma names_ordinary c p :
  p ∈ DynamicPoint.names -> exotic_key c (snd p) = false.
Proof.
  revert p. apply names_cases; destruct c; reflexivity.
Qed.

Lemma field_reads_inv p x s v :
  DynamicPoint.reads DynamicPoint.field_property p x s v ->
  exists l o, x = VObj l /\ heap s !! l = Some o /\ v = object_get o (snd p).
Proof.
  unfold DynamicPoint.reads, DynamicPoint.property. simpl. intros H.
  destruct x as [| | | | |l]; try discriminate H.
  rewrite get_run in H. simpl in H.
  destruct (heap s !! l) as [o|] eqn:Ho; [|discriminate H].
  injection H as <-. eauto.
Qed.

Lemma field_reads_stored p l o s :
  heap s !! l = Some o ->
  DynamicPoint.reads DynamicPoint.field_property p (VObj l) s
                     (object_get o (snd p)).
Proof.
  intros Ho. unfold DynamicPoint.reads, DynamicPoint.property. simpl.
  rewrite get_run. simpl. rewrite Ho. reflexivity.
Qed.

(** Accessors that read and write the private field behave as slots. *)
Lemma field_property_slots :
  DynamicPoint.slots DynamicPoint.field_property.
Proof.
  intros p x v s Hp [old Hold].
  apply field_reads_inv in Hold as (l & o & -> & Ho & _).
  assert (Hlt : (l < List.length (heap s))%nat)
    by (eapply lookup_lt_Some, Ho).
  eexists. split.
  { unfold DynamicPoint.property. simpl.
    apply (put_run _ _ _ _ _ Ho), names_ordinary, Hp. }
  split.
  - replace v with
      (object_get (with_own o (own_insert (snd p) v (own o))) (snd p)) at 2.
    + apply field_reads_stored. simpl.
      apply list_lookup_insert_eq, Hlt.
    + rewrite object_get_own_insert, decide_True by reflexivity. reflexivity.
  - intros q y w Hq Hne Hw.
    apply field_reads_inv in Hw as (l' & o' & -> & Ho' & ->).
    destruct (decide (l' = l)) as [->|Hl].
    + assert (o' = o) as -> by congruence.
      replace (object_get o (snd q)) with
        (object_get (with_own o (own_insert (snd p) v (own o))) (snd q)).
      * apply field_reads_stored. simpl. apply list_lookup_insert_eq, Hlt.
      * rewrite object_get_own_insert. destruct (decide _) as [He|]; [|auto].
        exfalso. apply Hne. f_equal. apply names_private; assumption.
    + apply field_reads_stored. simpl.
      rewrite list_lookup_insert_ne by congruence. exact Ho'.
Qed.

(** An assignment to the object a list ends its first stretch with. *)
Lemma put_middle h o rest w k x :
  exotic_key (obj_class_of o) k = false ->
  put (VObj (List.length h)) k x {| heap := h ++ o :: rest; warnings := w |} =
  (Ret tt,
   {| heap := h ++ with_own o (own_insert k x (own o)) :: rest;
      warnings := w |}).
Proof.
  intros Hk.
  rewrite (put_run _ _ _ _ o); [|apply list_lookup_middle; reflexivity
                                 |exact Hk].
  simpl. rewrite insert_app_r_alt by lia. rewrite Nat.sub_diag. reflexivity.
Qed.

(** The constructor over private fields, with a new object for its event,
    returns a readable point and touches nothing that was there. *)
Lemma field_property_constructs :
  DynamicPoint.constructs DynamicPoint.field_property new_object.
Proof.
  intros s. unfold DynamicPoint.constructor.
  rewrite (bind_run _ _ _ _ _ (new_object_run s)).
  do 5 (erewrite bind_run by (apply put_middle; reflexivity)).
  simpl.
  erewrite bind_run by apply new_object_run. simpl.
  rewrite <- app_assoc. simpl.
  erewrite bind_run by (apply put_middle; reflexivity).
  eexists. eexists. split; [reflexivity|]. split; [|split].
  - intros p Hp. eexists. apply field_reads_stored. simpl.
    apply list_lookup_middle. reflexivity.
  - intros p v Hp Hv.
    apply field_reads_inv in Hv as (l & o & [= <-] & Ho & _).
    apply lookup_lt_Some in Ho. lia.
  - intros q y w Hq Hw.
    apply field_reads_inv in Hw as (l & o & -> & Ho & ->).
    apply field_reads_stored. simpl. apply lookup_app_l_Some. exact Ho.
Qed.

Lemma DynamicPoint_clone_copies_witness :
  (exists r s',
     DynamicPoint.clone DynamicPoint.field_property new_object
                        (VObj 0) (VObj 1) DynamicPoint.points = (Ret r, s') /\
     r = VObj 1 /\
     get r "_color" s' = (Ret (VStr "red"), s') /\
     get r "_pixelSize" s' = (Ret VUndefined, s') /\
     get r "_show" s' = (Ret (VBool false), s')) /\
  (exists r s',
     DynamicPoint.clone DynamicPoint.field_property new_object
                        (VObj 0) VUndefined DynamicPoint.points = (Ret r, s') /\
     r = VObj 4 /\
     heap DynamicPoint.points !! 4%nat = None /\
     get r "_color" s' = (Ret (VStr "red"), s') /\
     get r "_show" s' = (Ret (VBool false), s') /\
     get (VObj 0) "_color" s' = (Ret (VStr "red"), s')).
Proof.
  split.
  - destruct (DynamicPoint_clone_copies DynamicPoint.field_property
                new_object (VObj 0) (VObj 1)
                (fun p => object_get DynamicPoint.red_point (snd p))
                DynamicPoint.points field_property_slots
                field_property_constructs)
      as (r & s' & Hrun & Hr & Hcopy & _).
    { intros p _. apply field_reads_stored. reflexivity. }
    { intros _ p _. eexists. apply field_reads_stored. reflexivity. }
    exists r, s'. split; [exact Hrun|].
    simpl in Hr. rewrite Hr in *. split; [reflexivity|].
    split; [|split].
    + apply (Hcopy ("color", "_color")). apply list_elem_of_In. simpl. tauto.
    + apply (Hcopy ("pixelSize", "_pixelSize")).
      apply list_elem_of_In. simpl. tauto.
    + apply (Hcopy ("show", "_show")). apply list_elem_of_In. simpl. tauto.
  - destruct (DynamicPoint_clone_copies DynamicPoint.field_property
                new_object (VObj 0) VUndefined
                (fun p => object_get DynamicPoint.red_point (snd p))
                DynamicPoint.points field_property_slots
                field_property_constructs)
      as (r & s' & Hrun & Hr & Hcopy & _).
    { intros p _. apply field_reads_stored. reflexivity. }
    { discriminate. }
    simpl in Hr. destruct Hr as ([s1 Hnew] & _ & _).
    assert (Hpoint : fst (DynamicPoint.constructor new_object
                            DynamicPoint.points) = Ret (VObj 4))
      by (vm_compute; reflexivity).
    rewrite Hnew in Hpoint. injection Hpoint as ->.
    exists (VObj 4), s'. split; [exact Hrun|]. split; [reflexivity|].
    split; [reflexivity|]. split; [|split].
    + apply (Hcopy ("color", "_color")). apply list_elem_of_In. simpl. tauto.
    + apply (Hcopy ("show", "_show")). apply list_elem_of_In. simpl. tauto.
    + apply (Hcopy ("color", "_color")). apply list_elem_of_In. simpl. tauto.
Defined.

Lemma DynamicPoint_merge_fills_witness :
  (exists s',
     DynamicPoint.merge DynamicPoint.field_property DynamicPoint.first_assigned
                        (VObj 1) (VObj 0) DynamicPoint.points = (Ret tt, s') /\
     get (VObj 1) "_color" s' = (Ret (VStr "blue"), s') /\
     get (VObj 1) "_show" s' = (Ret (VBool false), s') /\
     get (VObj 0) "_color" s' = (Ret (VStr "red"), s')) /\
  DynamicPoint.merge DynamicPoint.field_property DynamicPoint.first_assigned
                     (VObj 1) VNull DynamicPoint.points =
  (Throw (DeveloperError "source is required."), DynamicPoint.points).
Proof.
  split.
  - destruct (DynamicPoint_merge_fills DynamicPoint.field_property
                DynamicPoint.first_assigned (VObj 1) (VObj 0)
                (fun p => object_get DynamicPoint.blue_point (snd p))
                (fun p => object_get DynamicPoint.red_point (snd p))
                DynamicPoint.points field_property_slots)
      as (s' & Hrun & Hmine & Hrest).
    { intros p _. apply field_reads_stored. reflexivity. }
    { intros _ p _. apply field_reads_stored. reflexivity. }
    exists s'. split; [exact Hrun|]. split; [|split].
    + apply (Hmine ("color", "_color")). apply list_elem_of_In. simpl. tauto.
    + apply (Hmine ("show", "_show")). apply list_elem_of_In. simpl. tauto.
    + apply (Hrest ("color", "_color") (VObj 0)).
      * apply list_elem_of_In. simpl. tauto.
      * discriminate.
      * apply (field_reads_stored ("color", "_color") 0
                 DynamicPoint.red_point).
        reflexivity.
  - apply (DynamicPoint_merge_fills DynamicPoint.field_property
             DynamicPoint.first_assigned (VObj 1) VNull
             (fun p => object_get DynamicPoint.blue_point (snd p))
             (fun _ => VUndefined)
             DynamicPoint.points field_property_slots).
    + intros p _. apply field_reads_stored. reflexivity.
    + discriminate.
Defined.

(** * The legacy hierarchy, end to end *)

Lemma bind_throw {A B} (m : M A) (f : A -> M B) s e s' :
  m s = (Throw e, s') -> bind m f s = (Throw e, s').
Proof. intros H. unfold bind. rewrite H. reflexivity. Qed.

Section LegacyHierarchy.
Context {View : Type}.
Variable getBinaryAccessor :
  list object -> value -> outcome (@BinaryAccessor View).

(** X13. A legacy HIERARCHY becomes the hierarchy of the bundle. When
    [parseBatchTable] returns for a batch table with a defined HIERARCHY,
    the feature table's hierarchy is built from that very payload and the
    binary body of the call; an entry the extensions had under
    [3DTILES_batch_table_hierarchy] before is not used. The bundle's
    extensions are the object that now holds the payload, and the warning
    has been given. *)
Theorem parseBatchTable_legacy_hierarchy opts s bundle s' legacy :
  parseBatchTable getBinaryAccessor opts s = (Ret bundle, s') ->
  get (batchTable opts) "HIERARCHY" s = (Ret legacy, s) ->
  defined legacy = true ->
  exists e table,
    fm_featureTables bundle = [("_batchTable", table)] /\
    fm_extensions bundle = VObj e /\
    ft_batchTableHierarchy table =
      Some {| bth_extension := legacy; bth_binaryBody := binaryBody opts |} /\
    get (VObj e) "3DTILES_batch_table_hierarchy" s' = (Ret legacy, s') /\
    warnings s' = (warnings s ++ [hierarchy_warning])%list.
Proof.
  intros Hrun Hl Hdl.
  apply parseBatchTable_inv in Hrun
    as (_ & _ & _ & r & s1 & hierarchy & t & Hpart & Hh & _ & -> & ->).
  assert (Hfold : exists e,
            extensions r = VObj e /\
            get (VObj e) "3DTILES_batch_table_hierarchy" s1 = (Ret legacy, s1)
            /\ warnings s1 = (warnings s ++ [hierarchy_warning])%list).
  { destruct (partitionProperties_cases _ _ _ _ Hpart)
      as (legacy0 & extras0 & ev & Hl0 & Hx & He & Hcases).
    rewrite Hl in Hl0. injection Hl0 as <-.
    destruct Hcases as [Hn | [_ [Hde | (e & o & -> & Ho)]]]; [congruence| |].
    - rewrite (partitionProperties_new _ _ _ _ _ Hl Hx He Hdl Hde) in Hpart.
      injection Hpart as Hr <-.
      apply partition_result_inv in Hr as (acc & _ & ->).
      exists (List.length (heap s)). split; [reflexivity|].
      split; [|reflexivity].
      rewrite get_run. simpl. rewrite lookup_app_r by lia.
      rewrite Nat.sub_diag. reflexivity.
    - rewrite (partitionProperties_existing _ _ _ _ _ _ Hl Hx He Hdl Ho)
        in Hpart.
      injection Hpart as Hr <-.
      apply partition_result_inv in Hr as (acc & _ & ->).
      exists e. split; [reflexivity|]. split; [|reflexivity].
      rewrite get_run. simpl.
      rewrite list_lookup_insert_eq by (eapply lookup_lt_Some, Ho).
      rewrite object_get_own_insert, decide_True by reflexivity.
      reflexivity. }
  destruct Hfold as (e & He & Hget & Hw).
  exists e. eexists. split; [reflexivity|]. simpl.
  split; [exact He|]. split; [|split; [exact Hget | exact Hw]].
  rewrite He in Hh. unfold initializeHierarchy in Hh. simpl in Hh.
  rewrite (bind_run _ _ _ _ _ Hget), Hdl in Hh. simpl in Hh.
  injection Hh as <-. reflexivity.
Qed.

(** X14. The binary body is checked for being an object only by its
    [typeof], which null passes; it is first used inside the loop. So a
    body that is undefined or null makes [transcodeBinaryProperties] throw
    a TypeError at the first binary property, once the accessor and the
    type mapper have accepted that property, and changes nothing. *)
Theorem transcodeBinaryProperties_needs_body fc d body s k p rest accessor ty :
  d_own d = (k, p) :: rest ->
  k <> "__proto__" ->
  d_proto d = ProtoObject ->
  assoc "hasOwnProperty" (d_own d) = None ->
  defined body = false ->
  getBinaryAccessor (heap s) p = Ret accessor ->
  transcodePropertyType p s = (Ret ty, s) ->
  transcodeBinaryProperties getBinaryAccessor fc d body s =
  (Throw TypeError, s).
Proof.
  intros Hown Hk Hproto Hguard Hbody Hacc Hty.
  unfold transcodeBinaryProperties.
  assert (Hkeys : dict_for_in_keys d s =
                  (Ret (k :: first_visits [k] (keys rest)), s)).
  { unfold dict_for_in_keys. rewrite Hproto, Hown. reflexivity. }
  rewrite (bind_run _ _ _ _ _ Hkeys). apply bind_throw.
  rewrite for_each_cons. apply bind_throw.
  unfold transcode_step.
  assert (Hhas : dict_hasOwnProperty d k s = (Ret true, s)).
  { unfold dict_hasOwnProperty, read. rewrite Hguard, Hproto. simpl.
    rewrite bool_decide_eq_true_2; [reflexivity|].
    rewrite Hown. left. }
  rewrite (bind_run _ _ _ _ _ Hhas). cbn [negb].
  assert (Hget : dict_get d k s = (Ret p, s)).
  { unfold dict_get. rewrite Hown. simpl.
    rewrite decide_True by reflexivity. reflexivity. }
  rewrite (bind_run _ _ _ _ _ Hget).
  erewrite bind_run by (unfold read; rewrite Hacc; reflexivity).
  erewrite bind_run by (apply dict_set_ordinary, Hk).
  rewrite (bind_run _ _ _ _ _ Hty).
  erewrite bind_run by (apply dict_set_ordinary, Hk).
  apply bind_throw. rewrite get_run.
  destruct body; try discriminate Hbody; reflexivity.
Qed.
End LegacyHierarchy.

Lemma parseBatchTable_legacy_hierarchy_witness :
  exists bundle s' e table,
    parseBatchTable specBinaryAccessor (options_of 2) LegacyExtensions.store =
      (Ret bundle, s') /\
    get (VObj 5) "3DTILES_batch_table_hierarchy" LegacyExtensions.store =
      (Ret (VStr "old"), LegacyExtensions.store) /\
    fm_featureTables bundle = [("_batchTable", table)] /\
    fm_extensions bundle = VObj e /\
    get (VObj e) "3DTILES_batch_table_hierarchy" s' = (Ret (VObj 3), s') /\
    ft_batchTableHierarchy table =
      Some {| bth_extension := VObj 3; bth_binaryBody := VObj 0 |}.
Proof.
  destruct (parseBatchTable specBinaryAccessor (options_of 2)
              LegacyExtensions.store) as [out s'] eqn:Hrun.
  assert (Hout : exists bundle, out = Ret bundle).
  { assert (Hfst : fst (parseBatchTable specBinaryAccessor (options_of 2)
                          LegacyExtensions.store) = out)
      by (rewrite Hrun; reflexivity).
    vm_compute in Hfst. rewrite <- Hfst. eauto. }
  destruct Hout as [bundle ->].
  destruct (parseBatchTable_legacy_hierarchy specBinaryAccessor (options_of 2)
              LegacyExtensions.store bundle s' (VObj 3) Hrun eq_refl eq_refl)
    as (e & table & Hft & He & Hh & Hget & _).
  exists bundle, s', e, table. split; [reflexivity|]. split; [reflexivity|].
  split; [exact Hft|]. split; [exact He|]. split; [exact Hget | exact Hh].
Defined.

Lemma transcodeBinaryProperties_needs_body_witness :
  transcodeBinaryProperties specBinaryAccessor (VNum (Int 2)) Example.binary
                            VNull Example.store =
  (Throw TypeError, Example.store).
Proof.
  eapply (transcodeBinaryProperties_needs_body specBinaryAccessor
            (VNum (Int 2)) Example.binary VNull Example.store
            "height" (VObj 3)).
  - reflexivity.
  - discriminate.
  - reflexivity.
  - reflexivity.
  - reflexivity.
  - vm_compute. reflexivity.
  - vm_compute. reflexivity.
Defined.

(** * An unrecognized component type *)

(** The descriptor of a property whose component type is none of the
    eight. *)
Lemma transcodePropertyType_unmapped p componentType ty s :
  get p "componentType" s = (Ret componentType, s) ->
  transcodeComponentType componentType = VUndefined ->
  transcodePropertyType p s = (Ret ty, s) ->
  (td_type ty = VUndefined /\ td_componentType ty = None) \/
  (td_type ty = VStr "ARRAY" /\ td_componentType ty = Some VUndefined).
Proof.
  intros Hc Hu Hty. unfold transcodePropertyType in Hty.
  rewrite (bind_run _ _ _ _ _ Hc), Hu in Hty.
  apply bind_ret_inv in Hty as (type & s1 & _ & Hty).
  destruct (decide (type = VStr "SCALAR")) as [Hs|Hs].
  - injection Hty as <- _. left. split; reflexivity.
  - apply bind_ret_inv in Hty as (digit & s2 & _ & Hty).
    apply bind_ret_inv in Hty as (count0 & s3 & _ & Hty).
    injection Hty as <- _. right. split; reflexivity.
Qed.

Section UnknownComponentType.
Context {View : Type}.
Variable getBinaryAccessor :
  list object -> value -> outcome (@BinaryAccessor View).

(** The loop stops at the first property the accessor rejects. *)
Lemma transcodeBinaryProperties_rejected fc d body s pre k p rest e :
  d_own d = (pre ++ (k, p) :: rest)%list ->
  NoDup (keys (d_own d)) ->
  "__proto__" ∉ keys (d_own d) ->
  d_proto d = ProtoObject ->
  assoc "hasOwnProperty" (d_own d) = None ->
  (forall k' p', (k', p') ∈ pre ->
     exists r,
       transcode_property getBinaryAccessor fc body p' s = (Ret r, s)) ->
  getBinaryAccessor (heap s) p = Throw e ->
  transcodeBinaryProperties getBinaryAccessor fc d body s = (Throw e, s).
Proof.
  intros Hown Hnd Hnp Hproto Hguard Hpre Hacc.
  assert (Hhas : forall k', k' ∈ keys (d_own d) ->
            dict_hasOwnProperty d k' s = (Ret true, s)).
  { intros k' Hin. unfold dict_hasOwnProperty, read.
    rewrite Hguard, Hproto. simpl.
    rewrite bool_decide_eq_true_2 by exact Hin. reflexivity. }
  assert (Hget : forall k' p', (k', p') ∈ d_own d ->
            dict_get d k' s = (Ret p', s)).
  { intros k' p' Hin. unfold dict_get.
    rewrite (assoc_elem _ _ _ Hnd Hin). reflexivity. }
  assert (Hin : forall k' p', (k', p') ∈ pre -> (k', p') ∈ d_own d).
  { intros k' p' H. rewrite Hown. apply elem_of_app. left. exact H. }
  assert (Hndpre : NoDup (keys pre)).
  { unfold keys in Hnd |- *. rewrite Hown, map_app in Hnd.
    apply NoDup_app in Hnd as [Hnd _]. exact Hnd. }
  unfold transcodeBinaryProperties.
  assert (Hkeys : dict_for_in_keys d s =
                  (Ret (keys pre ++ k :: keys rest)%list, s)).
  { unfold dict_for_in_keys. rewrite Hproto.
    rewrite (first_visits_NoDup [] _ Hnd).
    - rewrite Hown. unfold keys. rewrite map_app. reflexivity.
    - intros k' _ H. inversion H. }
  rewrite (bind_run _ _ _ _ _ Hkeys). apply bind_throw.
  destruct (transcode_loop getBinaryAccessor fc d body s pre
              {| acc_classProperties := empty_dict;
                 acc_featureTableProperties := empty_dict;
                 acc_bufferViewsU8 := [];
                 acc_bufferViewCount := 0 |})
    as (acc & Hloop & _); [exact Hndpre | constructor | |].
  { intros k' p' H. split; [|split; [|split]].
    - intros ->. apply Hnp. apply list_elem_of_fmap.
      exists ("__proto__", p'). split; [reflexivity | apply Hin, H].
    - apply Hhas. apply list_elem_of_fmap. exists (k', p').
      split; [reflexivity | apply Hin, H].
    - apply Hget, Hin, H.
    - apply (Hpre k' p' H). }
  rewrite (for_each_app _ _ _ _ _ _ _ Hloop), for_each_cons.
  apply bind_throw. unfold transcode_step.
  assert (Hk : (k, p) ∈ d_own d).
  { rewrite Hown. apply elem_of_app. right. left. }
  erewrite bind_run.
  2: { apply Hhas. apply list_elem_of_fmap. exists (k, p).
       split; [reflexivity | exact Hk]. }
  cbn [negb]. rewrite (bind_run _ _ _ _ _ (Hget _ _ Hk)).
  apply bind_throw. unfold read. rewrite Hacc. reflexivity.
Qed.

(** C3. [transcodeComponentType] maps the eight legacy tags as the table
    says and every other value to undefined; it is a function of its
    argument alone, so nothing is reported. With such a component type
    [transcodePropertyType] does not fail: it returns a descriptor whose
    type field (SCALAR) or component-type field (otherwise) is undefined.
    [transcodeBinaryProperties] calls the binary accessor on a property
    before it maps the type: when the accessor and the view construction
    accept every property, the class of the schema holds that descriptor
    under the property's key; when the accessor rejects the property, the
    properties before it having been accepted, the call fails with the
    accessor's error. *)
Theorem transcodeComponentType_table :
  (forall v,
     transcodeComponentType v =
     match v with
     | VStr tag =>
         match assoc tag legacy_component_types with
         | Some target => VStr target
         | None => VUndefined
         end
     | _ => VUndefined
     end) /\
  (forall property s componentType type,
     get property "componentType" s = (Ret componentType, s) ->
     get property "type" s = (Ret (VStr type), s) ->
     transcodeComponentType componentType = VUndefined ->
     exists d,
       transcodePropertyType property s = (Ret d, s) /\
       if decide (type = "SCALAR")
       then d = {| td_type := VUndefined;
                   td_componentType := None;
                   td_componentCount := None |}
       else td_type d = VStr "ARRAY" /\ td_componentType d = Some VUndefined)
  /\
  (forall fc d body s k p componentType,
     transcodable getBinaryAccessor fc d body s ->
     (k, p) ∈ d_own d ->
     get p "componentType" s = (Ret componentType, s) ->
     transcodeComponentType componentType = VUndefined ->
     exists t c ty,
       transcodeBinaryProperties getBinaryAccessor fc d body s = (Ret t, s) /\
       schema_classes (transcodedSchema t) = [("_batchTable", c)] /\
       transcodePropertyType p s = (Ret ty, s) /\
       assoc k (d_own (class_properties c)) = Some ty /\
       ((td_type ty = VUndefined /\ td_componentType ty = None) \/
        (td_type ty = VStr "ARRAY" /\ td_componentType ty = Some VUndefined)))
  /\
  (forall fc d body s pre k p rest e,
     d_own d = (pre ++ (k, p) :: rest)%list ->
     NoDup (keys (d_own d)) ->
     "__proto__" ∉ keys (d_own d) ->
     d_proto d = ProtoObject ->
     assoc "hasOwnProperty" (d_own d) = None ->
     (forall k' p', (k', p') ∈ pre ->
        exists r,
          transcode_property getBinaryAccessor fc body p' s = (Ret r, s)) ->
     getBinaryAccessor (heap s) p = Throw e ->
     transcodeBinaryProperties getBinaryAccessor fc d body s = (Throw e, s)).
Proof.
  destruct transcodeComponentType_cases as [Htable Hdescriptor].
  split; [exact Htable|]. split; [exact Hdescriptor|]. split.
  - intros fc d body s k p componentType Hd Hin Hc Hu.
    destruct (transcodeBinaryProperties_run getBinaryAccessor _ _ _ _ Hd)
      as (acc & Hrun & _ & Hown & _).
    apply list_elem_of_lookup in Hin as [i Hi].
    destruct (Hown _ _ _ Hi) as (ty & v & Hp & _ & Hclass & _).
    apply transcode_property_inv in Hp
      as (? & ? & ? & ? & ? & _ & Hty & _).
    eexists. exists {| class_properties := acc_classProperties acc |}, ty.
    split; [exact Hrun|]. simpl. split; [reflexivity|].
    split; [exact Hty|]. split; [exact Hclass|].
    exact (transcodePropertyType_unmapped _ _ _ _ Hc Hu Hty).
  - apply transcodeBinaryProperties_rejected.
Qed.
End UnknownComponentType.

Lemma unknown_transcodable :
  transcodable specBinaryAccessor (VNum (Int 2)) unknown_binary (VObj 0)
               UnknownType.store.
Proof.
  unfold transcodable. split; [|split; [|split; [|split]]].
  - apply NoDup_ListNoDup. repeat constructor; simpl; intuition discriminate.
  - intros H. apply list_elem_of_In in H. simpl in H. intuition discriminate.
  - eexists. vm_compute. reflexivity.
  - intros k. reflexivity.
  - intros k p H. apply list_elem_of_In in H. simpl in H.
    destruct H as [H|[]]; injection H as <- <-;
      eexists; vm_compute; reflexivity.
Qed.

Lemma transcodeComponentType_table_witness :
  transcodeComponentType (VStr "FLOAT") = VStr "FLOAT32" /\
  transcodeComponentType (VStr "HALF") = VUndefined /\
  get (VObj 3) "componentType" UnknownType.store =
    (Ret (VStr "HALF"), UnknownType.store) /\
  exists t c,
    transcodeBinaryProperties specBinaryAccessor (VNum (Int 2)) unknown_binary
                              (VObj 0) UnknownType.store =
      (Ret t, UnknownType.store) /\
    schema_classes (transcodedSchema t) = [("_batchTable", c)] /\
    assoc "height" (d_own (class_properties c)) =
      Some {| td_type := VUndefined;
              td_componentType := None;
              td_componentCount := None |}.
Proof.
  destruct (transcodeComponentType_table specBinaryAccessor)
    as (Htable & _ & Hschema & _).
  split; [rewrite Htable; reflexivity|].
  split; [rewrite Htable; reflexivity|].
  split; [reflexivity|].
  destruct (Hschema (VNum (Int 2)) unknown_binary (VObj 0) UnknownType.store
              "height" (VObj 3) (VStr "HALF") unknown_transcodable)
    as (t & c & ty & Hrun & Hclasses & Hty & Hclass & _).
  { apply list_elem_of_In. simpl. tauto. }
  { reflexivity. }
  { reflexivity. }
  exists t, c. split; [exact Hrun|]. split; [exact Hclasses|].
  rewrite Hclass. f_equal.
  assert (Hty' : transcodePropertyType (VObj 3) UnknownType.store =
                 (Ret {| td_type := VUndefined;
                         td_componentType := None;
                         td_componentCount := None |}, UnknownType.store))
    by reflexivity.
  rewrite Hty' in Hty. injection Hty as <-. reflexivity.
Defined.

(** With an accessor that knows the eight component types only, the
    unrecognized one reaches no schema: the call fails before the type is
    mapped. *)
Lemma transcodeComponentType_unknown_rejected :
  transcodeComponentType (VStr "HALF") = VUndefined /\
  get (VObj 3) "componentType" UnknownType.store =
    (Ret (VStr "HALF"), UnknownType.store) /\
  transcodeBinaryProperties strictBinaryAccessor (VNum (Int 2)) unknown_binary
                            (VObj 0) UnknownType.store =
    (Throw (DeveloperError "componentType"), UnknownType.store) /\
  parseBatchTable strictBinaryAccessor (options_of 2) UnknownType.store =
    (Throw (DeveloperError "componentType"), UnknownType.store).
Proof. repeat split; vm_compute; reflexivity. Qed.

(** * What a returning run went through *)

Lemma keeps_objects_refl h : keeps_objects h h.
Proof. intros l x Hx. exists x. auto. Qed.

(** [partitionProperties] keeps the objects, however it ends. *)
Lemma partitionProperties_keeps_objects bt s :
  keeps_objects (heap s) (heap (snd (partitionProperties bt s))).
Proof.
  pose proof (partitionProperties_state bt s) as Hp. simpl in Hp.
  destruct Hp as [[-> _] | (legacy & _ & _ & Hp)];
    [apply keeps_objects_refl|].
  destruct Hp as [-> | [-> | (e & o & _ & Ho & ->)]]; simpl.
  - apply keeps_objects_refl.
  - intros l x Hx. exists x. split; [|auto].
    apply lookup_app_l_Some. exact Hx.
  - assert (Hlt : (e < List.length (heap s))%nat)
      by (eapply lookup_lt_Some, Ho).
    intros l x Hx. destruct (decide (l = e)) as [->|Hne].
    + rewrite list_lookup_insert_eq by exact Hlt.
      assert (x = o) as -> by congruence.
      eexists. split; [reflexivity|]. simpl.
      split; [reflexivity|]. split; [reflexivity|].
      intros k Hk. rewrite assoc_own_insert.
      destruct (decide _); [contradiction | reflexivity].
    + exists x. split; [|auto].
      rewrite list_lookup_insert_ne by congruence. exact Hx.
Qed.

Lemma get_in_kept h h' v k :
  keeps_objects h h' ->
  (forall l, v = VObj l -> is_Some (h !! l)) ->
  k <> "3DTILES_batch_table_hierarchy" ->
  get_in h' v k = get_in h v k.
Proof.
  intros Hk Hs Hne. destruct v as [| | | | |l]; try reflexivity. simpl.
  destruct (Hs _ eq_refl) as [x Hx]. rewrite Hx.
  destruct (Hk _ _ Hx) as (x' & -> & Hc & Hi & Ho).
  unfold object_get. rewrite (Ho k Hne), Hi, Hc. reflexivity.
Qed.

Lemma is_array_kept_objects h h' v :
  keeps_objects h h' ->
  (forall l, v = VObj l -> is_Some (h !! l)) ->
  is_array h' v = is_array h v.
Proof.
  intros Hk. apply is_array_kept. intros l x Hx.
  destruct (Hk _ _ Hx) as (x' & Hx' & Hc & _). eauto.
Qed.

Section Inversion.
Context {View : Type}.
Variable getBinaryAccessor :
  list object -> value -> outcome (@BinaryAccessor View).

(** A turn of the loop that returned, for an own property. *)
Lemma transcode_step_inv fc d body k acc s acc' s' p :
  transcode_step getBinaryAccessor fc d body k acc s = (Ret acc', s') ->
  dict_hasOwnProperty d k s = (Ret true, s) ->
  dict_get d k s = (Ret p, s) ->
  k <> "__proto__" ->
  exists ty v,
    transcode_property getBinaryAccessor fc body p s = (Ret (ty, v), s) /\
    s' = s /\
    acc' =
    {| acc_classProperties := dict_define (acc_classProperties acc) k ty;
       acc_featureTableProperties :=
         dict_define (acc_featureTableProperties acc) k
                     {| bufferView := acc_bufferViewCount acc |};
       acc_bufferViewsU8 :=
         slot_insert (acc_bufferViewCount acc) v (acc_bufferViewsU8 acc);
       acc_bufferViewCount := S (acc_bufferViewCount acc) |}.
Proof.
  intros H Hhas Hget Hk.
  assert (Hp : exists r,
            transcode_property getBinaryAccessor fc body p s = (Ret r, s)).
  { unfold transcode_step in H.
    rewrite (bind_run _ _ _ _ _ Hhas) in H. cbn [negb] in H.
    rewrite (bind_run _ _ _ _ _ Hget) in H.
    apply bind_ret_inv in H as (accessor & s1 & Ha & H).
    apply keeps_state in Ha as Hs; [subst s1 | apply keeps_read].
    erewrite bind_run in H by (apply dict_set_ordinary, Hk).
    apply bind_ret_inv in H as (ty & s1 & Hty & H).
    apply keeps_state in Hty as Hs;
      [subst s1 | apply keeps_transcodePropertyType].
    erewrite bind_run in H by (apply dict_set_ordinary, Hk).
    apply bind_ret_inv in H as (buffer & s1 & Hb & H).
    apply keeps_state in Hb as Hs; [subst s1 | apply keeps_get].
    apply bind_ret_inv in H as (bodyOffset & s1 & Hbo & H).
    apply keeps_state in Hbo as Hs; [subst s1 | apply keeps_get].
    apply bind_ret_inv in H as (propertyOffset & s1 & Hpo & H).
    apply keeps_state in Hpo as Hs; [subst s1 | apply keeps_get].
    apply bind_ret_inv in H as (byteOffset & s1 & Hoff & H).
    apply keeps_state in Hoff as Hs; [subst s1 | apply keeps_js_add].
    apply bind_ret_inv in H as (view & s1 & Hv & H).
    apply keeps_state in Hv as Hs; [subst s1 | apply keeps_read].
    exists (ty, view). unfold transcode_property.
    rewrite (bind_run _ _ _ _ _ Ha), (bind_run _ _ _ _ _ Hty),
      (bind_run _ _ _ _ _ Hb), (bind_run _ _ _ _ _ Hbo),
      (bind_run _ _ _ _ _ Hpo), (bind_run _ _ _ _ _ Hoff),
      (bind_run _ _ _ _ _ Hv).
    reflexivity. }
  destruct Hp as [[ty v] Hp]. exists ty, v. split; [exact Hp|].
  rewrite (transcode_step_own getBinaryAccessor _ _ _ _ acc _ _ _ _
             Hk Hhas Hget Hp) in H.
  injection H as <- <-. split; reflexivity.
Qed.

(** On an object the program built itself, the loop visits the own keys
    and finds each one. *)
Lemma plain_dict_keys (d : dict value) s :
  plain_dict d ->
  dict_for_in_keys d s = (Ret (keys (d_own d)), s) /\
  (forall k,
     dict_hasOwnProperty d k s =
     (Ret (bool_decide (k ∈ keys (d_own d))), s)) /\
  (forall k p, (k, p) ∈ d_own d -> dict_get d k s = (Ret p, s)).
Proof.
  intros (Hnd & Hnp & Hproto & Hguard). split; [|split].
  - unfold dict_for_in_keys. rewrite Hproto.
    rewrite (first_visits_NoDup [] _ Hnd); [reflexivity|].
    intros k _ H. inversion H.
  - intros k. unfold dict_hasOwnProperty, read.
    rewrite Hguard, Hproto. reflexivity.
  - intros k p Hin. unfold dict_get.
    rewrite (assoc_elem _ _ _ Hnd Hin). reflexivity.
Qed.

(** A loop that returned accepted every property it went over. *)
Lemma transcode_loop_inv fc d body s (es : list (string * value)) :
  (forall k p, (k, p) ∈ es ->
     k <> "__proto__" /\
     dict_hasOwnProperty d k s = (Ret true, s) /\
     dict_get d k s = (Ret p, s)) ->
  forall acc acc' s',
    for_each (keys es) (transcode_step getBinaryAccessor fc d body) acc s =
      (Ret acc', s') ->
    forall k p, (k, p) ∈ es ->
      exists r,
        transcode_property getBinaryAccessor fc body p s = (Ret r, s).
Proof.
  induction es as [|[k0 p0] es IH]; intros Hes acc acc' s' Hrun k p Hin.
  - inversion Hin.
  - cbn [keys map fst] in Hrun. fold (keys es) in Hrun.
    rewrite for_each_cons in Hrun.
    apply bind_ret_inv in Hrun as (acc1 & s1 & Hstep & Hrun).
    destruct (Hes k0 p0) as (Hk & Hhas & Hget); [left|].
    destruct (transcode_step_inv _ _ _ _ _ _ _ _ _ Hstep Hhas Hget Hk)
      as (ty & v & Hp & -> & _).
    apply list_elem_of_In in Hin. destruct Hin as [[= <- <-]|Hin].
    + eauto.
    + eapply IH; [| exact Hrun | apply list_elem_of_In, Hin].
      intros k' p' H'. apply Hes. right. exact H'.
Qed.

(** So a call that returned had binary properties the loop can work on. *)
Lemma transcodeBinaryProperties_inv fc d body s t s' :
  plain_dict d ->
  transcodeBinaryProperties getBinaryAccessor fc d body s = (Ret t, s') ->
  transcodable getBinaryAccessor fc d body s.
Proof.
  intros Hd Hrun.
  destruct (plain_dict_keys d s Hd) as (Hkeys & Hhas & Hget).
  destruct Hd as (Hnd & Hnp & Hproto & Hguard).
  split; [exact Hnd|]. split; [exact Hnp|]. split; [eauto|].
  split; [exact Hhas|].
  unfold transcodeBinaryProperties in Hrun.
  rewrite (bind_run _ _ _ _ _ Hkeys) in Hrun.
  apply bind_ret_inv in Hrun as (acc & s1 & Hloop & _).
  eapply transcode_loop_inv; [|exact Hloop].
  intros k p Hin. split; [|split].
  - intros ->. apply Hnp. apply list_elem_of_fmap.
    exists ("__proto__", p). split; [reflexivity | exact Hin].
  - rewrite Hhas, bool_decide_eq_true_2; [reflexivity|].
    apply list_elem_of_fmap. exists (k, p). split; [reflexivity | exact Hin].
  - apply Hget, Hin.
Qed.
End Inversion.

(** [partitionProperties] on a batch table as a parser builds it. *)
Lemma partitionProperties_parsed b o s :
  parsed_table s b o ->
  exists s1 ext,
    partitionProperties (VObj b) s =
    (Ret {| binaryProperties :=
              {| d_own := sorted_entries false (heap s) (own o);
                 d_proto := ProtoObject |};
            jsonProperties :=
              {| d_own := sorted_entries true (heap s) (own o);
                 d_proto := ProtoObject |};
            extras := object_get o "extras";
            extensions := ext |}, s1) /\
    plain_dict {| d_own := sorted_entries false (heap s) (own o);
                  d_proto := ProtoObject |} /\
    (defined (object_get o "HIERARCHY") = false ->
     s1 = s /\ ext = object_get o "extensions").
Proof.
  intros (Ht & Hf & Hnd & Hord & Hnp).
  destruct (partitionProperties_ordinary _ _ _ Ht Hf)
    as (s1 & ext & Hrun & Ht1 & Hkept & Hplain).
  destruct (partition_loop_exact _ _ _ Ht1 Hnd Hord)
    as (json & binary & Hloop & Hj & Hb & Hp).
  destruct (Hp Hnp) as [Hpj Hpb]. clear Hp.
  destruct Ht1 as (Hstored & Hc & Hg & Hv).
  destruct (partition_loop_sorts _ _ _ Hstored Hc Hg Hv)
    as (json0 & binary0 & Hloop0 & Hsort & _ & Hnpb & _ & Hndb).
  rewrite Hloop in Hloop0. injection Hloop0 as <- <-.
  rewrite Hloop in Hrun. simpl in Hrun.
  assert (Hsame : forall wanted,
            sorted_entries wanted (heap s1) (own o) =
            sorted_entries wanted (heap s) (own o)).
  { intros wanted. apply sorted_entries_kept. intros k v Hin.
    apply is_array_kept; [exact Hkept|]. intros l ->.
    destruct Ht as (_ & _ & _ & Hv0). apply (Hv0 k).
    apply assoc_elem; assumption. }
  destruct json as [jown jproto], binary as [bown bproto].
  simpl in Hj, Hb, Hpj, Hpb, Hnpb, Hndb. subst jown bown jproto bproto.
  rewrite (Hsame false) in Hrun, Hnpb, Hndb. rewrite (Hsame true) in Hrun.
  exists s1, ext. split; [exact Hrun|]. split; [|exact Hplain].
  split; [exact Hndb|]. split; [apply assoc_None, Hnpb|].
  split; [reflexivity|]. simpl.
  destruct (Hsort "hasOwnProperty") as [_ Hh]; [discriminate|].
  simpl in Hh. rewrite (Hsame false) in Hh. rewrite Hh.
  unfold sorted_into, sort_of. simpl.
  assert (assoc "hasOwnProperty" (own o) = None) as ->.
  { unfold hides_hasOwnProperty in Hg.
    apply bool_decide_eq_false_1 in Hg. rewrite assoc_app in Hg.
    destruct (assoc "hasOwnProperty" (own o)); [|reflexivity].
    exfalso. apply Hg. eauto. }
  reflexivity.
Qed.

(** * A parsed batch table, end to end *)

Section WellFormed.
Context {View : Type}.
Variable getBinaryAccessor :
  list object -> value -> outcome (@BinaryAccessor View).

(** X10. A bundle [parseBatchTable] returns accounts for every property of
    the batch table. The batch table is as a parser builds it: an ordinary
    object with distinct own keys in enumeration order, none of them
    [__proto__], with or without a legacy HIERARCHY. Whenever the call
    returns a bundle for it, the bundle has the single feature table
    [_batchTable]; its JSON table holds the count and exactly the
    array-valued properties, in order; the [i]-th of the other properties
    has slot [i] in the feature table, the view built for it in that slot
    and its descriptor in the class; the slots are [0 .. n-1]; extras are
    the batch table's own and, without a legacy HIERARCHY, so are the
    extensions, the state being as it was; the hierarchy is what
    [initializeHierarchy] makes of the bundle's extensions. Whether the
    call returns lies with the accessor and the constructors it calls. *)
Theorem parseBatchTable_well_formed opts b o s bundle s' :
  batchTable opts = VObj b ->
  parsed_table s b o ->
  parseBatchTable getBinaryAccessor opts s = (Ret bundle, s') ->
  exists table,
    fm_featureTables bundle = [("_batchTable", table)] /\
    fm_extras bundle = object_get o "extras" /\
    (defined (object_get o "HIERARCHY") = false ->
     s' = s /\ fm_extensions bundle = object_get o "extensions") /\
    ft_jsonMetadataTable table =
      {| jmt_count := count opts;
         jmt_properties :=
           {| d_own := sorted_entries true (heap s) (own o);
              d_proto := ProtoObject |} |} /\
    initializeHierarchy (fm_extensions bundle) (binaryBody opts) s' =
      (Ret (ft_batchTableHierarchy table), s') /\
    ftj_count (ft_featureTable table) = count opts /\
    map fst (ft_bufferViews table) =
      seq 0 (List.length (sorted_entries false (heap s) (own o))) /\
    (forall i k p,
       sorted_entries false (heap s) (own o) !! i = Some (k, p) ->
       assoc k (d_own (ftj_properties (ft_featureTable table))) =
         Some {| bufferView := i |} /\
       exists ty view c,
         transcode_property getBinaryAccessor (count opts) (binaryBody opts)
                            p s' = (Ret (ty, view), s') /\
         slot_lookup i (ft_bufferViews table) = Some view /\
         ft_class table = Some c /\
         assoc "_batchTable" (schema_classes (fm_schema bundle)) = Some c /\
         assoc k (d_own (class_properties c)) = Some ty) /\
    (forall k,
       k ∉ keys (sorted_entries false (heap s) (own o)) ->
       assoc k (d_own (ftj_properties (ft_featureTable table))) = None).
Proof.
  intros Hbt Hparsed Hrun.
  apply parseBatchTable_inv in Hrun
    as (_ & _ & _ & r & s1 & hierarchy & t & Hpart & Hh & Ht & -> & ->).
  destruct (partitionProperties_parsed _ _ _ Hparsed)
    as (s2 & ext & Hpart' & Hd & Hplain).
  rewrite Hbt, Hpart' in Hpart. injection Hpart as <- <-.
  simpl in Ht, Hh.
  pose proof (transcodeBinaryProperties_inv getBinaryAccessor _ _ _ _ _ _
                Hd Ht) as Hable.
  destruct (transcodeBinaryProperties_run getBinaryAccessor _ _ _ _ Hable)
    as (acc & Ht' & Hslots & Hown & Hrest).
  rewrite Ht' in Ht. injection Ht as <-.
  eexists. split; [reflexivity|]. simpl.
  split; [reflexivity|]. split; [exact Hplain|]. split; [reflexivity|].
  split; [exact Hh|]. split; [reflexivity|]. split; [exact Hslots|]. split.
  - intros i k p Hi.
    destruct (Hown _ _ _ Hi) as (ty & v & Hp & Hf' & Hc' & Hv').
    split; [exact Hf'|]. eexists ty, v, _. split; [exact Hp|].
    split; [exact Hv'|]. split; [reflexivity|]. split; [reflexivity|].
    exact Hc'.
  - intros k Hk. apply Hrest, Hk.
Qed.
End WellFormed.

Lemma example_parsed :
  parsed_table Example.store 2
    (plain_object [("height", VObj 3); ("name", VObj 4); ("color", VObj 5)]).
Proof.
  split; [|split; [|split; [|split]]].
  - split; [reflexivity|]. split; [reflexivity|]. split; [reflexivity|].
    intros k l Hk. simpl in Hk.
    repeat (destruct (decide _) in Hk; [injection Hk as <-; simpl; eauto|]).
    discriminate.
  - intros Hd. discriminate Hd.
  - apply NoDup_ListNoDup. repeat constructor; simpl; intuition discriminate.
  - reflexivity.
  - intros Hin. apply list_elem_of_In in Hin. simpl in Hin.
    intuition discriminate.
Qed.

Lemma parseBatchTable_well_formed_witness :
  exists bundle features,
    parseBatchTable specBinaryAccessor (options_of 2) Example.store =
      (Ret bundle, Example.store) /\
    fm_featureTables bundle = [("_batchTable", features)] /\
    d_own (jmt_properties (ft_jsonMetadataTable features)) =
      [("name", VObj 4)] /\
    map fst (ft_bufferViews features) = [0; 1]%nat /\
    assoc "color" (d_own (ftj_properties (ft_featureTable features))) =
      Some {| bufferView := 1 |}.
Proof.
  destruct (parseBatchTable specBinaryAccessor (options_of 2) Example.store)
    as [out s'] eqn:Hrun.
  assert (Hout : exists bundle, out = Ret bundle).
  { assert (Hfst : fst (parseBatchTable specBinaryAccessor (options_of 2)
                          Example.store) = out)
      by (rewrite Hrun; reflexivity).
    vm_compute in Hfst. rewrite <- Hfst. eauto. }
  destruct Hout as [bundle ->].
  destruct (parseBatchTable_well_formed specBinaryAccessor (options_of 2) 2
              _ Example.store bundle s' eq_refl example_parsed Hrun)
    as (features & Hft & _ & Hstate & Hjson & _ & _ & Hslots & Hown & _).
  destruct (Hstate eq_refl) as [-> _].
  exists bundle, features. split; [reflexivity|]. split; [exact Hft|].
  split; [rewrite Hjson; reflexivity|]. split; [exact Hslots|].
  destruct (Hown 1%nat "color" (VObj 5) eq_refl) as [Hcolor _].
  exact Hcolor.
Defined.

(** * Two runs on the same input *)

Lemma js_add_pure a b s s' : fst (js_add a b s) = fst (js_add a b s').
Proof.
  unfold js_add.
  destruct (to_number a) as [[x|]|], (to_number b) as [[y|]|];
    try reflexivity.
  destruct (safe x && safe y && safe (x + y)); reflexivity.
Qed.

(** The descriptor depends on the component type and the type alone. *)
Lemma transcodePropertyType_reads p s p' s' :
  get_in (heap s) p "componentType" = get_in (heap s') p' "componentType" ->
  get_in (heap s) p "type" = get_in (heap s') p' "type" ->
  fst (transcodePropertyType p s) = fst (transcodePropertyType p' s').
Proof.
  intros Hc Ht. unfold transcodePropertyType, bind, get, read.
  cbn [fst snd]. rewrite Hc.
  destruct (get_in (heap s') p' "componentType") as [ct| |]; try reflexivity.
  rewrite Ht.
  destruct (get_in (heap s') p' "type") as [ty| |]; try reflexivity.
  destruct (decide (ty = VStr "SCALAR")); [reflexivity|].
  destruct ty as [| | | |tag|]; try reflexivity. simpl.
  destruct (code_units tag !! 3%nat); reflexivity.
Qed.

Lemma sorted_entries_same wanted h h' l l' :
  Forall2 (fun e e' => fst e = fst e' /\ same_property h (snd e) h' (snd e'))
          l l' ->
  Forall2 (fun e e' => fst e = fst e' /\ same_property h (snd e) h' (snd e'))
          (sorted_entries wanted h l) (sorted_entries wanted h' l').
Proof.
  induction 1 as [|[k v] [k' v'] l l' [Hk Hp] _ IH]; [constructor|].
  simpl in Hk. subst k'. rewrite !sorted_entries_cons.
  unfold sorted_entry. cbn [fst snd].
  unfold same_property in Hp. cbn [snd] in Hp.
  destruct Hp as (Ha & Hrest). rewrite <- Ha.
  destruct (reserved k || bool_decide (k = "__proto__")); [exact IH|].
  destruct (Bool.eqb (is_array h v) wanted); [|exact IH].
  constructor; [|exact IH]. split; [reflexivity|].
  split; [exact Ha | exact Hrest].
Qed.

Section Lockstep.
Context {View : Type}.
Variable getBinaryAccessor :
  list object -> value -> outcome (@BinaryAccessor View).
Variables (fc : value) (d d' : dict value) (body body' : value).
Variables (s s' : state).
Hypothesis same_offset :
  get_in (heap s) body "byteOffset" = get_in (heap s') body' "byteOffset".

Abbreviation similar :=
  (fun e e' : string * value =>
     fst e = fst e' /\ same_property (heap s) (snd e) (heap s') (snd e')).

(** The two loops, turn by turn: the same descriptors under the same keys,
    the same slots, and views over the same byte ranges. *)
Lemma transcode_lockstep es es' :
  Forall2 similar es es' ->
  (forall k p, (k, p) ∈ es ->
     k <> "__proto__" /\
     dict_hasOwnProperty d k s = (Ret true, s) /\
     dict_get d k s = (Ret p, s)) ->
  (forall k p, (k, p) ∈ es' ->
     k <> "__proto__" /\
     dict_hasOwnProperty d' k s' = (Ret true, s') /\
     dict_get d' k s' = (Ret p, s')) ->
  forall acc acc' a1 a1' s1 s1',
    acc_classProperties acc = acc_classProperties acc' ->
    acc_featureTableProperties acc = acc_featureTableProperties acc' ->
    acc_bufferViewCount acc = acc_bufferViewCount acc' ->
    Forall (fun e => fst e < acc_bufferViewCount acc)%nat
           (acc_bufferViewsU8 acc) ->
    Forall (fun e => fst e < acc_bufferViewCount acc')%nat
           (acc_bufferViewsU8 acc') ->
    same_slots (heap s) (acc_bufferViewsU8 acc)
               (heap s') (acc_bufferViewsU8 acc') fc ->
    for_each (keys es) (transcode_step getBinaryAccessor fc d body) acc s =
      (Ret a1, s1) ->
    for_each (keys es') (transcode_step getBinaryAccessor fc d' body') acc' s'
      = (Ret a1', s1') ->
    acc_classProperties a1 = acc_classProperties a1' /\
    acc_featureTableProperties a1 = acc_featureTableProperties a1' /\
    same_slots (heap s) (acc_bufferViewsU8 a1)
               (heap s') (acc_bufferViewsU8 a1') fc.
Proof.
  induction 1 as [|[k p] [k' p'] es es' [Hk Hp] _ IH];
    intros Hes Hes' acc acc' a1 a1' s1 s1' Hc Hf Hn Hlt Hlt' Hv Hrun Hrun'.
  - injection Hrun as <- _. injection Hrun' as <- _. auto.
  - simpl in Hk. subst k'.
    cbn [keys map fst] in Hrun, Hrun'. fold (keys es) in Hrun.
    fold (keys es') in Hrun'.
    rewrite for_each_cons in Hrun, Hrun'.
    apply bind_ret_inv in Hrun as (acc1 & s2 & Hstep & Hrun).
    apply bind_ret_inv in Hrun' as (acc1' & s2' & Hstep' & Hrun').
    destruct (Hes k p) as (Hne & Hhas & Hget); [left|].
    destruct (Hes' k p') as (_ & Hhas' & Hget'); [left|].
    destruct (transcode_step_inv getBinaryAccessor _ _ _ _ _ _ _ _ _
                Hstep Hhas Hget Hne) as (ty & v & Hprop & -> & ->).
    destruct (transcode_step_inv getBinaryAccessor _ _ _ _ _ _ _ _ _
                Hstep' Hhas' Hget' Hne) as (ty' & v' & Hprop' & -> & ->).
    apply transcode_property_inv in Hprop
      as (accessor & buffer & bo & po & off & _ & Hty & _ & Hbo & Hpo
          & Hoff & Hview).
    apply transcode_property_inv in Hprop'
      as (accessor' & buffer' & bo' & po' & off' & _ & Hty' & _ & Hbo' & Hpo'
          & Hoff' & Hview').
    destruct Hp as (_ & Hpc & Hpt & Hpb). simpl in Hpc, Hpt, Hpb.
    assert (ty' = ty) as ->.
    { pose proof (transcodePropertyType_reads p s p' s' Hpc Hpt) as E.
      rewrite Hty, Hty' in E. simpl in E. congruence. }
    assert (bo' = bo) as -> by congruence.
    assert (po' = po) as -> by congruence.
    assert (off' = off) as ->.
    { pose proof (js_add_pure bo po s s') as E.
      rewrite Hoff, Hoff' in E. simpl in E. congruence. }
    eapply IH; [| | | | | | | | exact Hrun | exact Hrun'].
    + intros k0 p0 H0. apply Hes. right. exact H0.
    + intros k0 p0 H0. apply Hes'. right. exact H0.
    + simpl. rewrite Hc. reflexivity.
    + simpl. rewrite Hf, Hn. reflexivity.
    + simpl. rewrite Hn. reflexivity.
    + simpl. rewrite (slot_insert_last _ _ _ Hlt).
      apply Forall_app. split.
      * eapply Forall_impl; [exact Hlt|]. simpl. intros; lia.
      * constructor; [simpl; lia | constructor].
    + simpl. rewrite (slot_insert_last _ _ _ Hlt').
      apply Forall_app. split.
      * eapply Forall_impl; [exact Hlt'|]. simpl. intros; lia.
      * constructor; [simpl; lia | constructor].
    + simpl. rewrite (slot_insert_last _ _ _ Hlt),
        (slot_insert_last _ _ _ Hlt').
      apply Forall2_app; [exact Hv|].
      constructor; [|constructor]. split; [simpl; exact Hn|]. simpl.
      exists accessor, accessor', buffer, buffer', off. split; assumption.
Qed.

(** And so the two calls. *)
Lemma transcodeBinaryProperties_lockstep t t' s1 s1' :
  plain_dict d -> plain_dict d' ->
  Forall2 similar (d_own d) (d_own d') ->
  transcodeBinaryProperties getBinaryAccessor fc d body s = (Ret t, s1) ->
  transcodeBinaryProperties getBinaryAccessor fc d' body' s' = (Ret t', s1')
  ->
  transcodedSchema t = transcodedSchema t' /\
  transcodedClass t = transcodedClass t' /\
  featureTableJson t = featureTableJson t' /\
  same_slots (heap s) (bufferViewsU8 t) (heap s') (bufferViewsU8 t') fc.
Proof.
  intros Hd Hd' Hsim Hrun Hrun'.
  destruct (plain_dict_keys d s Hd) as (Hkeys & Hhas & Hget).
  destruct (plain_dict_keys d' s' Hd') as (Hkeys' & Hhas' & Hget').
  unfold transcodeBinaryProperties in Hrun, Hrun'.
  rewrite (bind_run _ _ _ _ _ Hkeys) in Hrun.
  rewrite (bind_run _ _ _ _ _ Hkeys') in Hrun'.
  apply bind_ret_inv in Hrun as (acc & s2 & Hloop & Hrun).
  apply bind_ret_inv in Hrun' as (acc' & s2' & Hloop' & Hrun').
  injection Hrun as <- _. injection Hrun' as <- _.
  destruct Hd as (Hnd & Hnp & _), Hd' as (Hnd' & Hnp' & _).
  assert (Hes : forall k p, (k, p) ∈ d_own d ->
            k <> "__proto__" /\
            dict_hasOwnProperty d k s = (Ret true, s) /\
            dict_get d k s = (Ret p, s)).
  { intros k p Hin. split; [|split].
    - intros ->. apply Hnp. apply list_elem_of_fmap.
      exists ("__proto__", p). split; [reflexivity | exact Hin].
    - rewrite Hhas, bool_decide_eq_true_2; [reflexivity|].
      apply list_elem_of_fmap. exists (k, p).
      split; [reflexivity | exact Hin].
    - apply Hget, Hin. }
  assert (Hes' : forall k p, (k, p) ∈ d_own d' ->
            k <> "__proto__" /\
            dict_hasOwnProperty d' k s' = (Ret true, s') /\
            dict_get d' k s' = (Ret p, s')).
  { intros k p Hin. split; [|split].
    - intros ->. apply Hnp'. apply list_elem_of_fmap.
      exists ("__proto__", p). split; [reflexivity | exact Hin].
    - rewrite Hhas', bool_decide_eq_true_2; [reflexivity|].
      apply list_elem_of_fmap. exists (k, p).
      split; [reflexivity | exact Hin].
    - apply Hget', Hin. }
  pose (acc0 := {| acc_classProperties := empty_dict;
                   acc_featureTableProperties := empty_dict;
                   acc_bufferViewsU8 := [];
                   acc_bufferViewCount := 0%nat |} : @transcoding View).
  destruct (transcode_lockstep (d_own d) (d_own d') Hsim Hes Hes'
              acc0 acc0 acc acc' s2 s2' eq_refl eq_refl eq_refl
              ltac:(constructor) ltac:(constructor) ltac:(constructor)
              Hloop Hloop')
    as (Hc & Hf & Hv).
  simpl. rewrite Hc, Hf. auto.
Qed.
End Lockstep.

Section Determinism2.
Context {View : Type}.
Variable getBinaryAccessor :
  list object -> value -> outcome (@BinaryAccessor View).

(** The binary properties of two batch tables with the same descriptor,
    in the states the two partitionings leave. *)
Lemma same_table_partitioned b o s s1 b' o' s' s1' :
  parsed_table s b o -> parsed_table s' b' o' ->
  same_table (heap s) o (heap s') o' ->
  keeps_objects (heap s) (heap s1) ->
  keeps_objects (heap s') (heap s1') ->
  Forall2 (fun e e' =>
             fst e = fst e' /\
             same_property (heap s1) (snd e) (heap s1') (snd e'))
          (sorted_entries false (heap s) (own o))
          (sorted_entries false (heap s') (own o')).
Proof.
  intros ((_ & _ & _ & Hv) & _ & Hnd & _) ((_ & _ & _ & Hv') & _ & Hnd' & _)
    Hsame Hk Hk'.
  assert (Hstored : forall k v, (k, v) ∈ own o ->
            forall l, v = VObj l -> is_Some (heap s !! l)).
  { intros k v Hin l ->. apply (Hv k). apply assoc_elem; assumption. }
  assert (Hstored' : forall k v, (k, v) ∈ own o' ->
            forall l, v = VObj l -> is_Some (heap s' !! l)).
  { intros k v Hin l ->. apply (Hv' k). apply assoc_elem; assumption. }
  rewrite <- (sorted_entries_kept false (heap s) (heap s1) (own o)).
  2: { intros k v Hin. apply is_array_kept_objects; [exact Hk|].
       apply (Hstored k v Hin). }
  rewrite <- (sorted_entries_kept false (heap s') (heap s1') (own o')).
  2: { intros k v Hin. apply is_array_kept_objects; [exact Hk'|].
       apply (Hstored' k v Hin). }
  apply sorted_entries_same.
  unfold same_table in Hsame.
  apply Forall2_same_length_lookup in Hsame as [Hlen Hsame].
  apply Forall2_same_length_lookup. split; [exact Hlen|].
  intros i [k v] [k' v'] Hi Hi'.
  destruct (Hsame i _ _ Hi Hi') as (Hkey & Ha & Hc & Ht & Ho).
  pose proof (list_elem_of_lookup_2 _ _ _ Hi) as Hin.
  pose proof (list_elem_of_lookup_2 _ _ _ Hi') as Hin'.
  pose proof (Hstored k v Hin) as Hs. pose proof (Hstored' k' v' Hin') as Hs'.
  cbn [fst snd] in *. split; [exact Hkey|].
  split; [|split; [|split]].
  - rewrite (is_array_kept_objects _ _ _ Hk Hs),
      (is_array_kept_objects _ _ _ Hk' Hs'). exact Ha.
  - rewrite (get_in_kept _ _ _ _ Hk Hs), (get_in_kept _ _ _ _ Hk' Hs')
      by discriminate. exact Hc.
  - rewrite (get_in_kept _ _ _ _ Hk Hs), (get_in_kept _ _ _ _ Hk' Hs')
      by discriminate. exact Ht.
  - rewrite (get_in_kept _ _ _ _ Hk Hs), (get_in_kept _ _ _ _ Hk' Hs')
      by discriminate. exact Ho.
Qed.

End Determinism2.

Lemma moved_parsed : parsed_table Moved.store 3 Moved.table.
Proof.
  split; [|split; [|split; [|split]]].
  - split; [reflexivity|]. split; [reflexivity|]. split; [reflexivity|].
    intros k l Hk. simpl in Hk.
    repeat (destruct (decide _) in Hk; [injection Hk as <-; simpl; eauto|]).
    discriminate.
  - intros Hd. discriminate Hd.
  - apply NoDup_ListNoDup. repeat constructor; simpl; intuition discriminate.
  - reflexivity.
  - intros Hin. apply list_elem_of_In in Hin. simpl in Hin.
    intuition discriminate.
Qed.

